(** * Bitfinex exchange adapter (src/exchange/bitfinex.cpp)

    A shallow embedding of the adapter: the jansson accessors it calls, the
    C and C++ library conversions it relies on (strtod, stream insertion of
    a double, to_string), the authenticated request builder and the six
    trading operations, followed by the properties of the specification. *)

From Stdlib Require Import ZArith NArith List Bool Ascii String Lia Floats.
From Stdlib Require Import DecimalString DecimalPos Uint63 Sorted.
Import ListNotations.

Set Warnings "-register-all,-inexact-float".

Local Open Scope string_scope.
Local Open Scope Z_scope.

(** ** C string literals

    The literals of the source are full of escaped double quotes.  They are
    written here with an apostrophe standing for the double quote (no literal
    of the source contains an apostrophe); [lit] puts the double quotes back:
    [lit "{'request':'"] is the first literal of authRequest. *)

Definition dquote : ascii := ascii_of_nat 34.
Definition newline : string := String (ascii_of_nat 10) EmptyString.

Fixpoint lit (s : string) : string :=
  match s with
  | EmptyString => EmptyString
  | String c r => String (if Ascii.eqb c "'"%char then dquote else c) (lit r)
  end.

(** ** JSON documents and the jansson accessors

    A [json_t *] is an [option json]: [None] is the null pointer.  Objects are
    association lists looked up by the first binding of a key, which is what
    a jansson hash table with unique keys answers. *)

Module Jansson.

Inductive json : Type :=
| JObject (members : list (string * json))
| JArray (items : list json)
| JString (s : string)
| JInteger (z : Z)
| JReal (d : float)
| JTrue
| JFalse
| JNull.

Definition json_ptr := option json.

Fixpoint assoc (key : string) (members : list (string * json)) : json_ptr :=
  match members with
  | [] => None
  | (k, v) :: rest => if String.eqb k key then Some v else assoc key rest
  end.

(** [json_object_get]: NULL unless [root] is an object that has [key]. *)
Definition json_object_get (root : json_ptr) (key : string) : json_ptr :=
  match root with
  | Some (JObject members) => assoc key members
  | _ => None
  end.

(** [json_array_size]: 0 unless [root] is an array. *)
Definition json_array_size (root : json_ptr) : nat :=
  match root with
  | Some (JArray items) => List.length items
  | _ => 0%nat
  end.

(** [json_array_get]: NULL unless [root] is an array and [i] is in range. *)
Definition json_array_get (root : json_ptr) (i : nat) : json_ptr :=
  match root with
  | Some (JArray items) => nth_error items i
  | _ => None
  end.

(** [json_string_value]: a [const char *], NULL unless [j] is a string.
    (jansson rejects NUL inside strings when it loads a document, so the C
    string is the whole string.) *)
Definition json_string_value (j : json_ptr) : option string :=
  match j with
  | Some (JString s) => Some s
  | _ => None
  end.

(** [json_integer_value]: 0 unless [j] is an integer. *)
Definition json_integer_value (j : json_ptr) : Z :=
  match j with
  | Some (JInteger z) => z
  | _ => 0
  end.

(** [json_is_false(j)] is [(j && json_typeof(j) == JSON_FALSE)]. *)
Definition json_is_false (j : json_ptr) : bool :=
  match j with
  | Some JFalse => true
  | _ => false
  end.

(** The type names jansson prints in its unpack diagnostics. *)
Definition type_name (j : json) : string :=
  match j with
  | JObject _ => "object"
  | JArray _ => "array"
  | JString _ => "string"
  | JInteger _ => "integer"
  | JReal _ => "real"
  | JTrue => "true"
  | JFalse => "false"
  | JNull => "null"
  end.

(** [json_unpack_ex(j, &err, 0, "{s:s, s:s, s:s}", k1, &v1, k2, &v2, k3, &v3)]:
    [inr (v1, v2, v3)] when [j] is an object whose members [k1], [k2], [k3]
    are all strings (return value 0); otherwise [inl err.text] (return value
    -1).  The keys are visited in order and the first failure is reported.
    Flags 0: members other than the three are allowed. *)
Definition unpack_s (j : json) (key : string) : string + string :=
  match j with
  | JObject members =>
      match assoc key members with
      | None => inl ("Object item not found: " ++ key)
      | Some (JString s) => inr s
      | Some v => inl ("Expected string, got " ++ type_name v)
      end
  | _ => inl ("Expected object, got " ++ type_name j)
  end.

Definition json_unpack_sss (j : json_ptr) (k1 k2 k3 : string)
  : string + (string * string * string) :=
  match j with
  | None => inl "NULL root value"
  | Some v =>
      match unpack_s v k1 with
      | inl e => inl e
      | inr v1 =>
          match unpack_s v k2 with
          | inl e => inl e
          | inr v2 =>
              match unpack_s v k3 with
              | inl e => inl e
              | inr v3 => inr (v1, v2, v3)
              end
          end
      end
  end.

End Jansson.

(** ** The C and C++ library conversions used by the adapter *)

Module Libc.

(** *** strtod

    [atof(s)] is [strtod(s, NULL)] and [std::stod] calls [strtod] too.  In
    the C locale [strtod] skips white space, reads an optional sign and then
    the longest of: a decimal significand with an optional exponent, a
    hexadecimal significand ([0x]) with an optional binary exponent, [inf] or
    [infinity], [nan] (letters in either case).  The value is the nearest
    double (ties to even) of the exact number read. *)

Definition isspace (c : ascii) : bool :=
  let n := Z.of_nat (nat_of_ascii c) in
  (n =? 32) || ((9 <=? n) && (n <=? 13)).

Definition digit_of (c : ascii) : option Z :=
  let n := Z.of_nat (nat_of_ascii c) in
  if (48 <=? n) && (n <=? 57) then Some (n - 48) else None.

Definition hexdigit_of (c : ascii) : option Z :=
  let n := Z.of_nat (nat_of_ascii c) in
  if (48 <=? n) && (n <=? 57) then Some (n - 48)
  else if (97 <=? n) && (n <=? 102) then Some (n - 87)
  else if (65 <=? n) && (n <=? 70) then Some (n - 55)
  else None.

Definition tolower (c : ascii) : ascii :=
  let n := nat_of_ascii c in
  if ((65 <=? n) && (n <=? 90))%nat then ascii_of_nat (n + 32) else c.

Fixpoint skip_space (s : string) : string :=
  match s with
  | String c r => if isspace c then skip_space r else s
  | EmptyString => s
  end.

(** [starts_with p s]: [s] begins with [p], letters compared without case. *)
Fixpoint starts_with (p s : string) : bool :=
  match p, s with
  | EmptyString, _ => true
  | String a p', String b s' => Ascii.eqb a (tolower b) && starts_with p' s'
  | String _ _, EmptyString => false
  end.

(** Digits in base [base]: the number read after [acc], how many digits were
    read after [n], and the rest of the string. *)
Fixpoint read_digits (base : Z) (dig : ascii -> option Z) (s : string)
    (acc n : Z) : Z * Z * string :=
  match s with
  | String c r =>
      match dig c with
      | Some d => read_digits base dig r (acc * base + d) (n + 1)
      | None => (acc, n, s)
      end
  | EmptyString => (acc, n, s)
  end.

(** A significand [digits [. digits]] with at least one digit: its digits read
    as one integer, the number of digits after the point, and the rest. *)
Definition read_significand (base : Z) (dig : ascii -> option Z) (s : string)
  : option (Z * Z * string) :=
  let '(m1, n1, r1) := read_digits base dig s 0 0 in
  match r1 with
  | String "."%char r2 =>
      let '(m2, n2, r3) := read_digits base dig r2 m1 0 in
      if n1 + n2 =? 0 then None else Some (m2, n2, r3)
  | _ => if n1 =? 0 then None else Some (m1, 0, r1)
  end.

(** An exponent part [marker [sign] digits]; 0 when there is none. *)
Definition read_exponent (marker : ascii) (s : string) : Z :=
  match s with
  | String c r =>
      if Ascii.eqb (tolower c) marker then
        let '(sgn, r') :=
          match r with
          | String "+"%char r' => (1, r')
          | String "-"%char r' => (-1, r')
          | _ => (1, r)
          end in
        let '(e, n, _) := read_digits 10 digit_of r' 0 0 in
        if n =? 0 then 0 else sgn * e
      else 0
  | EmptyString => 0
  end.

(** The nearest double of [num / den] ([0 <= num], [0 < den]), with sign. *)
Definition nearest_double (neg : bool) (num den : Z) : spec_float :=
  match num, den with
  | Zpos n, Zpos d => SF64div (S754_finite neg n 0) (S754_finite false d 0)
  | _, _ => S754_zero neg
  end.

Definition is_exact (x : spec_float) (num den : Z) : bool :=
  match x with
  | S754_finite _ m e =>
      if 0 <=? e then Zpos m * 2 ^ e * den =? num
      else Zpos m * den =? num * 2 ^ (- e)
  | S754_zero _ => num =? 0
  | _ => false
  end.

(** [ERANGE]: the value overflows, or it is not zero and the result is zero
    or a subnormal that is not exact. *)
Definition range_error (x : spec_float) (num den : Z) : bool :=
  match x with
  | S754_infinity _ => true
  | S754_zero _ => negb (num =? 0)
  | S754_finite _ m _ =>
      negb (Zpos (digits2_pos m) =? prec) && negb (is_exact x num den)
  | S754_nan => false
  end.

(** What [strtod] found: no conversion, or a value and whether [errno] was
    set to [ERANGE]. *)
Inductive strtod_result :=
| NoConversion
| Converted (value : float) (erange : bool).

Definition scaled (neg : bool) (m base e : Z) : strtod_result :=
  let '(num, den) := if 0 <=? e then (m * base ^ e, 1) else (m, base ^ (- e)) in
  let x := nearest_double neg num den in
  Converted (SF2Prim x) (range_error x num den).

Definition strtod_unsigned (neg : bool) (s : string) : strtod_result :=
  if starts_with "inf" s then
    Converted (if neg then neg_infinity else infinity) false
  else if starts_with "nan" s then Converted nan false
  else
    let hex :=
      if starts_with "0x" s then
        match s with
        | String _ (String _ r) =>
            match read_significand 16 hexdigit_of r with
            | Some (m, nfrac, r') =>
                Some (scaled neg m 2 (read_exponent "p" r' - 4 * nfrac))
            | None => None
            end
        | _ => None
        end
      else None in
    match hex with
    | Some res => res
    | None =>
        match read_significand 10 digit_of s with
        | Some (m, nfrac, r') => scaled neg m 10 (read_exponent "e" r' - nfrac)
        | None => NoConversion
        end
    end.

Definition strtod (s : string) : strtod_result :=
  match skip_space s with
  | String "-"%char r => strtod_unsigned true r
  | String "+"%char r => strtod_unsigned false r
  | r => strtod_unsigned false r
  end.

(** [atof]: the value [strtod] converts, 0.0 when it converts nothing. *)
Definition atof (s : string) : float :=
  match strtod s with
  | Converted v _ => v
  | NoConversion => 0%float
  end.

(** *** Conversions between integers and doubles

    [(double) z] for a [long]: exact up to [2^53], else the nearest double
    (written for [|z| < 2^63]). *)

Definition double_of_long (z : Z) : float :=
  if z <? 0 then (- of_uint63 (of_Z (- z)))%float else of_uint63 (of_Z z).

(** A double converted to [unsigned long long]: the value truncated toward
    zero; [None] is the undefined behaviour of C when the truncated value is
    not in [0, 2^64) (NaN and the infinities included). *)
Definition ull_of_double (d : float) : option Z :=
  match Prim2SF d with
  | S754_zero _ => Some 0
  | S754_finite s m e =>
      let t := if 0 <=? e then Zpos m * 2 ^ e else Zpos m / 2 ^ (- e) in
      if s then (if t =? 0 then Some 0 else None)
      else if t <? 2 ^ 64 then Some t else None
  | _ => None
  end.

(** *** Decimal output

    [std::to_string] of an integer prints it in base 10, with a minus sign
    when it is negative. *)

Definition to_string (z : Z) : string := NilZero.string_of_int (Z.to_int z).

(** [os << d] for a double, with the stream's default flags, converts as
    printf's [%g] does with precision 6: the exact value is rounded (ties to
    even) to 6 significant decimal digits [D * 10^(X-5)]; fixed notation is
    used when [-4 <= X < 6] and scientific notation otherwise; trailing zeros
    of the fraction are removed, and the point with them when nothing is left
    after it. *)

Definition digit_char (d : Z) : ascii := ascii_of_nat (48 + Z.to_nat d).

Definition digit_at (D k : Z) : ascii := digit_char ((D / 10 ^ k) mod 10).

Definition digits6 (D : Z) : string :=
  String (digit_at D 5) (String (digit_at D 4) (String (digit_at D 3)
    (String (digit_at D 2) (String (digit_at D 1)
      (String (digit_at D 0) EmptyString))))).

Fixpoint zeros (n : nat) : string :=
  match n with
  | O => EmptyString
  | S k => String "0"%char (zeros k)
  end.

Fixpoint strip_zeros (s : string) : string :=
  match s with
  | EmptyString => EmptyString
  | String c r =>
      match strip_zeros r with
      | EmptyString =>
          if Ascii.eqb c "0"%char then EmptyString else String c EmptyString
      | r' => String c r'
      end
  end.

Definition with_fraction (int_part frac : string) : string :=
  match strip_zeros frac with
  | EmptyString => int_part
  | f => int_part ++ "." ++ f
  end.

Definition round_half_even (n d : Z) : Z :=
  let q := n / d in
  let r := n mod d in
  if (d <? 2 * r) || ((d =? 2 * r) && Z.odd q) then q + 1 else q.

(** [10^X <= num / den] *)
Definition ge_pow10 (num den X : Z) : bool :=
  if 0 <=? X then den * 10 ^ X <=? num else den <=? num * 10 ^ (- X).

(** The decimal exponent of [num / den], searched upward from [X]. *)
Fixpoint exp10_from (fuel : nat) (num den X : Z) : Z :=
  match fuel with
  | O => X
  | S f =>
      if ge_pow10 num den (X + 1) then exp10_from f num den (X + 1) else X
  end.

(** The six significant digits [D] and the decimal exponent [X] of the
    finite double [m * 2^e].  No double is below [10^-324] or reaches
    [10^309]. *)
Definition sci6 (m : positive) (e : Z) : Z * Z :=
  let '(num, den) :=
    if 0 <=? e then (Zpos m * 2 ^ e, 1) else (Zpos m, 2 ^ (- e)) in
  let X := exp10_from 640 num den (-324) in
  let D :=
    if 5 <=? X then round_half_even num (den * 10 ^ (X - 5))
    else round_half_even (num * 10 ^ (5 - X)) den in
  if 1000000 <=? D then (100000, X + 1) else (D, X).

Definition fixed_repr (D X : Z) : string :=
  let ds := digits6 D in
  if 0 <=? X then
    let k := Z.to_nat (X + 1) in
    with_fraction (substring 0 k ds) (substring k (6 - k) ds)
  else with_fraction "0" (zeros (Z.to_nat (- X - 1)) ++ ds).

Definition exp_digits (a : Z) : string :=
  if a <? 100 then
    String (digit_at a 1) (String (digit_at a 0) EmptyString)
  else
    String (digit_at a 2) (String (digit_at a 1)
      (String (digit_at a 0) EmptyString)).

Definition sci_repr (D X : Z) : string :=
  let ds := digits6 D in
  with_fraction (substring 0 1 ds) (substring 1 5 ds)
    ++ "e" ++ (if X <? 0 then "-" else "+") ++ exp_digits (Z.abs X).

Definition ostream_double (d : float) : string :=
  match Prim2SF d with
  | S754_nan => "nan"
  | S754_infinity s => (if s then "-" else EmptyString) ++ "inf"
  | S754_zero s => (if s then "-" else EmptyString) ++ "0"
  | S754_finite s m e =>
      let '(D, X) := sci6 m e in
      (if s then "-" else EmptyString)
        ++ (if (-4 <=? X) && (X <? 6) then fixed_repr D X else sci_repr D X)
  end.

End Libc.

(** ** Doubles as scaled integers

    Every finite double is a multiple of [2^-1074].  The value of a double
    that is not negative is kept here as that multiple, an integer; rounding
    to the nearest double (ties to even) then is a function on integers. *)

Module Binary64.

(** The exponent of the last place of a double of magnitude [2^k]. *)
Definition fexp64 (k : Z) : Z := Z.max (k - 53) (-1074).

(** [m / 2^k] rounded to the nearest integer, ties to even ([1 <= k]). *)
Definition rne (m k : Z) : Z :=
  let q := m / 2 ^ k in
  if Z.testbit m (k - 1) && (negb (m mod 2 ^ (k - 1) =? 0) || Z.odd q)
  then q + 1 else q.

(** The double nearest to [m * 2^e], in units of [2^-1074]. *)
Definition round64 (m e : Z) : Z :=
  let c := fexp64 (Z.log2 m + 1 + e) in
  if e <? c then rne m (c - e) * 2 ^ (c + 1074)
  else m * 2 ^ (e + 1074).

(** The value of a zero or of a positive finite double, in units of
    [2^-1074]. *)
Definition SFZ (x : spec_float) : option Z :=
  match x with
  | S754_zero _ => Some 0
  | S754_finite false m e => Some (Zpos m * 2 ^ (e + 1074))
  | _ => None
  end.

Definition V (x : float) : option Z := SFZ (Prim2SF x).

(** The number 1 in units of [2^-1074]. *)
Definition U : Z := 2 ^ 1074.

(** The double written 0.001 in the source, [0x1.0624dd2f1a9fcp-10], in units
    of [2^-1074]. *)
Definition milli : Z := 4611686018427388 * 2 ^ 1012.

End Binary64.

(** ** Base64

    Modelled from the spec: [base64_encode] (utils/base64.h) is the standard
    base64 encoding of the bytes of its argument, with [=] padding. *)

Module Base64.

Definition alphabet : string :=
  "ABCDEFGHIJKLMNOPQRSTUVWXYZabcdefghijklmnopqrstuvwxyz0123456789+/".

Definition b64_char (n : N) : ascii :=
  match get (N.to_nat n) alphabet with
  | Some c => c
  | None => "="%char
  end.

Fixpoint base64_encode (s : string) : string :=
  match s with
  | EmptyString => EmptyString
  | String a EmptyString =>
      let x := N_of_ascii a in
      String (b64_char (x / 4)) (String (b64_char (x mod 4 * 16)) "==")
  | String a (String b EmptyString) =>
      let x := N_of_ascii a in
      let y := N_of_ascii b in
      String (b64_char (x / 4)) (String (b64_char (x mod 4 * 16 + y / 16))
        (String (b64_char (y mod 16 * 4)) "="))
  | String a (String b (String c r)) =>
      let x := N_of_ascii a in
      let y := N_of_ascii b in
      let z := N_of_ascii c in
      String (b64_char (x / 4)) (String (b64_char (x mod 4 * 16 + y / 16))
        (String (b64_char (y mod 16 * 4 + z / 64))
          (String (b64_char (z mod 64)) (base64_encode r))))
  end%N.

(** The decoder that a receiver applies to the payload header. *)
Definition b64_index (c : ascii) : option N :=
  let n := N_of_ascii c in
  if ((65 <=? n) && (n <=? 90))%N then Some (n - 65)%N
  else if ((97 <=? n) && (n <=? 122))%N then Some (n - 71)%N
  else if ((48 <=? n) && (n <=? 57))%N then Some (n + 4)%N
  else if (n =? 43)%N then Some 62%N
  else if (n =? 47)%N then Some 63%N
  else None.

Fixpoint base64_decode (s : string) : option string :=
  match s with
  | EmptyString => Some EmptyString
  | String c0 (String c1 (String c2 (String c3 r))) =>
      match b64_index c0, b64_index c1 with
      | Some i0, Some i1 =>
          let a := ascii_of_N (i0 * 4 + i1 / 16) in
          if Ascii.eqb c2 "="%char then
            if Ascii.eqb c3 "="%char then
              match r with
              | EmptyString => Some (String a EmptyString)
              | _ => None
              end
            else None
          else
            match b64_index c2 with
            | Some i2 =>
                let b := ascii_of_N (i1 mod 16 * 16 + i2 / 4) in
                if Ascii.eqb c3 "="%char then
                  match r with
                  | EmptyString => Some (String a (String b EmptyString))
                  | _ => None
                  end
                else
                  match b64_index c3, base64_decode r with
                  | Some i3, Some t =>
                      Some (String a (String b
                        (String (ascii_of_N (i2 mod 4 * 64 + i3)) t)))
                  | _, _ => None
                  end
            | None => None
            end
      | _, _ => None
      end
  | _ => None
  end%N.

(** Modelled from the spec: [hex_str] (hex_str.hpp) renders each byte of the
    digest as two lowercase hexadecimal digits. *)
Definition hex_digit (n : N) : ascii :=
  match get (N.to_nat n) "0123456789abcdef" with
  | Some c => c
  | None => "?"%char
  end.

Fixpoint hex_str (s : string) : string :=
  match s with
  | EmptyString => EmptyString
  | String a r =>
      let x := N_of_ascii a in
      String (hex_digit (x / 16)) (String (hex_digit (x mod 16)) (hex_str r))
  end%N.

End Base64.

(** ** JSON texts

    What a receiver of the payload accepts: the grammar of RFC 8259, as a
    parser from a text to the document it denotes.  A string keeps the text
    between its quotes as it is written (escape sequences are checked, not
    decoded); an object keeps its members in the order of the text. *)

Module JsonText.

Import Jansson Libc.

Definition is_ws (c : ascii) : bool :=
  let n := N_of_ascii c in
  ((n =? 32) || (n =? 9) || (n =? 10) || (n =? 13))%N.

Fixpoint skip_ws (s : string) : string :=
  match s with
  | String c r => if is_ws c then skip_ws r else s
  | EmptyString => s
  end.

(** The rest of [s] after its first character, when that is [c]. *)
Definition head_is (c : ascii) (s : string) : option string :=
  match s with
  | String a r => if Ascii.eqb a c then Some r else None
  | EmptyString => None
  end.

Definition is_hex (c : ascii) : bool :=
  match hexdigit_of c with
  | Some _ => true
  | None => false
  end.

Definition backslash : ascii := ascii_of_nat 92.

(** The characters that may follow a backslash, [u] apart. *)
Definition simple_escape (c : ascii) : bool :=
  Ascii.eqb c dquote || Ascii.eqb c backslash || Ascii.eqb c "/"
  || Ascii.eqb c "b" || Ascii.eqb c "f" || Ascii.eqb c "n"
  || Ascii.eqb c "r" || Ascii.eqb c "t".

(** A string, from after its opening quote: the text up to the closing
    quote, and the rest after it. *)
Fixpoint read_string (s : string) : option (string * string) :=
  match s with
  | EmptyString => None
  | String c r =>
      if Ascii.eqb c dquote then Some (EmptyString, r)
      else if Ascii.eqb c backslash then
        match r with
        | String e r1 =>
            if simple_escape e then
              match read_string r1 with
              | Some (t, rest) => Some (String c (String e t), rest)
              | None => None
              end
            else if Ascii.eqb e "u" then
              match r1 with
              | String h1 (String h2 (String h3 (String h4 r2))) =>
                  if is_hex h1 && is_hex h2 && is_hex h3 && is_hex h4 then
                    match read_string r2 with
                    | Some (t, rest) =>
                        Some (String c (String e (String h1 (String h2
                                (String h3 (String h4 t))))), rest)
                    | None => None
                    end
                  else None
              | _ => None
              end
            else None
        | EmptyString => None
        end
      else if (N_of_ascii c <? 32)%N then None
      else
        match read_string r with
        | Some (t, rest) => Some (String c t, rest)
        | None => None
        end
  end.

(** A number: [-? int frac? exp?], an integer part without a leading zero
    unless it is 0 alone. *)
Definition read_number (s : string) : option (json * string) :=
  let '(neg, s1) :=
    match head_is "-" s with
    | Some r => (true, r)
    | None => (false, s)
    end in
  let '(m, n, r1) := read_digits 10 digit_of s1 0 0 in
  let leading_zero :=
    match head_is "0" s1 with
    | Some _ => 1 <? n
    | None => false
    end in
  if (n =? 0) || leading_zero then None
  else
    let frac :=
      match head_is "." r1 with
      | Some r =>
          let '(m', n', r') := read_digits 10 digit_of r m 0 in
          if n' =? 0 then None else Some (m', n', r', true)
      | None => Some (m, 0, r1, false)
      end in
    match frac with
    | None => None
    | Some (m2, nfrac, r2, has_frac) =>
        let exponent :=
          match r2 with
          | String c r =>
              if Ascii.eqb (tolower c) "e" then
                let '(sgn, r') :=
                  match r with
                  | String "+"%char r' => (1, r')
                  | String "-"%char r' => (-1, r')
                  | _ => (1, r)
                  end in
                let '(e, n3, r3) := read_digits 10 digit_of r' 0 0 in
                if n3 =? 0 then None else Some (Some (sgn * e), r3)
              else Some (None, r2)
          | EmptyString => Some (None, r2)
          end in
        match exponent with
        | None => None
        | Some (None, rest) =>
            if has_frac then
              match scaled neg m2 10 (- nfrac) with
              | Converted v _ => Some (JReal v, rest)
              | NoConversion => None
              end
            else Some (JInteger (if neg then - m2 else m2), rest)
        | Some (Some e, rest) =>
            match scaled neg m2 10 (e - nfrac) with
            | Converted v _ => Some (JReal v, rest)
            | NoConversion => None
            end
        end
    end.

Fixpoint read_literal (name s : string) : option string :=
  match name, s with
  | EmptyString, _ => Some s
  | String a name', String b s' =>
      if Ascii.eqb a b then read_literal name' s' else None
  | String _ _, EmptyString => None
  end.

(** A value at the head of [s], the members of an object after its brace
    and the elements of an array after its bracket (neither empty); [fuel]
    bounds the nesting and the number of members. *)
Fixpoint parse_value (fuel : nat) (s : string) : option (json * string) :=
  match fuel with
  | O => None
  | S f =>
      match s with
      | EmptyString => None
      | String c r =>
          if Ascii.eqb c dquote then
            match read_string r with
            | Some (t, rest) => Some (JString t, rest)
            | None => None
            end
          else if Ascii.eqb c "{" then
            match head_is "}" (skip_ws r) with
            | Some rest => Some (JObject [], rest)
            | None =>
                match parse_members f (skip_ws r) with
                | Some (ms, rest) => Some (JObject ms, rest)
                | None => None
                end
            end
          else if Ascii.eqb c "[" then
            match head_is "]" (skip_ws r) with
            | Some rest => Some (JArray [], rest)
            | None =>
                match parse_elements f (skip_ws r) with
                | Some (vs, rest) => Some (JArray vs, rest)
                | None => None
                end
            end
          else if Ascii.eqb c "t" then
            option_map (fun rest => (JTrue, rest)) (read_literal "true" s)
          else if Ascii.eqb c "f" then
            option_map (fun rest => (JFalse, rest)) (read_literal "false" s)
          else if Ascii.eqb c "n" then
            option_map (fun rest => (JNull, rest)) (read_literal "null" s)
          else read_number s
      end
  end

with parse_members (fuel : nat) (s : string)
  : option (list (string * json) * string) :=
  match fuel with
  | O => None
  | S f =>
      match head_is dquote s with
      | None => None
      | Some r =>
          match read_string r with
          | None => None
          | Some (k, r1) =>
              match head_is ":" (skip_ws r1) with
              | None => None
              | Some r2 =>
                  match parse_value f (skip_ws r2) with
                  | None => None
                  | Some (v, r3) =>
                      match head_is "," (skip_ws r3) with
                      | Some r4 =>
                          match parse_members f (skip_ws r4) with
                          | Some (ms, rest) => Some ((k, v) :: ms, rest)
                          | None => None
                          end
                      | None =>
                          match head_is "}" (skip_ws r3) with
                          | Some rest => Some ([(k, v)], rest)
                          | None => None
                          end
                      end
                  end
              end
          end
      end
  end

with parse_elements (fuel : nat) (s : string)
  : option (list json * string) :=
  match fuel with
  | O => None
  | S f =>
      match parse_value f s with
      | None => None
      | Some (v, r1) =>
          match head_is "," (skip_ws r1) with
          | Some r2 =>
              match parse_elements f (skip_ws r2) with
              | Some (vs, rest) => Some (v :: vs, rest)
              | None => None
              end
          | None =>
              match head_is "]" (skip_ws r1) with
              | Some rest => Some ([v], rest)
              | None => None
              end
          end
      end
  end.

(** The document that the text [s] denotes; [None] when [s] is not a JSON
    text. *)
Definition json_loads (s : string) : option json :=
  match parse_value (S (String.length s)) (skip_ws s) with
  | Some (v, rest) =>
      match skip_ws rest with
      | EmptyString => Some v
      | _ => None
      end
  | None => None
  end.

(** A string that can stand between quotes as it is: no quote, no backslash
    and no control character. *)
Fixpoint plain (s : string) : bool :=
  match s with
  | EmptyString => true
  | String c r =>
      negb (Ascii.eqb c dquote) && negb (Ascii.eqb c backslash)
      && negb (N_of_ascii c <? 32)%N && plain r
  end.

End JsonText.

(** ** The process and its environment

    The adapter reads the wall clock, writes to the log stream of
    [Parameters] and talks to the exchange through [RestApi].  A [World]
    holds what these effects read and change; an operation is a function from
    the world to an outcome and the world after it. *)

Module Env.

Import Jansson.

Record timeval := { tv_sec : Z; tv_usec : Z }.

Inductive http_method := GET | POST.

Record http_request := {
  req_method : http_method;
  req_url : string;
  req_headers : list string
}.

(** What the transport answers to one request. *)
Inductive reply :=
| Reply (root : json)
| TransportFailure.

(** A [std::ostream]: the text written so far and the [badbit].  Once the
    stream is bad, insertions write nothing. *)
Record ostream := { os_text : string; os_bad : bool }.

Record World := {
  (** the successive readings of [gettimeofday], and how many were taken *)
  wall_clock : nat -> timeval;
  clock_reads : nat;
  (** the exchange: its answer to a request, given the requests before it *)
  exchange : list http_request -> http_request -> reply;
  (** the requests performed so far, oldest first *)
  wire : list http_request;
  (** [*params.logFile] *)
  logFile : ostream
}.

Inductive exn :=
| invalid_argument (what : string)
| out_of_range (what : string)
| transport_error.

(** How a call ends: it returns, a C++ exception leaves it, or it runs into
    undefined behaviour (a null pointer given to [atof], a double that does
    not fit the integer it is converted to). *)
Inductive outcome (A : Type) :=
| Returns (a : A)
| Throws (e : exn)
| Undefined.

Arguments Returns {A} a.
Arguments Throws {A} e.
Arguments Undefined {A}.

Definition M (A : Type) : Type := World -> outcome A * World.

Definition ret {A} (a : A) : M A := fun w => (Returns a, w).

Definition bind {A B} (m : M A) (k : A -> M B) : M B :=
  fun w =>
    match m w with
    | (Returns a, w') => k a w'
    | (Throws e, w') => (Throws e, w')
    | (Undefined, w') => (Undefined, w')
    end.

Definition throw {A} (e : exn) : M A := fun w => (Throws e, w).

Definition undefined {A} : M A := fun w => (Undefined, w).

Definition set_log (o : ostream) (w : World) : World :=
  {| wall_clock := wall_clock w; clock_reads := clock_reads w;
     exchange := exchange w; wire := wire w; logFile := o |}.

(** [os << s] for a [std::string] or a non-null C string. *)
Definition os_write (s : string) (o : ostream) : ostream :=
  if os_bad o then o else {| os_text := os_text o ++ s; os_bad := false |}.

(** [os << p] for a [const char *]: a null pointer writes nothing and sets
    the [badbit] (libstdc++). *)
Definition os_write_cstr (p : option string) (o : ostream) : ostream :=
  match p with
  | Some s => os_write s o
  | None => {| os_text := os_text o; os_bad := true |}
  end.

Definition log (s : string) : M unit :=
  fun w => (Returns tt, set_log (os_write s (logFile w)) w).

Definition log_cstr (p : option string) : M unit :=
  fun w => (Returns tt, set_log (os_write_cstr p (logFile w)) w).

Definition gettimeofday : M timeval :=
  fun w =>
    (Returns (wall_clock w (clock_reads w)),
     {| wall_clock := wall_clock w; clock_reads := S (clock_reads w);
        exchange := exchange w; wire := wire w; logFile := logFile w |}).

(** Modelled from the spec: the transport ([RestApi], utils/restapi.h)
    performs a GET or POST over HTTPS against the base URL and returns the
    parsed JSON document, or raises a transport error. *)
Definition perform (q : http_request) : M json_ptr :=
  fun w =>
    let w' :=
      {| wall_clock := wall_clock w; clock_reads := clock_reads w;
         exchange := exchange w; wire := wire w ++ [q];
         logFile := logFile w |} in
    match exchange w (wire w) q with
    | Reply root => (Returns (Some root), w')
    | TransportFailure => (Throws transport_error, w')
    end.

Definition base_url : string := "https://api.bitfinex.com".

Definition getRequest (path : string) : M json_ptr :=
  perform {| req_method := GET; req_url := base_url ++ path;
             req_headers := [] |}.

Definition postRequest (path : string) (headers : list string) : M json_ptr :=
  perform {| req_method := POST; req_url := base_url ++ path;
             req_headers := headers |}.

End Env.

Declare Scope monad_scope.
Delimit Scope monad_scope with monad.
Notation "x <- m ;; k" := (Env.bind m (fun x => k))
  (at level 61, m at next level, right associativity) : monad_scope.
Notation "m ;; k" := (Env.bind m (fun _ => k))
  (at level 61, right associativity) : monad_scope.

(** ** The adapter *)

Module Bitfinex.

Import Jansson Libc Base64 Env.
Local Open Scope monad_scope.

Record Parameters := {
  cacert : string;
  bitfinexApi : string;
  bitfinexSecret : string;
  orderBookFactor : float
}.

Definition quote_t : Type := float * float.

Section Adapter.

(** OpenSSL's [HMAC(EVP_sha384(), key, ..., data, ...)]: the 48 bytes of the
    digest. *)
Variable HMAC_SHA384 : string -> string -> string.

Definition checkResponse (root : json_ptr) : M json_ptr :=
  let msg := json_object_get root "message" in
  match msg with
  | Some _ =>
      log "<Bitfinex> Error with response: " ;;
      log_cstr (json_string_value msg) ;;
      log newline ;;
      ret root
  | None => ret root
  end.

(** [std::stod]: [invalid_argument] when [strtod] converts nothing,
    [out_of_range] when it reports [ERANGE]. *)
Definition stod (s : string) : M float :=
  match strtod s with
  | NoConversion => throw (invalid_argument "stod")
  | Converted v true => throw (out_of_range "stod")
  | Converted v false => ret v
  end.

(** [atof] of a [const char *]; a null pointer is undefined behaviour. *)
Definition atof_cstr (p : option string) : M float :=
  match p with
  | Some s => ret (atof s)
  | None => undefined
  end.

(** The nonce of [authRequest]:
    [(tv.tv_sec * 1000.0) + (tv.tv_usec * 0.001) + 0.5], each operation
    rounded to double in turn, converted to [unsigned long long]. *)
Definition nonce_double (tv : timeval) : float :=
  (double_of_long (tv_sec tv) * 1000.0
   + double_of_long (tv_usec tv) * 0.001 + 0.5)%float.

Definition nonce_of (tv : timeval) : option Z :=
  ull_of_double (nonce_double tv).

(** The JSON text that [authRequest] builds before encoding it. *)
Definition payload_text (request : string) (nonce : Z) (options : string)
  : string :=
  let payload :=
    lit "{'request':'" ++ request ++ lit "','nonce':'" ++ to_string nonce in
  match options with
  | EmptyString => payload ++ lit "'}"
  | _ => payload ++ lit "', " ++ options ++ "}"
  end.

Definition auth_headers (params : Parameters) (payload : string)
  : list string :=
  let digest := HMAC_SHA384 (bitfinexSecret params) payload in
  [ "X-BFX-APIKEY:" ++ bitfinexApi params;
    "X-BFX-SIGNATURE:" ++ hex_str digest;
    "X-BFX-PAYLOAD:" ++ payload ].

Definition authRequest (params : Parameters) (request options : string)
  : M json_ptr :=
  tv <- gettimeofday ;;
  match nonce_of tv with
  | None => undefined
  | Some nonce =>
      let payload := payload_text request nonce options in
      let payload := base64_encode payload in
      root <- postRequest request (auth_headers params payload) ;;
      checkResponse root
  end.

Definition getQuote (params : Parameters) : M quote_t :=
  root <- getRequest "/v1/ticker/btcusd" ;;
  let quote := json_string_value (json_object_get root "bid") in
  bidValue <- match quote with Some q => stod q | None => ret 0%float end ;;
  let quote := json_string_value (json_object_get root "ask") in
  askValue <- match quote with Some q => stod q | None => ret 0%float end ;;
  ret (bidValue, askValue).

(** The loop of [getAvail], [for (size_t i = json_array_size(root); i--;)]:
    [getAvail_loop root currency i] runs it from the test of [i] on, with
    [availability] still 0.0. *)
Fixpoint getAvail_loop (root : json_ptr) (currency : string) (i : nat)
  : M float :=
  match i with
  | O => ret 0%float
  | S i' =>
      match json_unpack_sss (json_array_get root i')
              "type" "currency" "amount" with
      | inl err_text =>
          log ("<Bitfinex> Error with JSON: " ++ err_text ++ newline) ;;
          getAvail_loop root currency i'
      | inr (each_type, each_currency, each_amount) =>
          if String.eqb each_type "trading"
             && String.eqb each_currency currency
          then stod each_amount
          else getAvail_loop root currency i'
      end
  end.

Definition getAvail (params : Parameters) (currency : string) : M float :=
  root <- authRequest params "/v1/balances" EmptyString ;;
  getAvail_loop root currency (json_array_size root).

Definition sendOrder (params : Parameters) (direction : string)
    (quantity price : float) : M string :=
  log (lit "<Bitfinex> Trying to send a '" ++ direction
       ++ lit "' limit order: " ++ ostream_double quantity ++ "@$"
       ++ ostream_double price ++ "..." ++ newline) ;;
  let options :=
    lit "'symbol':'btcusd', 'amount':'" ++ ostream_double quantity
    ++ lit "', 'price':'" ++ ostream_double price
    ++ lit "', 'exchange':'bitfinex', 'side':'" ++ direction
    ++ lit "', 'type':'limit'" in
  root <- authRequest params "/v1/order/new" options ;;
  let orderId :=
    to_string (json_integer_value (json_object_get root "order_id")) in
  log ("<Bitfinex> Done (order ID: " ++ orderId ++ ")" ++ newline ++ newline) ;;
  ret orderId.

Definition sendLongOrder (params : Parameters) (direction : string)
    (quantity price : float) : M string :=
  sendOrder params direction quantity price.

Definition sendShortOrder (params : Parameters) (direction : string)
    (quantity price : float) : M string :=
  sendOrder params direction quantity price.

Definition isOrderComplete (params : Parameters) (orderId : string) : M bool :=
  if String.eqb orderId "0" then ret true
  else
    let options := lit "'order_id':" ++ orderId in
    root <- authRequest params "/v1/order/status" options ;;
    let isComplete := json_is_false (json_object_get root "is_live") in
    ret isComplete.

Definition getActivePos (params : Parameters) : M float :=
  root <- authRequest params "/v1/positions" EmptyString ;;
  if Nat.eqb (json_array_size root) 0 then
    log ("<Bitfinex> WARNING: BTC position not available, return 0.0"
         ++ newline) ;;
    ret 0%float
  else
    atof_cstr (json_string_value
                 (json_object_get (json_array_get root 0) "amount")).

(** The loop of [getLimitPrice], [for (i = 0; i < n; ++i)]: [k] is [n - i],
    the number of levels still to visit; [tmpVol] and [p] are the variables
    of the source.  (The size of the array is taken to fit the [int] that
    holds it.) *)
Fixpoint getLimitPrice_loop (params : Parameters) (bidask : json_ptr)
    (volume : float) (k i : nat) (tmpVol p : float) : M float :=
  match k with
  | O => ret p
  | S k' =>
      let level := json_array_get bidask i in
      p <- atof_cstr (json_string_value (json_object_get level "price")) ;;
      v <- atof_cstr (json_string_value (json_object_get level "amount")) ;;
      log ("<Bitfinex> order book: " ++ ostream_double v ++ "@$"
           ++ ostream_double p ++ newline) ;;
      let tmpVol := (tmpVol + v)%float in
      if (abs volume * orderBookFactor params <=? tmpVol)%float then ret p
      else getLimitPrice_loop params bidask volume k' (S i) tmpVol p
  end.

Definition getLimitPrice (params : Parameters) (volume : float) (isBid : bool)
  : M float :=
  root <- getRequest "/v1/book/btcusd" ;;
  let bidask := json_object_get root (if isBid then "bids" else "asks") in
  log ("<Bitfinex> Looking for a limit price to fill "
       ++ ostream_double (abs volume) ++ " BTC..." ++ newline) ;;
  getLimitPrice_loop params bidask volume (json_array_size bidask) 0
    0%float 0%float.

End Adapter.

End Bitfinex.

(** ** Vocabulary of the properties *)

Module Spec.

Import Jansson Libc Binary64 Base64 Env Bitfinex.

(** A world at its start: nothing read, sent or logged yet. *)
Definition initial_world (clock : nat -> timeval)
    (server : list http_request -> http_request -> reply) : World :=
  {| wall_clock := clock; clock_reads := 0; exchange := server; wire := [];
     logFile := {| os_text := EmptyString; os_bad := false |} |}.

(** An exchange that answers every request with the same document. *)
Definition always (root : json) : list http_request -> http_request -> reply :=
  fun _ _ => Reply root.

(** A clock stuck at 2023-11-14 22:13:20.250 UTC. *)
Definition noon : nat -> timeval :=
  fun _ => {| tv_sec := 1700000000; tv_usec := 250000 |}.

Definition demo_params : Parameters :=
  {| cacert := "cacert.pem"; bitfinexApi := "key"; bitfinexSecret := "secret";
     orderBookFactor := 1%float |}.

(** A stand-in for the digest function in concrete runs. *)
Definition no_hmac : string -> string -> string := fun _ _ => EmptyString.

(** *** Order books

    A level of the book is an object whose members "price" and "amount" are
    strings; its price and volume are what [atof] reads in them. *)

Definition level_fields (level : json) : option (float * float) :=
  match json_string_value (json_object_get (Some level) "price"),
        json_string_value (json_object_get (Some level) "amount") with
  | Some p, Some v => Some (atof p, atof v)
  | _, _ => None
  end.

Fixpoint book_levels (levels : list json) : option (list (float * float)) :=
  match levels with
  | [] => Some []
  | l :: rest =>
      match level_fields l, book_levels rest with
      | Some pv, Some lv => Some (pv :: lv)
      | _, _ => None
      end
  end.

(** The volume accumulated from [acc] over the levels [0 .. i], summed in
    double arithmetic in the order of the book. *)
Definition cum_from (acc : float) (lv : list (float * float)) (i : nat)
  : float :=
  fold_left (fun a l => (a + snd l)%float) (firstn (S i) lv) acc.

Definition cum_volume (lv : list (float * float)) (i : nat) : float :=
  cum_from 0%float lv i.

(** [x] reaches [|volume| * orderBookFactor]. *)
Definition reaches (params : Parameters) (volume x : float) : bool :=
  (abs volume * orderBookFactor params <=? x)%float.

(** The walk of [getLimitPrice] over parsed levels. *)
Fixpoint walk (params : Parameters) (volume : float)
    (lv : list (float * float)) (tmpVol p : float) : float :=
  match lv with
  | [] => p
  | (p', v) :: rest =>
      if reaches params volume (tmpVol + v)%float then p'
      else walk params volume rest (tmpVol + v)%float p'
  end.

Definition book_side (isBid : bool) : string :=
  if isBid then "bids" else "asks".

Definition level (price amount : string) : json :=
  JObject [("price", JString price); ("amount", JString amount)].

(** The book [(100, 1.0), (99, 2.0), (98, 5.0)] on both sides. *)
Definition demo_levels : list json :=
  [level "100" "1.0"; level "99" "2.0"; level "98" "5.0"].

Definition demo_book : json :=
  JObject [("bids", JArray demo_levels); ("asks", JArray demo_levels)].

(** *** Balances and quotes *)

Definition entry_fields (e : json) : string + (string * string * string) :=
  json_unpack_sss (Some e) "type" "currency" "amount".


(** The test of the loop of [getAvail] on a well-formed entry. *)
Definition entry_matches (currency : string) (e : json) : bool :=
  match entry_fields e with
  | inr (t, c, _) => String.eqb t "trading" && String.eqb c currency
  | inl _ => false
  end.


(** How [std::stod] ends on a string. *)
Definition stod_outcome (s : string) : outcome float :=
  match strtod s with
  | NoConversion => Throws (invalid_argument "stod")
  | Converted v true => Throws (out_of_range "stod")
  | Converted v false => Returns v
  end.

(** The scan of [getAvail] over the entries in the order it visits them. *)
Fixpoint avail_scan (currency : string) (visited : list json)
  : outcome float :=
  match visited with
  | [] => Returns 0%float
  | e :: rest =>
      match entry_fields e with
      | inr (t, c, a) =>
          if String.eqb t "trading" && String.eqb c currency
          then stod_outcome a
          else avail_scan currency rest
      | inl _ => avail_scan currency rest
      end
  end.

(** One side of the ticker as [getQuote] reads it. *)
Definition side_value (j : json_ptr) : outcome float :=
  match json_string_value j with
  | Some q => stod_outcome q
  | None => Returns 0%float
  end.

(** The request that [authRequest] sends for a given nonce. *)
Definition signed_request (HMAC_SHA384 : string -> string -> string)
    (params : Parameters) (request : string) (nonce : Z) (options : string)
  : http_request :=
  {| req_method := POST; req_url := base_url ++ request;
     req_headers :=
       auth_headers HMAC_SHA384 params
         (base64_encode (payload_text request nonce options)) |}.

(** The world once the clock was read and [q] was sent. *)
Definition after_request (q : http_request) (w : World) : World :=
  {| wall_clock := wall_clock w; clock_reads := S (clock_reads w);
     exchange := exchange w; wire := wire w ++ [q]; logFile := logFile w |}.

Definition ticker (bid ask : json) : json :=
  JObject [("bid", bid); ("ask", ask)].

(** A book world, a ticker world and a balance world for concrete runs. *)
Definition book_world : World := initial_world noon (always demo_book).

Definition balances_world (entries : list json) : World :=
  initial_world noon (always (JArray entries)).

(** *** Orders *)

(** The options that [sendOrder] passes to [authRequest], given the rendered
    quantity and price. *)
Definition order_options (direction amount price : string) : string :=
  lit "'symbol':'btcusd', 'amount':'" ++ amount
  ++ lit "', 'price':'" ++ price
  ++ lit "', 'exchange':'bitfinex', 'side':'" ++ direction
  ++ lit "', 'type':'limit'".

Definition is_digit (c : ascii) : bool :=
  match digit_of c with
  | Some _ => true
  | None => false
  end.

(** The decimal digits of a rendered number that stand before its exponent
    part. *)
Fixpoint count_digits (s : string) : nat :=
  match s with
  | EmptyString => 0
  | String c r =>
      if Ascii.eqb c "e"%char then 0
      else ((if is_digit c then 1 else 0) + count_digits r)%nat
  end.

(** Its significant digits: those from the first digit that is not 0 on. *)
Fixpoint sig_digits (s : string) : nat :=
  match s with
  | EmptyString => 0
  | String c r =>
      if Ascii.eqb c "e"%char then 0
      else if is_digit c && negb (Ascii.eqb c "0"%char) then count_digits s
      else sig_digits r
  end%nat.

(** The text of a header [name ++ value] of a request, if it has one. *)
Fixpoint strip_prefix (name s : string) : option string :=
  match name, s with
  | EmptyString, _ => Some s
  | String a name', String b s' =>
      if Ascii.eqb a b then strip_prefix name' s' else None
  | String _ _, EmptyString => None
  end.

Fixpoint header_value (name : string) (headers : list string)
  : option string :=
  match headers with
  | [] => None
  | h :: rest =>
      match strip_prefix name h with
      | Some v => Some v
      | None => header_value name rest
      end
  end.

(** The signed JSON text that a request carries: its payload header,
    base64-decoded. *)
Definition decoded_payload (q : http_request) : option string :=
  match header_value "X-BFX-PAYLOAD:" (req_headers q) with
  | Some p => base64_decode p
  | None => None
  end.

(** The two members that [authRequest] writes itself. *)
Definition request_member (request : string) : string * json :=
  ("request", JString request).

Definition nonce_member (n : Z) : string * json :=
  ("nonce", JString (to_string n)).

Definition order_world (doc : json) : World :=
  initial_world noon (always doc).

(** *** Nonces *)

(** A reading of the clock that the adapter can meet: a time after the
    epoch, with the microseconds of a [timeval]. *)
Definition in_range (tv : timeval) : Prop :=
  0 <= tv_sec tv < 2 ^ 43 /\ 0 <= tv_usec tv < 1000000.

(** [a] is not later than [b]. *)
Definition tv_le (a b : timeval) : Prop :=
  tv_sec a < tv_sec b \/ (tv_sec a = tv_sec b /\ tv_usec a <= tv_usec b).

(** The three steps of the nonce expression, in units of [2^-1074]:
    [tv_usec * 0.001], the sum with [tv_sec * 1000.0] (which is exact), and
    the sum with 0.5, truncated to an integer. *)
Definition micro_value (tv : timeval) : Z :=
  round64 (tv_usec tv * U * milli) (-2148).

Definition sum_value (tv : timeval) : Z :=
  round64 (tv_sec tv * 1000 * U + micro_value tv) (-1074).

Definition nonce_model (tv : timeval) : Z :=
  round64 (sum_value tv + 2 ^ 1073) (-1074) / U.

(** Successive calls of [authRequest], each on the world the one before
    left, whatever its outcome. *)
Fixpoint run_calls (HMAC_SHA384 : string -> string -> string)
    (params : Parameters) (calls : list (string * string)) (w : World)
  : World :=
  match calls with
  | [] => w
  | (request, options) :: rest =>
      run_calls HMAC_SHA384 params rest
        (snd (authRequest HMAC_SHA384 params request options w))
  end.

(** The clock never goes backward. *)
Definition clock_monotone (clock : nat -> timeval) : Prop :=
  forall i j : nat, (i <= j)%nat -> tv_le (clock i) (clock j).

(** The nonces of [n] readings of the clock, from reading [k] on. *)
Fixpoint nonces_from (clock : nat -> timeval) (k n : nat) : list Z :=
  match n with
  | O => []
  | S n' => nonce_model (clock k) :: nonces_from clock (S k) n'
  end.

(** The requests of successive calls, given their nonces. *)
Fixpoint signed_requests (HMAC_SHA384 : string -> string -> string)
    (params : Parameters) (calls : list (string * string)) (nonces : list Z)
  : list http_request :=
  match calls, nonces with
  | (request, options) :: calls', n :: nonces' =>
      signed_request HMAC_SHA384 params request n options
      :: signed_requests HMAC_SHA384 params calls' nonces'
  | _, _ => []
  end.

(** The nonce that a request carries: the member "nonce" of its decoded
    payload, read as a decimal number. *)
Definition decimal_value (s : string) : option Z :=
  let '(m, n, rest) := read_digits 10 digit_of s 0 0 in
  match rest with
  | EmptyString => if 0 <? n then Some m else None
  | _ => None
  end.

(** The number that decimal digits denote, after [acc]. *)
Fixpoint horner (d : Decimal.uint) (acc : Z) : Z :=
  match d with
  | Decimal.Nil => acc
  | Decimal.D0 l => horner l (acc * 10 + 0)
  | Decimal.D1 l => horner l (acc * 10 + 1)
  | Decimal.D2 l => horner l (acc * 10 + 2)
  | Decimal.D3 l => horner l (acc * 10 + 3)
  | Decimal.D4 l => horner l (acc * 10 + 4)
  | Decimal.D5 l => horner l (acc * 10 + 5)
  | Decimal.D6 l => horner l (acc * 10 + 6)
  | Decimal.D7 l => horner l (acc * 10 + 7)
  | Decimal.D8 l => horner l (acc * 10 + 8)
  | Decimal.D9 l => horner l (acc * 10 + 9)
  end.

(** A call whose payload is a JSON text: a path that needs no escaping, and
    options that are empty or the members of a JSON object. *)
Definition valid_call (call : string * string) : Prop :=
  JsonText.plain (fst call) = true
  /\ (snd call = EmptyString
      \/ exists fields : list (string * json),
           fields <> []
           /\ JsonText.json_loads ("{" ++ snd call ++ "}")
              = Some (JObject fields)).

Definition payload_nonce (q : http_request) : option Z :=
  match decoded_payload q with
  | Some text =>
      match JsonText.json_loads text with
      | Some doc =>
          match json_string_value (json_object_get (Some doc) "nonce") with
          | Some s => decimal_value s
          | None => None
          end
      | None => None
      end
  | None => None
  end.

Definition emitted_nonces (w : World) : list (option Z) :=
  map payload_nonce (wire w).

(** A clock that is set back by one second after its first reading. *)
Definition clock_back : nat -> timeval :=
  fun k =>
    match k with
    | O => {| tv_sec := 1700000000; tv_usec := 0 |}
    | S _ => {| tv_sec := 1699999999; tv_usec := 0 |}
    end.

(** A clock that moves forward, across the end of a second. *)
Definition clock_forward : nat -> timeval :=
  fun k =>
    match k with
    | O => {| tv_sec := 1700000000; tv_usec := 999600 |}
    | S O => {| tv_sec := 1700000001; tv_usec := 100 |}
    | S (S _) => {| tv_sec := 1700000001; tv_usec := 700 |}
    end.

Definition ticker_world (doc : json) : World :=
  initial_world noon (always doc).

Definition balance (type currency amount : string) : json :=
  JObject [("type", JString type); ("currency", JString currency);
           ("amount", JString amount)].

(** *** Members of a document

    [member_of key members v]: [v] is the value of the member named [key]
    of an object with these members, the first one of that name. *)
Inductive member_of (key : string) : list (string * json) -> json -> Prop :=
| member_here (v : json) (rest : list (string * json)) :
    member_of key ((key, v) :: rest) v
| member_later (k : string) (v' : json) (rest : list (string * json))
    (v : json) :
    k <> key -> member_of key rest v -> member_of key ((k, v') :: rest) v.

(** *** Requests and what a call may change *)

(** The request of [getRequest]: a GET of the path, without headers. *)
Definition plain_get (path : string) : http_request :=
  {| req_method := GET; req_url := base_url ++ path; req_headers := [] |}.

(** The world once [q] was sent without a reading of the clock. *)
Definition after_get (q : http_request) (w : World) : World :=
  {| wall_clock := wall_clock w; clock_reads := clock_reads w;
     exchange := exchange w; wire := wire w ++ [q]; logFile := logFile w |}.

(** An operation that touches nothing but the log. *)
Definition logs_only {A} (m : M A) : Prop :=
  forall w : World, exists o : ostream, snd (m w) = set_log o w.

(** What [checkResponse] writes for a document whose member "message" is
    the string [m]. *)
Definition error_logged (m : string) (o : ostream) : ostream :=
  os_write newline
    (os_write m (os_write "<Bitfinex> Error with response: " o)).

(** The options that [isOrderComplete] passes to [authRequest]. *)
Definition status_options (orderId : string) : string :=
  lit "'order_id':" ++ orderId.

(** The members that the options of an order stand for. *)
Definition order_members (direction amount price : string)
  : list (string * json) :=
  [("symbol", JString "btcusd"); ("amount", JString amount);
   ("price", JString price); ("exchange", JString "bitfinex");
   ("side", JString direction); ("type", JString "limit")].

(** [x] is not a number. *)
Definition is_nan (x : float) : Prop := Prim2SF x = S754_nan.

End Spec.

(** ** Properties *)

Module Props.

Import Jansson Libc Binary64 Base64 Env Bitfinex Spec.
Local Open Scope monad_scope.

Section OrderStatus.

Variable HMAC_SHA384 : string -> string -> string.
Variable params : Parameters.

(** C5: [isOrderComplete] called with the sentinel identifier "0" returns
    true and leaves the world as it was: no request is put on the wire, for
    every state of the exchange and every [Parameters]. *)
Theorem isOrderComplete_sentinel :
  forall w : World,
    isOrderComplete HMAC_SHA384 params "0" w = (Returns true, w).
Proof. intro w. reflexivity. Qed.

Lemma assoc_member (key : string) (members : list (string * json))
    (v : json) :
  member_of key members v -> assoc key members = Some v.
Proof.
  induction 1 as [v rest | k v' rest v Hk _ IH]; cbn [assoc].
  - rewrite String.eqb_refl. reflexivity.
  - destruct (String.eqb_spec k key) as [E | _]; [contradiction | exact IH].
Qed.

Lemma assoc_absent (key : string) (members : list (string * json)) :
  ~ In key (map fst members) -> assoc key members = None.
Proof.
  induction members as [| [k v] rest IH]; intro H; [reflexivity |].
  cbn [assoc]. cbn [map fst In] in H.
  destruct (String.eqb_spec k key) as [E | _].
  - exfalso. apply H. left. exact E.
  - apply IH. intro Hin. apply H. right. exact Hin.
Qed.

(** C6: for an identifier other than the sentinel, [isOrderComplete] returns
    true exactly when the member "is_live" of the status response is the JSON
    value false: it returns true when the response is an object whose member
    "is_live" is false, and false when that member has any other value, when
    the object has no such member, and when the response is not an object.
    The world is the one the request left. *)
Theorem isOrderComplete_is_live :
  forall (orderId : string) (w w' : World) (root : json_ptr),
    orderId <> "0" ->
    authRequest HMAC_SHA384 params "/v1/order/status"
      (lit "'order_id':" ++ orderId) w = (Returns root, w') ->
    (forall members : list (string * json),
        root = Some (JObject members) ->
        (member_of "is_live" members JFalse ->
         isOrderComplete HMAC_SHA384 params orderId w = (Returns true, w'))
        /\ (forall v : json,
               member_of "is_live" members v -> v <> JFalse ->
               isOrderComplete HMAC_SHA384 params orderId w
               = (Returns false, w'))
        /\ (~ In "is_live" (map fst members) ->
            isOrderComplete HMAC_SHA384 params orderId w
            = (Returns false, w')))
    /\ ((forall members : list (string * json),
            root <> Some (JObject members)) ->
        isOrderComplete HMAC_SHA384 params orderId w = (Returns false, w')).
Proof.
  intros orderId w w' root Hid Hreq.
  assert (Hrun : isOrderComplete HMAC_SHA384 params orderId w
                 = (Returns (json_is_false (json_object_get root "is_live")),
                    w')).
  { unfold isOrderComplete.
    destruct (String.eqb_spec orderId "0") as [E | _]; [contradiction |].
    unfold bind. rewrite Hreq. reflexivity. }
  rewrite Hrun. split.
  - intros members ->. cbn [json_object_get]. split; [| split].
    + intro Hm. rewrite (assoc_member _ _ _ Hm). reflexivity.
    + intros v Hm Hv. rewrite (assoc_member _ _ _ Hm).
      destruct v; try reflexivity. contradiction Hv. reflexivity.
    + intro Hno. rewrite (assoc_absent _ _ Hno). reflexivity.
  - intro Hroot. destruct root as [[members | | | | | | |] |];
      try reflexivity.
    contradiction (Hroot members). reflexivity.
Qed.

End OrderStatus.

Lemma isOrderComplete_is_live_witness :
  fst (isOrderComplete no_hmac demo_params "42"
         (order_world (JObject [("id", JInteger 42); ("is_live", JFalse)])))
  = Returns true
  /\ fst (isOrderComplete no_hmac demo_params "42"
            (order_world (JObject [("id", JInteger 42); ("is_live", JTrue)])))
     = Returns false
  /\ fst (isOrderComplete no_hmac demo_params "42"
            (order_world (JObject [("is_live", JString "false")])))
     = Returns false
  /\ fst (isOrderComplete no_hmac demo_params "42"
            (order_world (JObject [("id", JInteger 42)])))
     = Returns false
  /\ fst (isOrderComplete no_hmac demo_params "42"
            (order_world (JArray [JFalse])))
     = Returns false.
Proof.
  assert (Hid : "42" <> "0") by discriminate.
  split; [| split; [| split; [| split]]].
  - rewrite (proj1
               (proj1
                  (isOrderComplete_is_live no_hmac demo_params "42"
                     (order_world
                        (JObject [("id", JInteger 42); ("is_live", JFalse)]))
                     _ _ Hid eq_refl)
                  _ eq_refl)).
    + reflexivity.
    + apply member_later; [discriminate | apply member_here].
  - rewrite (proj1
               (proj2
                  (proj1
                     (isOrderComplete_is_live no_hmac demo_params "42"
                        (order_world
                           (JObject [("id", JInteger 42);
                                     ("is_live", JTrue)]))
                        _ _ Hid eq_refl)
                     _ eq_refl)) JTrue).
    + reflexivity.
    + apply member_later; [discriminate | apply member_here].
    + discriminate.
  - rewrite (proj1
               (proj2
                  (proj1
                     (isOrderComplete_is_live no_hmac demo_params "42"
                        (order_world (JObject [("is_live", JString "false")]))
                        _ _ Hid eq_refl)
                     _ eq_refl)) (JString "false")).
    + reflexivity.
    + apply member_here.
    + discriminate.
  - rewrite (proj2
               (proj2
                  (proj1
                     (isOrderComplete_is_live no_hmac demo_params "42"
                        (order_world (JObject [("id", JInteger 42)]))
                        _ _ Hid eq_refl)
                     _ eq_refl))).
    + reflexivity.
    + intros [E | []]. discriminate E.
  - rewrite (proj2
               (isOrderComplete_is_live no_hmac demo_params "42"
                  (order_world (JArray [JFalse])) _ _ Hid eq_refl)).
    + reflexivity.
    + intros members E. discriminate E.
Defined.

(** *** The depth-weighted limit price *)

Section LimitPrice.

Variable HMAC_SHA384 : string -> string -> string.
Variable params : Parameters.
Variable volume : float.

Lemma skipn_cons_nth {A} (l : list A) (i : nat) (x : A) (rest : list A) :
  skipn i l = x :: rest -> nth_error l i = Some x /\ skipn (S i) l = rest.
Proof.
  revert l. induction i as [| i IH]; intros [| y l] H; simpl in *;
    try discriminate.
  - injection H as -> ->. auto.
  - apply IH in H. exact H.
Qed.

Lemma getLimitPrice_loop_walk :
  forall (levels : list json) (lv : list (float * float)) (i : nat)
         (tmpVol p : float) (w : World),
    book_levels (skipn i levels) = Some lv ->
    fst (getLimitPrice_loop params (Some (JArray levels)) volume
           (List.length lv) i tmpVol p w)
    = Returns (walk params volume lv tmpVol p).
Proof.
  intros levels lv. induction lv as [| [p' v] lv IH];
    intros i tmpVol p w H.
  - reflexivity.
  - destruct (skipn i levels) as [| l rest] eqn:E; simpl in H;
      [discriminate |].
    destruct (level_fields l) as [pv |] eqn:El; [| discriminate].
    destruct (book_levels rest) as [lv' |] eqn:Er; [| discriminate].
    injection H as -> ->.
    apply skipn_cons_nth in E as [En Es].
    unfold level_fields in El.
    destruct (json_string_value (json_object_get (Some l) "price"))
      as [sp |] eqn:Ep; [| discriminate].
    destruct (json_string_value (json_object_get (Some l) "amount"))
      as [sv |] eqn:Ev; [| discriminate].
    injection El as <- <-.
    simpl getLimitPrice_loop. unfold json_array_get. rewrite En.
    unfold bind. rewrite Ep, Ev. simpl.
    unfold reaches.
    destruct (abs volume * orderBookFactor params <=? tmpVol + atof sv)%float.
    + reflexivity.
    + apply IH. rewrite Es. exact Er.
Qed.

Lemma getLimitPrice_walk :
  forall (isBid : bool) (w w1 : World) (root : json_ptr)
         (levels : list json) (lv : list (float * float)),
    getRequest "/v1/book/btcusd" w = (Returns root, w1) ->
    json_object_get root (book_side isBid) = Some (JArray levels) ->
    book_levels levels = Some lv ->
    fst (getLimitPrice params volume isBid w)
    = Returns (walk params volume lv 0%float 0%float).
Proof.
  intros isBid w w1 root levels lv Hreq Hside Hlv.
  unfold getLimitPrice, bind. rewrite Hreq.
  fold (book_side isBid). rewrite Hside. simpl log.
  assert (Hn : json_array_size (Some (JArray levels)) = List.length lv).
  { simpl. clear - Hlv. revert lv Hlv.
    induction levels as [| l levels IH]; intros lv H; simpl in H.
    - injection H as <-. reflexivity.
    - destruct (level_fields l); [| discriminate].
      destruct (book_levels levels); [| discriminate].
      injection H as <-. simpl. f_equal. apply IH. reflexivity. }
  rewrite Hn. apply getLimitPrice_loop_walk. exact Hlv.
Qed.

Lemma walk_first_reached :
  forall (lv : list (float * float)) (i : nat) (acc p0 p v : float),
    nth_error lv i = Some (p, v) ->
    reaches params volume (cum_from acc lv i) = true ->
    (forall j, (j < i)%nat -> reaches params volume (cum_from acc lv j) = false) ->
    walk params volume lv acc p0 = p.
Proof.
  induction lv as [| [p' v'] lv IH]; intros i acc p0 p v Hn Hr Hb.
  - destruct i; discriminate.
  - destruct i as [| i]; simpl.
    + injection Hn as -> ->. unfold cum_from in Hr. simpl in Hr.
      rewrite Hr. reflexivity.
    + assert (H0 := Hb 0%nat (Nat.lt_0_succ i)).
      unfold cum_from in H0. simpl in H0. rewrite H0.
      apply (IH i _ _ p v).
      * exact Hn.
      * exact Hr.
      * intros j Hj. apply (Hb (S j)). lia.
Qed.

Lemma last_cons_default {A} (l : list A) (a d d' : A) :
  last (a :: l) d = last (a :: l) d'.
Proof.
  revert a. induction l as [| b l IH]; intro a; [reflexivity |].
  change (last (b :: l) d = last (b :: l) d'). apply IH.
Qed.

Lemma walk_exhausted :
  forall (lv : list (float * float)) (acc p0 : float),
    (forall j, (j < List.length lv)%nat ->
               reaches params volume (cum_from acc lv j) = false) ->
    walk params volume lv acc p0 = last (map fst lv) p0.
Proof.
  induction lv as [| [p' v'] lv IH]; intros acc p0 Hb.
  - reflexivity.
  - simpl walk.
    assert (H0 := Hb 0%nat (Nat.lt_0_succ _)).
    unfold cum_from in H0. simpl in H0. rewrite H0.
    rewrite IH.
    + destruct lv as [| x lv]; [reflexivity |].
      change (last (map fst (x :: lv)) p' = last (map fst (x :: lv)) p0).
      apply last_cons_default.
    + intros j Hj. apply (Hb (S j)). simpl. lia.
Qed.

(** C1: when the book side is a list of levels and level [i] is the first
    at which the accumulated volume reaches [|volume| * orderBookFactor],
    [getLimitPrice] returns the price of level [i]; on the book
    [(100, 1.0), (99, 2.0), (98, 5.0)] with volume 2.5 and factor 1.0 it
    returns 99. *)
Theorem getLimitPrice_first_level :
  (forall (isBid : bool) (w w1 : World) (root : json_ptr)
          (levels : list json) (lv : list (float * float))
          (i : nat) (p v : float),
      getRequest "/v1/book/btcusd" w = (Returns root, w1) ->
      json_object_get root (book_side isBid) = Some (JArray levels) ->
      book_levels levels = Some lv ->
      nth_error lv i = Some (p, v) ->
      reaches params volume (cum_volume lv i) = true ->
      (forall j, (j < i)%nat ->
                 reaches params volume (cum_volume lv j) = false) ->
      fst (getLimitPrice params volume isBid w) = Returns p)
  /\
  (forall (isBid : bool) (w w1 : World),
      orderBookFactor params = 1%float ->
      volume = 2.5%float ->
      getRequest "/v1/book/btcusd" w = (Returns (Some demo_book), w1) ->
      fst (getLimitPrice params volume isBid w) = Returns 99%float).
Proof.
  split.
  - intros isBid w w1 root levels lv i p v Hreq Hside Hlv Hn Hr Hb.
    rewrite (getLimitPrice_walk isBid w w1 root levels lv Hreq Hside Hlv).
    f_equal. apply (walk_first_reached lv i _ _ p v Hn Hr Hb).
  - intros isBid w w1 Hf Hv Hreq.
    rewrite (getLimitPrice_walk isBid w w1 (Some demo_book) demo_levels
               [(100, 1); (99, 2); (98, 5)]%float Hreq).
    + unfold walk, reaches. rewrite Hf, Hv. vm_compute. reflexivity.
    + destruct isBid; reflexivity.
    + vm_compute. reflexivity.
Qed.

(** C8: when the levels run out before the accumulated volume reaches
    [|volume| * orderBookFactor], [getLimitPrice] returns the price of the
    last level; when the book side is empty it returns 0.0. *)
Theorem getLimitPrice_exhausted :
  forall (isBid : bool) (w w1 : World) (root : json_ptr),
    getRequest "/v1/book/btcusd" w = (Returns root, w1) ->
    (forall (levels : list json) (lv : list (float * float)),
        json_object_get root (book_side isBid) = Some (JArray levels) ->
        book_levels levels = Some lv ->
        (forall j, (j < List.length lv)%nat ->
                   reaches params volume (cum_volume lv j) = false) ->
        fst (getLimitPrice params volume isBid w)
        = Returns (last (map fst lv) 0%float))
    /\
    (json_array_size (json_object_get root (book_side isBid)) = 0%nat ->
     fst (getLimitPrice params volume isBid w) = Returns 0%float).
Proof.
  intros isBid w w1 root Hreq. split.
  - intros levels lv Hside Hlv Hb.
    rewrite (getLimitPrice_walk isBid w w1 root levels lv Hreq Hside Hlv).
    f_equal. apply walk_exhausted. exact Hb.
  - intro H0. unfold getLimitPrice, bind. rewrite Hreq.
    fold (book_side isBid). simpl log. rewrite H0. reflexivity.
Qed.

End LimitPrice.

Lemma getLimitPrice_first_level_witness :
  fst (getLimitPrice demo_params 2.5%float true book_world)
  = Returns 99%float
  /\ fst (getLimitPrice demo_params 2.5%float false book_world)
     = Returns 99%float.
Proof.
  destruct (getLimitPrice_first_level demo_params 2.5%float) as [H1 H2].
  split.
  - apply (H1 true book_world
              (snd (getRequest "/v1/book/btcusd" book_world))
              (Some demo_book) demo_levels
              [(100, 1); (99, 2); (98, 5)]%float 1%nat 99%float 2%float);
      try (vm_compute; reflexivity).
    intros [| j] Hj; [vm_compute; reflexivity | lia].
  - apply (H2 false book_world
              (snd (getRequest "/v1/book/btcusd" book_world)));
      vm_compute; reflexivity.
Defined.

Lemma getLimitPrice_exhausted_witness :
  fst (getLimitPrice demo_params 100%float true book_world)
  = Returns 98%float
  /\ fst (getLimitPrice demo_params 100%float true
            (initial_world noon (always (JObject []))))
     = Returns 0%float.
Proof.
  split.
  - apply (proj1 (getLimitPrice_exhausted demo_params 100%float true
                    book_world
                    (snd (getRequest "/v1/book/btcusd" book_world))
                    (Some demo_book) eq_refl)
             demo_levels [(100, 1); (99, 2); (98, 5)]%float);
      try (vm_compute; reflexivity).
    intros [| [| [| j]]] Hj; vm_compute; reflexivity.
  - apply (proj2 (getLimitPrice_exhausted demo_params 100%float true
                    (initial_world noon (always (JObject [])))
                    (snd (getRequest "/v1/book/btcusd"
                            (initial_world noon (always (JObject [])))))
                    (Some (JObject [])) eq_refl)).
    reflexivity.
Defined.

(** *** Balances *)

Section Balances.

Variable HMAC_SHA384 : string -> string -> string.
Variable params : Parameters.

Lemma stod_run (s : string) (w : World) :
  stod s w = (stod_outcome s, w).
Proof.
  unfold stod, stod_outcome.
  destruct (strtod s) as [| v [|]]; reflexivity.
Qed.

Lemma getAvail_loop_scan :
  forall (entries : list json) (currency : string) (i : nat) (w : World),
    (i <= List.length entries)%nat ->
    fst (getAvail_loop (Some (JArray entries)) currency i w)
    = avail_scan currency (rev (firstn i entries)).
Proof.
  intros entries currency. induction i as [| i IH]; intros w Hi.
  - reflexivity.
  - destruct (nth_error entries i) as [e |] eqn:En.
    2:{ apply nth_error_None in En. lia. }
    assert (Hf : firstn (S i) entries = (firstn i entries ++ [e])%list).
    { clear - En. revert i En.
      induction entries as [| x l IHl]; intros [| i] En; simpl in *;
        try discriminate.
      - injection En as ->. reflexivity.
      - f_equal. apply IHl. exact En. }
    rewrite Hf, rev_app_distr. simpl rev. simpl app.
    simpl getAvail_loop. unfold json_array_get. rewrite En.
    simpl avail_scan. unfold entry_fields.
    destruct (json_unpack_sss (Some e) "type" "currency" "amount")
      as [err | [[t c] a]].
    + unfold bind. simpl. apply IH. lia.
    + destruct (String.eqb t "trading" && String.eqb c currency).
      * rewrite stod_run. reflexivity.
      * apply IH. lia.
Qed.

Lemma getAvail_scan :
  forall (currency : string) (w w1 : World) (entries : list json),
    authRequest HMAC_SHA384 params "/v1/balances" EmptyString w
    = (Returns (Some (JArray entries)), w1) ->
    fst (getAvail HMAC_SHA384 params currency w)
    = avail_scan currency (rev entries).
Proof.
  intros currency w w1 entries Hreq.
  unfold getAvail, bind. rewrite Hreq. simpl json_array_size.
  rewrite getAvail_loop_scan by lia.
  rewrite firstn_all. reflexivity.
Qed.






Lemma avail_scan_last_match :
  forall (currency amount : string) (before after : list json) (e : json),
    entry_fields e = inr ("trading", currency, amount) ->
    (forall x, In x after -> entry_matches currency x = false) ->
    avail_scan currency (rev (before ++ e :: after)) = stod_outcome amount.
Proof.
  intros currency amount before after e He Hafter.
  rewrite rev_app_distr. simpl rev. rewrite <- app_assoc. simpl app.
  assert (Hr : forall x, In x (rev after) ->
                         entry_matches currency x = false).
  { intros x Hx. apply Hafter. apply In_rev. exact Hx. }
  clear Hafter. induction (rev after) as [| x l IH]; simpl.
  - rewrite He, !String.eqb_refl. reflexivity.
  - assert (Hx := Hr x (or_introl eq_refl)). unfold entry_matches in Hx.
    destruct (entry_fields x) as [err | [[t c] a]].
    + apply IH. intros y Hy. apply Hr. right. exact Hy.
    + rewrite Hx. apply IH. intros y Hy. apply Hr. right. exact Hy.
Qed.

(** C9: when the balance list is [before ++ e :: after], [e] unpacks with
    type "trading" and the requested currency, and no entry of [after] does,
    [getAvail] ends as [std::stod] does on the amount of [e], whatever
    [before] holds: the array is scanned from its last index down and the
    scan stops at the first match.  When the amount converts, its value is
    returned. *)
Theorem getAvail_last_match :
  forall (currency amount : string) (w w1 : World)
         (before after : list json) (e : json),
    authRequest HMAC_SHA384 params "/v1/balances" EmptyString w
    = (Returns (Some (JArray (before ++ e :: after)%list)), w1) ->
    entry_fields e = inr ("trading", currency, amount) ->
    (forall x, In x after -> entry_matches currency x = false) ->
    fst (getAvail HMAC_SHA384 params currency w) = stod_outcome amount
    /\ (forall v, strtod amount = Converted v false ->
                  fst (getAvail HMAC_SHA384 params currency w) = Returns v).
Proof.
  intros currency amount w w1 before after e Hreq He Hafter.
  assert (Hscan : fst (getAvail HMAC_SHA384 params currency w)
                  = stod_outcome amount).
  { rewrite (getAvail_scan currency w w1 _ Hreq).
    apply avail_scan_last_match; assumption. }
  split; [exact Hscan |].
  intros v Hv. rewrite Hscan. unfold stod_outcome. rewrite Hv. reflexivity.
Qed.

End Balances.


Lemma getAvail_last_match_witness :
  fst (getAvail no_hmac demo_params "btc"
         (balances_world [balance "trading" "btc" "1.5";
                          balance "trading" "btc" "2.5";
                          balance "deposit" "btc" "7"]))
  = Returns 2.5%float.
Proof.
  refine (proj2 (getAvail_last_match no_hmac demo_params "btc" "2.5"
                   (balances_world [balance "trading" "btc" "1.5";
                                    balance "trading" "btc" "2.5";
                                    balance "deposit" "btc" "7"])
                   _ [balance "trading" "btc" "1.5"]
                   [balance "deposit" "btc" "7"]
                   (balance "trading" "btc" "2.5") eq_refl eq_refl _) _ _).
  - intros x [<- | []]. reflexivity.
  - vm_compute. reflexivity.
Defined.

(** *** Quotes and conversion failures *)

Section Quotes.

Variable HMAC_SHA384 : string -> string -> string.
Variable params : Parameters.

Lemma authRequest_run :
  forall (request options : string) (w : World) (n : Z),
    nonce_of (wall_clock w (clock_reads w)) = Some n ->
    authRequest HMAC_SHA384 params request options w
    = let q := signed_request HMAC_SHA384 params request n options in
      match exchange w (wire w) q with
      | Reply root => checkResponse (Some root) (after_request q w)
      | TransportFailure => (Throws transport_error, after_request q w)
      end.
Proof.
  intros request options w n Hn.
  unfold authRequest, bind, gettimeofday. rewrite Hn.
  unfold postRequest, perform. simpl.
  unfold signed_request, after_request.
  destruct (exchange w (wire w) _); reflexivity.
Qed.

Lemma getQuote_run :
  forall (w w1 : World) (root : json_ptr),
    getRequest "/v1/ticker/btcusd" w = (Returns root, w1) ->
    getQuote params w
    = (match side_value (json_object_get root "bid") with
       | Returns b =>
           match side_value (json_object_get root "ask") with
           | Returns a => Returns (b, a)
           | Throws e => Throws e
           | Undefined => Undefined
           end
       | Throws e => Throws e
       | Undefined => Undefined
       end, w1).
Proof.
  intros w w1 root Hreq. unfold getQuote, bind. rewrite Hreq.
  unfold side_value. cbv zeta.
  destruct (json_string_value (json_object_get root "bid")) as [sb |];
    [rewrite stod_run; destruct (stod_outcome sb) | unfold ret at 1];
    cbv beta iota; try reflexivity;
    (destruct (json_string_value (json_object_get root "ask")) as [sa |];
     [rewrite stod_run; destruct (stod_outcome sa) |]; reflexivity).
Qed.

(** C3, as the code has it: [getQuote] gives 0.0 for a side whose member is
    absent or is not a JSON string; when the member is a string in which
    [strtod] converts nothing, the [invalid_argument] of [std::stod] leaves
    [getQuote], and it leaves [getAvail] when the amount of the matched entry
    is such a string. *)
Theorem conversion_failures :
  (forall (w w1 : World) (root : json_ptr),
      getRequest "/v1/ticker/btcusd" w = (Returns root, w1) ->
      (forall a,
          json_string_value (json_object_get root "bid") = None ->
          side_value (json_object_get root "ask") = Returns a ->
          fst (getQuote params w) = Returns (0%float, a))
      /\ (forall b,
             side_value (json_object_get root "bid") = Returns b ->
             json_string_value (json_object_get root "ask") = None ->
             fst (getQuote params w) = Returns (b, 0%float))
      /\ (forall s,
             json_string_value (json_object_get root "bid") = Some s ->
             strtod s = NoConversion ->
             fst (getQuote params w) = Throws (invalid_argument "stod"))
      /\ (forall b s,
             side_value (json_object_get root "bid") = Returns b ->
             json_string_value (json_object_get root "ask") = Some s ->
             strtod s = NoConversion ->
             fst (getQuote params w) = Throws (invalid_argument "stod")))
  /\
  (forall (currency amount : string) (w w1 : World)
          (before after : list json) (e : json),
      authRequest HMAC_SHA384 params "/v1/balances" EmptyString w
      = (Returns (Some (JArray (before ++ e :: after)%list)), w1) ->
      entry_fields e = inr ("trading", currency, amount) ->
      (forall x, In x after -> entry_matches currency x = false) ->
      strtod amount = NoConversion ->
      fst (getAvail HMAC_SHA384 params currency w)
      = Throws (invalid_argument "stod")).
Proof.
  split.
  - intros w w1 root Hreq.
    rewrite (getQuote_run w w1 root Hreq). simpl fst.
    repeat split.
    + intros a Hb Ha. unfold side_value at 1. rewrite Hb, Ha. reflexivity.
    + intros b Hb Ha. rewrite Hb. unfold side_value. rewrite Ha. reflexivity.
    + intros s Hb Hs. unfold side_value at 1, stod_outcome.
      rewrite Hb, Hs. reflexivity.
    + intros b s Hb Ha Hs. rewrite Hb. unfold side_value, stod_outcome.
      rewrite Ha, Hs. reflexivity.
  - intros currency amount w w1 before after e Hreq He Hafter Hs.
    rewrite (getAvail_scan HMAC_SHA384 params currency w w1 _ Hreq).
    rewrite (avail_scan_last_match currency amount before after e He Hafter).
    unfold stod_outcome. rewrite Hs. reflexivity.
Qed.

End Quotes.

(** C3 fails as stated: with the bid "abc", which is not a number,
    [getQuote] does not return 0.0 for that side but ends with the
    [invalid_argument] of [std::stod]; so does [getAvail] when the amount of
    the matched entry is "n/a". *)
Lemma non_numeric_strings_raise :
  fst (getQuote demo_params
         (ticker_world (ticker (JString "abc") (JString "101.5"))))
  = Throws (invalid_argument "stod")
  /\ fst (getAvail no_hmac demo_params "btc"
            (balances_world [balance "trading" "btc" "n/a"]))
     = Throws (invalid_argument "stod").
Proof. split; vm_compute; reflexivity. Qed.

Lemma conversion_failures_witness :
  fst (getQuote demo_params
         (ticker_world (JObject [("ask", JString "101.5")])))
  = Returns (0%float, 101.5%float)
  /\ fst (getQuote demo_params
            (ticker_world (ticker (JString "100.25") (JInteger 7))))
     = Returns (100.25%float, 0%float)
  /\ fst (getQuote demo_params
            (ticker_world (ticker (JString "abc") (JString "101.5"))))
     = Throws (invalid_argument "stod")
  /\ fst (getQuote demo_params
            (ticker_world (ticker (JString "100.25") (JString "-"))))
     = Throws (invalid_argument "stod")
  /\ fst (getAvail no_hmac demo_params "btc"
            (balances_world [balance "trading" "btc" "n/a";
                             balance "trading" "usd" "3"]))
     = Throws (invalid_argument "stod").
Proof.
  destruct (conversion_failures no_hmac demo_params) as [HQ HA].
  split; [| split; [| split; [| split]]].
  - refine (proj1 (HQ (ticker_world (JObject [("ask", JString "101.5")]))
                      _ _ eq_refl) _ _ _); vm_compute; reflexivity.
  - refine (proj1 (proj2 (HQ (ticker_world
                                (ticker (JString "100.25") (JInteger 7)))
                             _ _ eq_refl)) _ _ _); vm_compute; reflexivity.
  - refine (proj1 (proj2 (proj2 (HQ (ticker_world
                                       (ticker (JString "abc")
                                          (JString "101.5")))
                                    _ _ eq_refl))) "abc" _ _);
      vm_compute; reflexivity.
  - refine (proj2 (proj2 (proj2 (HQ (ticker_world
                                       (ticker (JString "100.25")
                                          (JString "-")))
                                    _ _ eq_refl))) 100.25%float "-" _ _ _);
      vm_compute; reflexivity.
  - refine (HA "btc" "n/a"
              (balances_world [balance "trading" "btc" "n/a";
                               balance "trading" "usd" "3"])
              _ [] [balance "trading" "usd" "3"]
              (balance "trading" "btc" "n/a") eq_refl eq_refl _ _).
    + intros x [<- | []]. reflexivity.
    + vm_compute. reflexivity.
Defined.

(** *** Orders *)

Section Orders.

Variable HMAC_SHA384 : string -> string -> string.
Variable params : Parameters.

Lemma checkResponse_run (root : json_ptr) (w : World) :
  exists o : ostream, checkResponse root w = (Returns root, set_log o w).
Proof.
  unfold checkResponse.
  destruct (json_object_get root "message").
  - eexists. reflexivity.
  - exists (logFile w). destruct w. reflexivity.
Qed.

Lemma sig_le_count (s : string) : (sig_digits s <= count_digits s)%nat.
Proof.
  induction s as [| c r IH]; simpl; [lia |].
  destruct (Ascii.eqb c "e"); [lia |].
  destruct (is_digit c && negb (Ascii.eqb c "0")); lia.
Qed.

Lemma count_le_length (s : string) : (count_digits s <= String.length s)%nat.
Proof.
  induction s as [| c r IH]; simpl; [lia |].
  destruct (Ascii.eqb c "e"); [lia |]. destruct (is_digit c); lia.
Qed.

Lemma count_strip (s : string) :
  (count_digits (strip_zeros s) <= count_digits s)%nat.
Proof.
  induction s as [| c r IH]; simpl; [lia |].
  destruct (strip_zeros r) as [| c' r'] eqn:E.
  - destruct (Ascii.eqb c "0") eqn:E0; simpl; [lia |].
    destruct (Ascii.eqb c "e"); [lia |]. destruct (is_digit c); lia.
  - change (count_digits (String c (String c' r')))
      with (if Ascii.eqb c "e" then 0%nat
            else ((if is_digit c then 1 else 0)
                  + count_digits (String c' r'))%nat).
    destruct (Ascii.eqb c "e"); [lia |]. destruct (is_digit c); lia.
Qed.

Lemma count_app (a b : string) :
  (count_digits (a ++ b) <= count_digits a + count_digits b)%nat.
Proof.
  induction a as [| c r IH]; simpl; [lia |].
  destruct (Ascii.eqb c "e"); [lia |]. destruct (is_digit c); lia.
Qed.

Lemma count_before_exponent (a b : string) :
  (count_digits (a ++ String "e" b) <= count_digits a)%nat.
Proof.
  induction a as [| c r IH]; simpl; [lia |].
  destruct (Ascii.eqb c "e"); [lia |]. destruct (is_digit c); lia.
Qed.

Lemma count_with_fraction (ip fp : string) :
  (count_digits (with_fraction ip fp) <= count_digits ip + count_digits fp)%nat.
Proof.
  unfold with_fraction. assert (H := count_strip fp).
  destruct (strip_zeros fp) as [| c r]; [lia |].
  eapply Nat.le_trans; [apply count_app |].
  change (count_digits ("." ++ String c r))
    with (count_digits (String c r)). lia.
Qed.

Lemma length_substring (n m : nat) (s : string) :
  (String.length (substring n m s) <= m)%nat
  /\ (String.length (substring n m s) <= String.length s - n)%nat.
Proof.
  revert n m. induction s as [| c r IH]; intros [| n] [| m]; simpl;
    try lia.
  - destruct (IH 0%nat m). lia.
  - apply IH.
  - apply IH.
Qed.

Lemma strip_leading_zeros (n : nat) (s : string) :
  strip_zeros (zeros n ++ s) = EmptyString
  \/ strip_zeros (zeros n ++ s) = zeros n ++ strip_zeros s.
Proof.
  induction n as [| n IH]; [right; reflexivity |].
  simpl. destruct IH as [-> | ->]; [left; reflexivity |].
  destruct (zeros n ++ strip_zeros s); [left | right]; reflexivity.
Qed.

Lemma sig_leading_zeros (n : nat) (s : string) :
  sig_digits (zeros n ++ s) = sig_digits s.
Proof. induction n as [| n IH]; [reflexivity | exact IH]. Qed.

Lemma count_digits6 (D : Z) : (count_digits (digits6 D) <= 6)%nat.
Proof. apply (count_le_length (digits6 D)). Qed.

Lemma sig_fixed (D X : Z) : (sig_digits (fixed_repr D X) <= 6)%nat.
Proof.
  unfold fixed_repr. destruct (0 <=? X).
  - eapply Nat.le_trans; [apply sig_le_count |].
    eapply Nat.le_trans; [apply count_with_fraction |].
    set (k := Z.to_nat (X + 1)).
    assert (H1 := count_le_length (substring 0 k (digits6 D))).
    assert (H2 := count_le_length (substring k (6 - k) (digits6 D))).
    destruct (length_substring 0 k (digits6 D)) as [Ha Hb].
    destruct (length_substring k (6 - k) (digits6 D)) as [Hc Hd].
    change (String.length (digits6 D)) with 6%nat in Hb, Hd. lia.
  - unfold with_fraction.
    destruct (strip_leading_zeros (Z.to_nat (- X - 1)) (digits6 D))
      as [-> | ->]; [simpl; lia |].
    destruct (zeros (Z.to_nat (- X - 1)) ++ strip_zeros (digits6 D))
      as [| c r] eqn:E; [simpl; lia |].
    change (sig_digits ("0" ++ "." ++ String c r))
      with (sig_digits (String c r)).
    rewrite <- E, sig_leading_zeros.
    eapply Nat.le_trans; [apply sig_le_count |].
    eapply Nat.le_trans; [apply count_strip |]. apply count_digits6.
Qed.

Lemma sig_sci (D X : Z) : (sig_digits (sci_repr D X) <= 6)%nat.
Proof.
  unfold sci_repr.
  eapply Nat.le_trans; [apply sig_le_count |].
  change (?a ++ "e" ++ ?b) with (a ++ String "e" b).
  eapply Nat.le_trans; [apply count_before_exponent |].
  eapply Nat.le_trans; [apply count_with_fraction |].
  assert (H1 := count_le_length (substring 0 1 (digits6 D))).
  assert (H2 := count_le_length (substring 1 5 (digits6 D))).
  destruct (length_substring 0 1 (digits6 D)) as [Ha _].
  destruct (length_substring 1 5 (digits6 D)) as [Hc _]. lia.
Qed.

Lemma sig_ostream_double (d : float) :
  (sig_digits (ostream_double d) <= 6)%nat.
Proof.
  unfold ostream_double.
  destruct (Prim2SF d) as [s | s | | s m e].
  - destruct s; simpl; lia.
  - destruct s; simpl; lia.
  - simpl; lia.
  - destruct (sci6 m e) as [D X].
    assert (H : (sig_digits (if ((-4 <=? X) && (X <? 6))%Z
                             then fixed_repr D X
                             else sci_repr D X) <= 6)%nat).
    { destruct ((-4 <=? X) && (X <? 6)); [apply sig_fixed | apply sig_sci]. }
    destruct s; exact H.
Qed.

(** C10: [sendOrder] writes the quantity and the price into the options of
    the order as the stream renders them, with at most 6 significant digits
    ([12345.678] becomes "12345.7"); the request sent carries these options;
    the identifier returned is the integer member "order_id" of the response
    in decimal, and "0" when the response has no such member. *)
Theorem sendOrder_rendering :
  (forall d : float, (sig_digits (ostream_double d) <= 6)%nat)
  /\ ostream_double 12345.678%float = "12345.7"
  /\ (forall (direction : string) (quantity price : float) (w : World)
             (n : Z) (root : json),
         nonce_of (wall_clock w (clock_reads w)) = Some n ->
         exchange w (wire w)
           (signed_request HMAC_SHA384 params "/v1/order/new" n
              (order_options direction (ostream_double quantity)
                 (ostream_double price))) = Reply root ->
         fst (sendOrder HMAC_SHA384 params direction quantity price w)
         = Returns (to_string
                      (json_integer_value
                         (json_object_get (Some root) "order_id")))
         /\ wire (snd (sendOrder HMAC_SHA384 params direction quantity
                         price w))
            = (wire w
               ++ [signed_request HMAC_SHA384 params "/v1/order/new" n
                     (order_options direction (ostream_double quantity)
                        (ostream_double price))])%list
         /\ (json_object_get (Some root) "order_id" = None ->
             fst (sendOrder HMAC_SHA384 params direction quantity price w)
             = Returns "0")).
Proof.
  split; [exact sig_ostream_double |].
  split; [vm_compute; reflexivity |].
  intros direction quantity price w n root Hn Hreply.
  assert (Hrun : exists o1 : ostream,
             sendOrder HMAC_SHA384 params direction quantity price w
             = (Returns (to_string
                           (json_integer_value
                              (json_object_get (Some root) "order_id"))),
                set_log o1
                  (after_request
                     (signed_request HMAC_SHA384 params "/v1/order/new" n
                        (order_options direction (ostream_double quantity)
                           (ostream_double price))) w))).
  { unfold sendOrder. unfold bind at 1. unfold log at 1. cbv beta iota.
    unfold bind at 1. fold (order_options direction (ostream_double quantity)
                              (ostream_double price)).
    rewrite (authRequest_run HMAC_SHA384 params _ _ _ n) by exact Hn.
    cbv zeta. simpl exchange. simpl wire. rewrite Hreply.
    match goal with
    | |- context [checkResponse ?r ?w0] =>
        destruct (checkResponse_run r w0) as [o Ho]; rewrite Ho
    end.
    cbv beta iota. unfold bind, log, ret. cbv beta iota.
    eexists. reflexivity. }
  destruct Hrun as [o1 Hrun]. rewrite Hrun. cbn [fst snd].
  split; [reflexivity |]. split; [reflexivity |].
  intros ->. reflexivity.
Qed.

End Orders.

Lemma sendOrder_rendering_witness :
  fst (sendOrder no_hmac demo_params "buy" 0.5%float 12345.678%float
         (order_world (JObject [("order_id", JInteger 448411153)])))
  = Returns "448411153"
  /\ map decoded_payload
       (wire (snd (sendOrder no_hmac demo_params "buy" 0.5%float
                     12345.678%float
                     (order_world
                        (JObject [("order_id", JInteger 448411153)])))))
     = [Some (lit "{'request':'/v1/order/new','nonce':'1700000000250', 'symbol':'btcusd', 'amount':'0.5', 'price':'12345.7', 'exchange':'bitfinex', 'side':'buy', 'type':'limit'}")]
  /\ fst (sendOrder no_hmac demo_params "buy" 0.5%float 12345.678%float
            (order_world (JObject [("message", JString "Invalid order")])))
     = Returns "0".
Proof.
  destruct (sendOrder_rendering no_hmac demo_params) as (_ & _ & H).
  assert (Hn : nonce_of (noon 0%nat) = Some 1700000000250)
    by (vm_compute; reflexivity).
  destruct (H "buy" 0.5%float 12345.678%float
              (order_world (JObject [("order_id", JInteger 448411153)]))
              1700000000250 (JObject [("order_id", JInteger 448411153)])
              Hn eq_refl) as (H1 & H2 & _).
  destruct (H "buy" 0.5%float 12345.678%float
              (order_world (JObject [("message", JString "Invalid order")]))
              1700000000250 (JObject [("message", JString "Invalid order")])
              Hn eq_refl) as (_ & _ & H3).
  split; [| split].
  - rewrite H1. reflexivity.
  - rewrite H2. vm_compute. reflexivity.
  - apply H3. reflexivity.
Defined.

(** *** The signed payload *)

Section Payload.

Import JsonText.

Variable HMAC_SHA384 : string -> string -> string.
Variable params : Parameters.

Ltac ndiv := zify; Z.to_euclidean_division_equations; lia.

Lemma b64_index_char (n : N) :
  (n < 64)%N ->
  b64_index (b64_char n) = Some n /\ Ascii.eqb (b64_char n) "=" = false.
Proof.
  intro Hn.
  assert (Hall : forallb
            (fun k => match b64_index (b64_char k) with
                      | Some j => N.eqb j k
                      | None => false
                      end && negb (Ascii.eqb (b64_char k) "="))
            (map N.of_nat (seq 0 64)) = true) by (vm_compute; reflexivity).
  rewrite forallb_forall in Hall.
  assert (Hin : In n (map N.of_nat (seq 0 64))).
  { rewrite <- (N2Nat.id n). apply in_map. apply in_seq. lia. }
  apply Hall in Hin. apply andb_prop in Hin as [H1 H2].
  destruct (b64_index (b64_char n)) as [j |]; [| discriminate].
  apply N.eqb_eq in H1. subst j.
  split; [reflexivity |]. destruct (Ascii.eqb (b64_char n) "=");
    [discriminate | reflexivity].
Qed.

Lemma base64_roundtrip_bounded :
  forall (n : nat) (s : string),
    (String.length s <= n)%nat ->
    base64_decode (base64_encode s) = Some s.
Proof.
  induction n as [| n IH]; intros s Hlen.
  - destruct s; [reflexivity | simpl in Hlen; lia].
  - destruct s as [| a [| b [| c r]]]; [reflexivity | | |].
    + assert (Ha := N_ascii_bounded a).
      cbn [base64_encode base64_decode].
      destruct (b64_index_char (N_of_ascii a / 4)) as [-> _]; [ndiv |].
      destruct (b64_index_char (N_of_ascii a mod 4 * 16)) as [-> _];
        [ndiv |].
      change (Ascii.eqb "=" "=") with true. cbv iota.
      replace (N_of_ascii a / 4 * 4 + N_of_ascii a mod 4 * 16 / 16)%N
        with (N_of_ascii a) by ndiv.
      rewrite ascii_N_embedding. reflexivity.
    + assert (Ha := N_ascii_bounded a). assert (Hb := N_ascii_bounded b).
      cbn [base64_encode base64_decode].
      destruct (b64_index_char (N_of_ascii a / 4)) as [-> _]; [ndiv |].
      destruct (b64_index_char
                  (N_of_ascii a mod 4 * 16 + N_of_ascii b / 16))
        as [-> _]; [ndiv |].
      destruct (b64_index_char (N_of_ascii b mod 16 * 4)) as [-> ->];
        [ndiv |].
      change (Ascii.eqb "=" "=") with true. cbv iota.
      replace (N_of_ascii a / 4 * 4
               + (N_of_ascii a mod 4 * 16 + N_of_ascii b / 16) / 16)%N
        with (N_of_ascii a) by ndiv.
      replace ((N_of_ascii a mod 4 * 16 + N_of_ascii b / 16) mod 16 * 16
               + N_of_ascii b mod 16 * 4 / 4)%N
        with (N_of_ascii b) by ndiv.
      rewrite !ascii_N_embedding. reflexivity.
    + assert (Ha := N_ascii_bounded a). assert (Hb := N_ascii_bounded b).
      assert (Hc := N_ascii_bounded c).
      cbn [base64_encode base64_decode].
      destruct (b64_index_char (N_of_ascii a / 4)) as [-> _]; [ndiv |].
      destruct (b64_index_char
                  (N_of_ascii a mod 4 * 16 + N_of_ascii b / 16))
        as [-> _]; [ndiv |].
      destruct (b64_index_char
                  (N_of_ascii b mod 16 * 4 + N_of_ascii c / 64))
        as [-> ->]; [ndiv |].
      destruct (b64_index_char (N_of_ascii c mod 64)) as [-> ->]; [ndiv |].
      rewrite IH by (simpl in Hlen; lia).
      replace (N_of_ascii a / 4 * 4
               + (N_of_ascii a mod 4 * 16 + N_of_ascii b / 16) / 16)%N
        with (N_of_ascii a) by ndiv.
      replace ((N_of_ascii a mod 4 * 16 + N_of_ascii b / 16) mod 16 * 16
               + (N_of_ascii b mod 16 * 4 + N_of_ascii c / 64) / 4)%N
        with (N_of_ascii b) by ndiv.
      replace ((N_of_ascii b mod 16 * 4 + N_of_ascii c / 64) mod 4 * 64
               + N_of_ascii c mod 64)%N
        with (N_of_ascii c) by ndiv.
      rewrite !ascii_N_embedding. reflexivity.
Qed.

Lemma base64_roundtrip (s : string) :
  base64_decode (base64_encode s) = Some s.
Proof. apply (base64_roundtrip_bounded (String.length s)). lia. Qed.

Lemma parse_value_S (f : nat) (s : string) :
  parse_value (S f) s
  = match s with
    | EmptyString => None
    | String c r =>
        if Ascii.eqb c dquote then
          match read_string r with
          | Some (t, rest) => Some (JString t, rest)
          | None => None
          end
        else if Ascii.eqb c "{" then
          match head_is "}" (skip_ws r) with
          | Some rest => Some (JObject [], rest)
          | None =>
              match parse_members f (skip_ws r) with
              | Some (ms, rest) => Some (JObject ms, rest)
              | None => None
              end
          end
        else if Ascii.eqb c "[" then
          match head_is "]" (skip_ws r) with
          | Some rest => Some (JArray [], rest)
          | None =>
              match parse_elements f (skip_ws r) with
              | Some (vs, rest) => Some (JArray vs, rest)
              | None => None
              end
          end
        else if Ascii.eqb c "t" then
          option_map (fun rest => (JTrue, rest)) (read_literal "true" s)
        else if Ascii.eqb c "f" then
          option_map (fun rest => (JFalse, rest)) (read_literal "false" s)
        else if Ascii.eqb c "n" then
          option_map (fun rest => (JNull, rest)) (read_literal "null" s)
        else read_number s
    end.
Proof. reflexivity. Qed.

Lemma parse_members_S (f : nat) (s : string) :
  parse_members (S f) s
  = match head_is dquote s with
    | None => None
    | Some r =>
        match read_string r with
        | None => None
        | Some (k, r1) =>
            match head_is ":" (skip_ws r1) with
            | None => None
            | Some r2 =>
                match parse_value f (skip_ws r2) with
                | None => None
                | Some (v, r3) =>
                    match head_is "," (skip_ws r3) with
                    | Some r4 =>
                        match parse_members f (skip_ws r4) with
                        | Some (ms, rest) => Some ((k, v) :: ms, rest)
                        | None => None
                        end
                    | None =>
                        match head_is "}" (skip_ws r3) with
                        | Some rest => Some ([(k, v)], rest)
                        | None => None
                        end
                    end
                end
            end
        end
    end.
Proof. reflexivity. Qed.

Lemma parse_elements_S (f : nat) (s : string) :
  parse_elements (S f) s
  = match parse_value f s with
    | None => None
    | Some (v, r1) =>
        match head_is "," (skip_ws r1) with
        | Some r2 =>
            match parse_elements f (skip_ws r2) with
            | Some (vs, rest) => Some (v :: vs, rest)
            | None => None
            end
        | None =>
            match head_is "]" (skip_ws r1) with
            | Some rest => Some ([v], rest)
            | None => None
            end
        end
    end.
Proof. reflexivity. Qed.

(** More fuel does not change what a parse returns. *)
Lemma parse_more_fuel :
  forall f : nat,
    (forall s x, parse_value f s = Some x -> parse_value (S f) s = Some x)
    /\ (forall s x,
           parse_members f s = Some x -> parse_members (S f) s = Some x)
    /\ (forall s x,
           parse_elements f s = Some x -> parse_elements (S f) s = Some x).
Proof.
  induction f as [| f (IHv & IHm & IHe)].
  - repeat split; intros s x H; discriminate H.
  - split; [| split]; intros s x H.
    + rewrite parse_value_S in H |- *.
      destruct s as [| c r]; [discriminate |].
      destruct (Ascii.eqb c dquote); [exact H |].
      destruct (Ascii.eqb c "{").
      { destruct (head_is "}" (skip_ws r)); [exact H |].
        destruct (parse_members f (skip_ws r)) as [[ms rest] |] eqn:E;
          [| discriminate].
        rewrite (IHm _ _ E). exact H. }
      destruct (Ascii.eqb c "[").
      { destruct (head_is "]" (skip_ws r)); [exact H |].
        destruct (parse_elements f (skip_ws r)) as [[vs rest] |] eqn:E;
          [| discriminate].
        rewrite (IHe _ _ E). exact H. }
      exact H.
    + rewrite parse_members_S in H |- *.
      destruct (head_is dquote s) as [r |]; [| discriminate].
      destruct (read_string r) as [[k r1] |]; [| discriminate].
      destruct (head_is ":" (skip_ws r1)) as [r2 |]; [| discriminate].
      destruct (parse_value f (skip_ws r2)) as [[v r3] |] eqn:Ev;
        [| discriminate].
      rewrite (IHv _ _ Ev).
      destruct (head_is "," (skip_ws r3)) as [r4 |]; [| exact H].
      destruct (parse_members f (skip_ws r4)) as [[ms rest] |] eqn:Em;
        [| discriminate].
      rewrite (IHm _ _ Em). exact H.
    + rewrite parse_elements_S in H |- *.
      destruct (parse_value f s) as [[v r1] |] eqn:Ev; [| discriminate].
      rewrite (IHv _ _ Ev).
      destruct (head_is "," (skip_ws r1)) as [r2 |]; [| exact H].
      destruct (parse_elements f (skip_ws r2)) as [[vs rest] |] eqn:Ee;
        [| discriminate].
      rewrite (IHe _ _ Ee). exact H.
Qed.

Lemma parse_members_fuel :
  forall (f g : nat) (s : string) x,
    (f <= g)%nat ->
    parse_members f s = Some x -> parse_members g s = Some x.
Proof.
  intros f g s x Hle H. induction Hle as [| g Hle IH]; [exact H |].
  apply (proj1 (proj2 (parse_more_fuel g))). exact IH.
Qed.

Lemma read_string_plain (t rest : string) :
  plain t = true ->
  read_string (t ++ String dquote rest) = Some (t, rest).
Proof.
  induction t as [| c t IH]; intro Hp.
  - reflexivity.
  - simpl in Hp.
    apply andb_prop in Hp as [Hp Ht]. apply andb_prop in Hp as [Hp Hc].
    apply andb_prop in Hp as [Hq Hb].
    apply negb_true_iff in Hq, Hb, Hc.
    change ((String c t) ++ String dquote rest)
      with (String c (t ++ String dquote rest)).
    cbn [read_string]. rewrite Hq, Hb, Hc, (IH Ht). reflexivity.
Qed.

Lemma plain_uint (d : Decimal.uint) :
  plain (NilEmpty.string_of_uint d) = true.
Proof. induction d; simpl; auto. Qed.

Lemma plain_to_string (z : Z) : plain (to_string z) = true.
Proof.
  unfold to_string, NilZero.string_of_int, NilZero.string_of_uint.
  destruct (Z.to_int z) as [d | d]; destruct d;
    try reflexivity; try (apply (plain_uint (_ _)));
    change (plain (String "-" (NilEmpty.string_of_uint ?u)))
      with (plain (NilEmpty.string_of_uint u)); apply plain_uint.
Qed.

Lemma length_append (a b : string) :
  String.length (a ++ b) = (String.length a + String.length b)%nat.
Proof. induction a as [| c a IH]; simpl; [reflexivity | now rewrite IH]. Qed.

Lemma append_assoc (a b c : string) : (a ++ b) ++ c = a ++ b ++ c.
Proof. induction a as [| x a IH]; simpl; [reflexivity | now rewrite IH]. Qed.

(** A member whose value is a plain string, at the head of the members. *)
Lemma parse_members_string :
  forall (f : nat) (k v tail : string),
    plain k = true -> plain v = true ->
    parse_members (S (S f))
      (String dquote (k ++ String dquote
         (String ":" (String dquote (v ++ String dquote tail)))))
    = match head_is "," (skip_ws tail) with
      | Some r4 =>
          match parse_members (S f) (skip_ws r4) with
          | Some (ms, rest) => Some ((k, JString v) :: ms, rest)
          | None => None
          end
      | None =>
          match head_is "}" (skip_ws tail) with
          | Some rest => Some ([(k, JString v)], rest)
          | None => None
          end
      end.
Proof.
  intros f k v tail Hk Hv.
  rewrite parse_members_S.
  change (head_is dquote (String dquote ?r)) with (Some r). cbv iota.
  rewrite (read_string_plain k _ Hk).
  change (skip_ws (String ":" ?r)) with (String ":" r).
  change (head_is ":" (String ":" ?r)) with (Some r). cbv iota.
  change (skip_ws (String dquote ?r)) with (String dquote r).
  rewrite parse_value_S.
  change (Ascii.eqb dquote dquote) with true. cbv iota.
  rewrite (read_string_plain v _ Hv). reflexivity.
Qed.

Lemma payload_text_members :
  forall (request options : string) (n : Z),
    payload_text request n options
    = String "{" (String dquote ("request" ++ String dquote
        (String ":" (String dquote (request ++ String dquote
          (String "," (String dquote ("nonce" ++ String dquote
            (String ":" (String dquote (to_string n ++ String dquote
              match options with
              | EmptyString => "}"
              | _ => ", " ++ options ++ "}"
              end))))))))))).
Proof.
  intros request options n. unfold payload_text.
  destruct options as [| c o];
    repeat first [ rewrite append_assoc
                 | progress cbn [append lit Ascii.eqb Bool.eqb] ];
    reflexivity.
Qed.

Lemma payload_loads_empty :
  forall (request : string) (n : Z),
    plain request = true ->
    json_loads (payload_text request n EmptyString)
    = Some (JObject [request_member request; nonce_member n]).
Proof.
  intros request n Hreq.
  unfold json_loads. rewrite payload_text_members.
  set (X := String dquote ("request" ++ _)).
  change (skip_ws (String "{" X)) with (String "{" X).
  rewrite parse_value_S.
  change (Ascii.eqb "{" dquote) with false.
  change (Ascii.eqb "{" "{") with true. cbv iota.
  change (skip_ws X) with X.
  change (head_is "}" X) with (@None string). cbv iota.
  assert (Hparse : parse_members 3 X
                   = Some ([request_member request; nonce_member n],
                           EmptyString)).
  { unfold X. rewrite (parse_members_string 1 "request" request _ eq_refl Hreq).
    change (skip_ws (String "," ?r)) with (String "," r).
    change (head_is "," (String "," ?r)) with (Some r). cbv iota.
    change (skip_ws (String dquote ?r)) with (String dquote r).
    rewrite (parse_members_string 0 "nonce" (to_string n) _ eq_refl
               (plain_to_string n)).
    reflexivity. }
  assert (Hfuel : (3 <= String.length (String "{" X))%nat).
  { unfold X. cbn [String.length append]. lia. }
  rewrite (parse_members_fuel 3 _ X _ Hfuel Hparse).
  reflexivity.
Qed.

Lemma payload_loads_fields :
  forall (request options : string) (n : Z) (fields : list (string * json)),
    plain request = true ->
    fields <> [] ->
    json_loads ("{" ++ options ++ "}") = Some (JObject fields) ->
    json_loads (payload_text request n options)
    = Some (JObject (request_member request :: nonce_member n :: fields)).
Proof.
  intros request options n fields Hreq Hne Hopt.
  assert (Hmatch : match options with
                   | EmptyString => "}"
                   | String _ _ => ", " ++ options ++ "}"
                   end = String "," (String " " (options ++ "}"))).
  { destruct options; [| reflexivity].
    exfalso. apply Hne. vm_compute in Hopt. congruence. }
  (* what the hypothesis says of the members of the options *)
  unfold json_loads in Hopt.
  change ("{" ++ options ++ "}") with (String "{" (options ++ "}")) in Hopt.
  change (skip_ws (String "{" ?r)) with (String "{" r) in Hopt.
  change (String.length (String "{" ?r)) with (S (String.length r)) in Hopt.
  set (L0 := String.length (options ++ "}")) in *.
  rewrite parse_value_S in Hopt.
  change (Ascii.eqb "{" dquote) with false in Hopt.
  change (Ascii.eqb "{" "{") with true in Hopt. cbv iota in Hopt.
  destruct (head_is "}" (skip_ws (options ++ "}"))) as [r0 |].
  { exfalso. apply Hne. destruct (skip_ws r0); congruence. }
  destruct (parse_members (S L0) (skip_ws (options ++ "}")))
    as [[ms rest] |] eqn:Hms; [| discriminate].
  assert (Hrest : skip_ws rest = EmptyString /\ ms = fields).
  { destruct (skip_ws rest); [| discriminate].
    split; [reflexivity | congruence]. }
  destruct Hrest as [Hrest ->].
  (* the payload *)
  unfold json_loads. rewrite payload_text_members, Hmatch.
  set (X := String dquote ("request" ++ _)).
  change (skip_ws (String "{" X)) with (String "{" X).
  rewrite parse_value_S.
  change (Ascii.eqb "{" dquote) with false.
  change (Ascii.eqb "{" "{") with true. cbv iota.
  change (skip_ws X) with X.
  change (head_is "}" X) with (@None string). cbv iota.
  assert (Hparse : parse_members (S (S (S L0))) X
                   = Some (request_member request :: nonce_member n
                           :: fields, rest)).
  { unfold X. rewrite (parse_members_string (S L0) "request" request _ eq_refl Hreq).
    change (skip_ws (String "," (String dquote ?r)))
      with (String "," (String dquote r)).
    change (head_is "," (String "," ?r)) with (Some r). cbv iota.
    change (skip_ws (String dquote ?r)) with (String dquote r).
    rewrite (parse_members_string L0 "nonce" (to_string n) _ eq_refl
               (plain_to_string n)).
    change (skip_ws (String "," (String " " ?r)))
      with (String "," (String " " r)).
    change (head_is "," (String "," ?r)) with (Some r). cbv iota.
    change (skip_ws (String " " ?r)) with (skip_ws r).
    rewrite Hms. reflexivity. }
  assert (Hfuel : (S (S (S L0)) <= String.length (String "{" X))%nat).
  { unfold X, L0.
    repeat first [ rewrite length_append
                 | progress cbn [String.length append] ].
    lia. }
  rewrite (parse_members_fuel _ _ X _ Hfuel Hparse).
  rewrite Hrest. reflexivity.
Qed.

Lemma decoded_payload_signed :
  forall (request options : string) (n : Z),
    decoded_payload (signed_request HMAC_SHA384 params request n options)
    = Some (payload_text request n options).
Proof.
  intros request options n.
  unfold decoded_payload, signed_request, auth_headers.
  cbn [req_headers header_value].
  change (strip_prefix "X-BFX-PAYLOAD:" ("X-BFX-APIKEY:" ++ ?x))
    with (@None string).
  change (strip_prefix "X-BFX-PAYLOAD:" ("X-BFX-SIGNATURE:" ++ ?x))
    with (@None string).
  change (strip_prefix "X-BFX-PAYLOAD:" ("X-BFX-PAYLOAD:" ++ ?x))
    with (Some x).
  cbv iota. apply base64_roundtrip.
Qed.

Lemma read_digits_uint :
  forall (d : Decimal.uint) (acc n : Z),
    exists k : Z,
      read_digits 10 digit_of (NilEmpty.string_of_uint d) acc n
      = (horner d acc, k, EmptyString)
      /\ n <= k /\ (d <> Decimal.Nil -> n < k).
Proof.
  induction d; intros acc n; cbn [NilEmpty.string_of_uint horner];
    try (exists n; repeat split; [lia | congruence]);
    cbn [read_digits];
    match goal with
    | |- context [digit_of ?c] =>
        let v := eval vm_compute in (digit_of c) in
        change (digit_of c) with v; cbv iota
    end;
    match goal with
    | |- context [read_digits 10 digit_of _ ?a ?m] =>
        destruct (IHd a m) as (k & E & Hk & _)
    end;
    exists k; (split; [exact E | split; [lia | intros _; lia]]).
Qed.

Lemma horner_acc (d : Decimal.uint) (acc : positive) :
  horner d (Zpos acc) = Zpos (Pos.of_uint_acc d acc).
Proof.
  revert acc. induction d; intro acc; cbn [horner Pos.of_uint_acc];
    try reflexivity;
    rewrite <- IHd; f_equal; lia.
Qed.

Lemma horner_of_uint (d : Decimal.uint) :
  horner d 0 = Z.of_N (Pos.of_uint d).
Proof.
  induction d; cbn [horner Pos.of_uint]; try reflexivity;
    try exact IHd; apply (horner_acc d).
Qed.

Lemma decimal_value_to_string (n : Z) :
  0 <= n -> decimal_value (to_string n) = Some n.
Proof.
  intro Hn. destruct n as [| p | p]; [reflexivity | | lia].
  unfold to_string, decimal_value. cbn [Z.to_int NilZero.string_of_int].
  assert (Hp : horner (Pos.to_uint p) 0 = Zpos p).
  { rewrite horner_of_uint, DecimalPos.Unsigned.of_to. reflexivity. }
  assert (Hnil : Pos.to_uint p <> Decimal.Nil).
  { intro E. rewrite E in Hp. discriminate Hp. }
  unfold NilZero.string_of_uint.
  destruct (read_digits_uint (Pos.to_uint p) 0 0) as (k & E & _ & Hk).
  destruct (Pos.to_uint p) eqn:Eu; [congruence | ..];
    rewrite E, Hp;
    (replace (0 <? k) with true
       by (symmetry; apply Z.ltb_lt; apply Hk; discriminate));
    reflexivity.
Qed.

Lemma payload_nonce_signed :
  forall (call : string * string) (n : Z),
    valid_call call -> 0 <= n ->
    payload_nonce
      (signed_request HMAC_SHA384 params (fst call) n (snd call))
    = Some n.
Proof.
  intros [request options] n [Hreq Hopt] Hn. cbn [fst snd] in *.
  unfold payload_nonce. rewrite decoded_payload_signed.
  assert (Hdoc : exists fields,
             json_loads (payload_text request n options)
             = Some (JObject (request_member request :: nonce_member n
                              :: fields))).
  { destruct Hopt as [-> | (fields & Hne & Hf)].
    - exists []. apply payload_loads_empty. exact Hreq.
    - exists fields. apply payload_loads_fields; assumption. }
  destruct Hdoc as (fields & ->).
  cbn [json_object_get assoc request_member nonce_member].
  change (String.eqb "request" "nonce") with false.
  change (String.eqb "nonce" "nonce") with true.
  cbn [json_string_value]. apply decimal_value_to_string. exact Hn.
Qed.

(** C4: the payload header that [authRequest] sends base64-decodes to the
    text built from the request path, the nonce and the options, and that
    text is a JSON object whose members are "request" (the path), "nonce"
    (the nonce in decimal, as a string) and then the fields of the options:
    none when the options are empty, and the members of the object
    [{options}] when that is a JSON object with members.  The path is written
    between quotes as it is, so it must be free of quotes, backslashes and
    control characters. *)
Theorem signed_payload_is_json :
  forall (request options : string) (w : World) (n : Z),
    nonce_of (wall_clock w (clock_reads w)) = Some n ->
    plain request = true ->
    exists q : http_request,
      wire (snd (authRequest HMAC_SHA384 params request options w))
      = (wire w ++ [q])%list
      /\ decoded_payload q = Some (payload_text request n options)
      /\ (options = EmptyString ->
          json_loads (payload_text request n options)
          = Some (JObject [("request", JString request);
                           ("nonce", JString (to_string n))]))
      /\ (forall fields : list (string * json),
             fields <> [] ->
             json_loads ("{" ++ options ++ "}") = Some (JObject fields) ->
             json_loads (payload_text request n options)
             = Some (JObject (("request", JString request)
                              :: ("nonce", JString (to_string n))
                              :: fields))).
Proof.
  intros request options w n Hn Hreq.
  exists (signed_request HMAC_SHA384 params request n options).
  split; [| split; [| split]].
  - rewrite (authRequest_run HMAC_SHA384 params request options w n Hn).
    cbv zeta.
    destruct (exchange w (wire w) _) as [root |]; [| reflexivity].
    destruct (checkResponse_run (Some root)
                (after_request
                   (signed_request HMAC_SHA384 params request n options) w))
      as [o ->].
    reflexivity.
  - apply decoded_payload_signed.
  - intros ->. apply payload_loads_empty. exact Hreq.
  - intros fields Hne Hopt.
    apply (payload_loads_fields request options n fields Hreq Hne Hopt).
Qed.

End Payload.

Lemma signed_payload_is_json_witness :
  JsonText.json_loads
    (payload_text "/v1/order/status" 1700000000250
       (lit "'order_id':448411153"))
  = Some (JObject [("request", JString "/v1/order/status");
                   ("nonce", JString "1700000000250");
                   ("order_id", JInteger 448411153)])
  /\ JsonText.json_loads
       (payload_text "/v1/balances" 1700000000250 EmptyString)
     = Some (JObject [("request", JString "/v1/balances");
                      ("nonce", JString "1700000000250")]).
Proof.
  assert (Hn : nonce_of (noon 0%nat) = Some 1700000000250)
    by (vm_compute; reflexivity).
  destruct (signed_payload_is_json no_hmac demo_params "/v1/order/status"
              (lit "'order_id':448411153") (order_world (JObject []))
              1700000000250 Hn eq_refl) as (q1 & _ & _ & _ & Hf).
  destruct (signed_payload_is_json no_hmac demo_params "/v1/balances"
              EmptyString (order_world (JObject []))
              1700000000250 Hn eq_refl) as (q2 & _ & _ & He & _).
  split.
  - apply (Hf [("order_id", JInteger 448411153)]);
      [discriminate | vm_compute; reflexivity].
  - apply He. reflexivity.
Defined.

(** *** Rounding of doubles

    What the rounding of [SpecFloat] computes, in closed form, and the
    properties of it that the nonce needs: it does not depend on how the
    exact value is written, it is monotone, and it leaves a double as it
    is. *)

Lemma digits2_size p : digits2_pos p = Pos.size p.
Proof. induction p; simpl; congruence. Qed.

Lemma digits_bounds (p : positive) :
  2 ^ (Zpos (digits2_pos p) - 1) <= Zpos p < 2 ^ Zpos (digits2_pos p).
Proof.
  rewrite digits2_size. split.
  - assert (H := Pos.size_le p).
    assert (E : 2 ^ Zpos (Pos.size p) = 2 * 2 ^ (Zpos (Pos.size p) - 1)).
    { rewrite <- Z.pow_succ_r by lia. f_equal. lia. }
    assert (H' : Zpos (2 ^ Pos.size p) <= Zpos (p~0))
      by (apply Pos2Z.pos_le_pos; exact H).
    rewrite Pos2Z.inj_pow, Pos2Z.inj_xO in H'. lia.
  - assert (H := Pos.size_gt p).
    assert (H' : Zpos p < Zpos (2 ^ Pos.size p))
      by (apply Pos2Z.pos_lt_pos; exact H).
    rewrite Pos2Z.inj_pow in H'. exact H'.
Qed.

Lemma shr_1_spec (m : Z) (r s : bool) :
  0 <= m ->
  shr_1 {| shr_m := m; shr_r := r; shr_s := s |}
  = {| shr_m := m / 2; shr_r := Z.odd m; shr_s := r || s |}.
Proof.
  intro Hm. destruct m as [| p | p]; [reflexivity | | lia].
  destruct p as [p | p |]; simpl shr_1; rewrite <- Z.div2_div; reflexivity.
Qed.

Lemma digits_log2 (p : positive) :
  Zpos (digits2_pos p) = Z.log2 (Zpos p) + 1.
Proof.
  destruct (digits_bounds p) as [B1 B2].
  assert (H : Z.log2 (Zpos p) = Zpos (digits2_pos p) - 1).
  { apply Z.log2_unique; [lia |].
    replace (Z.succ (Zpos (digits2_pos p) - 1)) with (Zpos (digits2_pos p))
      by lia. split; assumption. }
  lia.
Qed.


Lemma iter_pos_nat {A} (f : A -> A) (p : positive) (x : A) :
  iter_pos f p x = Nat.iter (Pos.to_nat p) f x.
Proof.
  revert x. induction p as [p IH | p IH |]; intro x; simpl iter_pos.
  - rewrite !IH, Pos2Nat.inj_xI, <- Nat.iter_add, <- Nat.iter_succ_r.
    f_equal. lia.
  - rewrite !IH, Pos2Nat.inj_xO, <- Nat.iter_add. f_equal. lia.
  - reflexivity.
Qed.

Lemma mod_pow2_succ (m : Z) (n : Z) :
  0 <= n ->
  m mod 2 ^ (n + 1) = m mod 2 ^ n + 2 ^ n * (m / 2 ^ n mod 2).
Proof.
  intro Hn. rewrite Z.pow_add_r by lia. change (2 ^ 1) with 2.
  apply Z.rem_mul_r; [apply Z.pow_nonzero; lia | lia].
Qed.

Lemma odd_mod2 (a : Z) : Z.odd a = (a mod 2 =? 1).
Proof.
  rewrite Zmod_odd. destruct (Z.odd a); reflexivity.
Qed.

Lemma iter_shr_1 (m : Z) (n : nat) :
  0 <= m ->
  Nat.iter (S n) shr_1 {| shr_m := m; shr_r := false; shr_s := false |}
  = {| shr_m := m / 2 ^ (Z.of_nat n + 1);
       shr_r := Z.testbit m (Z.of_nat n);
       shr_s := negb (m mod 2 ^ Z.of_nat n =? 0) |}.
Proof.
  intro Hm. induction n as [| n IH].
  - change (Nat.iter 1 shr_1 ?x) with (shr_1 x).
    rewrite shr_1_spec by exact Hm.
    change (Z.of_nat 0) with 0. rewrite Z.bit0_odd.
    change (2 ^ (0 + 1)) with 2. change (2 ^ 0) with 1.
    rewrite Z.mod_1_r. reflexivity.
  - change (Nat.iter (S (S n)) shr_1 ?x) with (shr_1 (Nat.iter (S n) shr_1 x)).
    rewrite IH, shr_1_spec.
    2:{ apply Z.div_pos; [exact Hm | apply Z.pow_pos_nonneg; lia]. }
    rewrite Nat2Z.inj_succ. unfold Z.succ.
    assert (Hp : 0 < 2 ^ Z.of_nat n) by (apply Z.pow_pos_nonneg; lia).
    assert (Hp1 : 0 < 2 ^ (Z.of_nat n + 1)) by (apply Z.pow_pos_nonneg; lia).
    f_equal.
    + rewrite Z.div_div by lia.
      rewrite (Z.pow_add_r 2 (Z.of_nat n + 1) 1) by lia. reflexivity.
    + rewrite (Z.testbit_odd m (Z.of_nat n + 1)), Z.shiftr_div_pow2 by lia.
      reflexivity.
    + rewrite (mod_pow2_succ m (Z.of_nat n)) by lia.
      rewrite (Z.testbit_odd m (Z.of_nat n)), Z.shiftr_div_pow2 by lia.
      rewrite odd_mod2.
      assert (H0 := Z.mod_pos_bound m (2 ^ Z.of_nat n) Hp).
      assert (H1 := Z.mod_pos_bound (m / 2 ^ Z.of_nat n) 2 ltac:(lia)).
      destruct (Z.eqb_spec (m / 2 ^ Z.of_nat n mod 2) 1) as [E | E];
        destruct (Z.eqb_spec (m mod 2 ^ Z.of_nat n) 0) as [E0 | E0];
        simpl; symmetry.
      * apply negb_true_iff, Z.eqb_neq. rewrite E. lia.
      * apply negb_true_iff, Z.eqb_neq. rewrite E. lia.
      * apply negb_false_iff, Z.eqb_eq.
        assert (m / 2 ^ Z.of_nat n mod 2 = 0) by lia. lia.
      * apply negb_true_iff, Z.eqb_neq.
        assert (m / 2 ^ Z.of_nat n mod 2 = 0) by lia. lia.
Qed.

Lemma round_loc (q : Z) (r s : bool) :
  round_nearest_even q
    (loc_of_shr_record {| shr_m := q; shr_r := r; shr_s := s |})
  = if r && (s || Z.odd q) then q + 1 else q.
Proof.
  destruct r, s; simpl; try reflexivity.
  rewrite <- Z.negb_odd. destruct (Z.odd q); reflexivity.
Qed.

(** first shift and rounding of binary_round_aux *)
Lemma shr_round (m : Z) (p : positive) :
  0 <= m ->
  round_nearest_even
    (shr_m (iter_pos shr_1 p {| shr_m := m; shr_r := false; shr_s := false |}))
    (loc_of_shr_record
       (iter_pos shr_1 p {| shr_m := m; shr_r := false; shr_s := false |}))
  = rne m (Zpos p).
Proof.
  intro Hm. rewrite iter_pos_nat.
  destruct (Pos2Nat.is_succ p) as [n Hn]. rewrite Hn.
  rewrite iter_shr_1 by exact Hm. cbn [shr_m].
  rewrite round_loc. unfold rne.
  assert (E : Z.of_nat n = Zpos p - 1) by lia.
  rewrite E. replace (Zpos p - 1 + 1) with (Zpos p) by lia. reflexivity.
Qed.


Lemma pow2_pos (k : Z) : 0 <= k -> 0 < 2 ^ k.
Proof. intro. apply Z.pow_pos_nonneg; lia. Qed.

Lemma pow2_double (k : Z) : 1 <= k -> 2 ^ k = 2 * 2 ^ (k - 1).
Proof.
  intro H. rewrite <- Z.pow_succ_r by lia. f_equal. lia.
Qed.

Lemma rne_cases (m k : Z) :
  0 <= m -> 1 <= k ->
  exists q r,
    m = 2 ^ k * q + r /\ 0 <= r < 2 ^ k /\ 0 <= q /\ q = m / 2 ^ k
    /\ rne m k
       = if (2 ^ (k - 1) <? r) || ((r =? 2 ^ (k - 1)) && Z.odd q)
         then q + 1 else q.
Proof.
  intros Hm Hk.
  assert (HP : 0 < 2 ^ k) by (apply pow2_pos; lia).
  assert (Hh : 0 < 2 ^ (k - 1)) by (apply pow2_pos; lia).
  assert (E2 := pow2_double k Hk).
  exists (m / 2 ^ k), (m mod 2 ^ k).
  assert (Hr := Z.mod_pos_bound m (2 ^ k) HP).
  split; [apply Z.div_mod; lia |]. split; [exact Hr |].
  split; [apply Z.div_pos; lia |]. split; [reflexivity |].
  unfold rne.
  assert (Hs := mod_pow2_succ m (k - 1) ltac:(lia)).
  replace (k - 1 + 1) with k in Hs by lia.
  rewrite (Z.testbit_odd m (k - 1)), Z.shiftr_div_pow2 by lia.
  rewrite odd_mod2.
  assert (H0 := Z.mod_pos_bound m (2 ^ (k - 1)) Hh).
  assert (H1 := Z.mod_pos_bound (m / 2 ^ (k - 1)) 2 ltac:(lia)).
  set (b := m / 2 ^ (k - 1) mod 2) in *.
  set (r' := m mod 2 ^ (k - 1)) in *.
  set (h := 2 ^ (k - 1)) in *.
  rewrite Hs.
  destruct (Z.eqb_spec b 1) as [Eb | Eb];
    destruct (Z.eqb_spec r' 0) as [Er | Er]; cbn [andb orb negb].
  - rewrite Eb, Er.
    replace (h <? 0 + h * 1) with false by (symmetry; apply Z.ltb_ge; lia).
    replace (0 + h * 1 =? h) with true by (symmetry; apply Z.eqb_eq; lia).
    reflexivity.
  - rewrite Eb.
    replace (h <? r' + h * 1) with true by (symmetry; apply Z.ltb_lt; lia).
    reflexivity.
  - assert (b = 0) by lia.
    replace (h <? r' + h * b) with false by (symmetry; apply Z.ltb_ge; nia).
    replace (r' + h * b =? h) with false by (symmetry; apply Z.eqb_neq; nia).
    reflexivity.
  - assert (b = 0) by lia.
    replace (h <? r' + h * b) with false by (symmetry; apply Z.ltb_ge; nia).
    replace (r' + h * b =? h) with false by (symmetry; apply Z.eqb_neq; nia).
    reflexivity.
Qed.

Lemma rne_exact (a k : Z) : 0 <= a -> 1 <= k -> rne (a * 2 ^ k) k = a.
Proof.
  intros Ha Hk.
  assert (HP : 0 < 2 ^ k) by (apply pow2_pos; lia).
  assert (Hh : 0 < 2 ^ (k - 1)) by (apply pow2_pos; lia).
  destruct (rne_cases (a * 2 ^ k) k) as (q & r & Hm & Hr & Hq & Eq & ->);
    [nia | lia |].
  rewrite Z.div_mul in Eq by lia. subst q.
  assert (r = 0) by lia. subst r.
  replace (2 ^ (k - 1) <? 0) with false by (symmetry; apply Z.ltb_ge; lia).
  replace (0 =? 2 ^ (k - 1)) with false by (symmetry; apply Z.eqb_neq; lia).
  reflexivity.
Qed.

Lemma rne_mono (m m' k : Z) :
  0 <= m -> m <= m' -> 1 <= k -> rne m k <= rne m' k.
Proof.
  intros Hm Hle Hk.
  assert (HP : 0 < 2 ^ k) by (apply pow2_pos; lia).
  assert (E2 := pow2_double k Hk).
  destruct (rne_cases m k Hm Hk) as (q & r & Em & Hr & Hq & Eq & ->).
  destruct (rne_cases m' k ltac:(lia) Hk)
    as (q' & r' & Em' & Hr' & Hq' & Eq' & ->).
  assert (Hqq : q <= q').
  { subst q q'. apply Z.div_le_mono; lia. }
  clear Eq Eq'.
  set (h := 2 ^ (k - 1)) in *.
  destruct (Z.eq_dec q q') as [E | NE].
  - subst q'. assert (r <= r') by lia.
    destruct (Z.ltb_spec h r); destruct (Z.ltb_spec h r');
      destruct (Z.eqb_spec r h); destruct (Z.eqb_spec r' h);
      destruct (Z.odd q); cbn [andb orb]; cbv iota; lia.
  - assert (q + 1 <= q') by lia.
    destruct ((h <? r) || ((r =? h) && Z.odd q));
      destruct ((h <? r') || ((r' =? h) && Z.odd q')); lia.
Qed.

Lemma rne_scale (m k j : Z) :
  0 <= m -> 1 <= k -> 0 <= j -> rne (m * 2 ^ j) (k + j) = rne m k.
Proof.
  intros Hm Hk Hj.
  assert (HP : 0 < 2 ^ k) by (apply pow2_pos; lia).
  assert (HJ : 0 < 2 ^ j) by (apply pow2_pos; lia).
  assert (Hh : 0 < 2 ^ (k - 1)) by (apply pow2_pos; lia).
  destruct (rne_cases m k Hm Hk) as (q & r & Em & Hr & Hq & Eq & ->).
  destruct (rne_cases (m * 2 ^ j) (k + j) ltac:(nia) ltac:(lia))
    as (q' & r' & Em' & Hr' & Hq' & Eq' & ->).
  assert (Eqq : q' = q).
  { rewrite Eq, Eq'. rewrite Z.pow_add_r by lia.
    apply Z.div_mul_cancel_r; lia. }
  clear Eq Eq'. subst q'.
  rewrite Z.pow_add_r in Em' by lia.
  assert (Er : r' = r * 2 ^ j) by (rewrite Em in Em' at 1; lia).
  replace (k + j - 1) with (k - 1 + j) by lia.
  rewrite Z.pow_add_r by lia.
  set (h := 2 ^ (k - 1)) in *. set (J := 2 ^ j) in *.
  subst r'.
  replace (h * J <? r * J) with (h <? r).
  2:{ destruct (Z.ltb_spec h r); symmetry;
        [apply Z.ltb_lt | apply Z.ltb_ge]; nia. }
  replace (r * J =? h * J) with (r =? h).
  2:{ destruct (Z.eqb_spec r h); symmetry;
        [apply Z.eqb_eq | apply Z.eqb_neq]; nia. }
  reflexivity.
Qed.

Lemma rne_le (m a k : Z) :
  0 <= m -> 1 <= k -> m <= a * 2 ^ k -> rne m k <= a.
Proof.
  intros Hm Hk H.
  assert (HP : 0 < 2 ^ k) by (apply pow2_pos; lia).
  assert (0 <= a) by nia.
  rewrite <- (rne_exact a k) by lia. apply rne_mono; lia.
Qed.

Lemma rne_ge (m a k : Z) :
  0 <= a -> 1 <= k -> a * 2 ^ k <= m -> a <= rne m k.
Proof.
  intros Ha Hk H.
  assert (HP : 0 < 2 ^ k) by (apply pow2_pos; lia).
  rewrite <- (rne_exact a k) at 1 by lia. apply rne_mono; nia.
Qed.


Lemma pow2_split (a b : Z) : 0 <= a -> 0 <= b -> 2 ^ (a + b) = 2 ^ a * 2 ^ b.
Proof. intros. apply Z.pow_add_r; assumption. Qed.

Lemma pow2_le (a b : Z) : 0 <= a <= b -> 2 ^ a <= 2 ^ b.
Proof. intro. apply Z.pow_le_mono_r; lia. Qed.

Lemma log2_shift (m j : Z) : 0 < m -> 0 <= j -> Z.log2 (m * 2 ^ j) = Z.log2 m + j.
Proof. intros. rewrite Z.log2_mul_pow2 by lia. lia. Qed.

Lemma log2_bounds (m : Z) : 0 < m -> 2 ^ Z.log2 m <= m < 2 ^ (Z.log2 m + 1).
Proof. intro H. apply (Z.log2_spec m H). Qed.

Lemma round64_scale (m e j : Z) :
  0 < m -> 0 <= j -> round64 (m * 2 ^ j) (e - j) = round64 m e.
Proof.
  intros Hm Hj. unfold round64.
  rewrite log2_shift by assumption.
  replace (Z.log2 m + j + 1 + (e - j)) with (Z.log2 m + 1 + e) by lia.
  set (c := fexp64 (Z.log2 m + 1 + e)).
  assert (Hc : -1074 <= c) by (unfold c, fexp64; lia).
  assert (HJ : 0 < 2 ^ j) by (apply pow2_pos; lia).
  destruct (Z.ltb_spec e c) as [L | G].
  - replace (e - j <? c) with true by (symmetry; apply Z.ltb_lt; lia).
    replace (c - (e - j)) with (c - e + j) by lia.
    rewrite rne_scale by lia. reflexivity.
  - destruct (Z.ltb_spec (e - j) c) as [L' | G'].
    + replace (m * 2 ^ j) with (m * 2 ^ (e - c) * 2 ^ (c - (e - j))).
      2:{ rewrite <- Z.mul_assoc, <- pow2_split by lia. f_equal. f_equal. lia. }
      rewrite rne_exact.
      * rewrite <- Z.mul_assoc, <- pow2_split by lia. f_equal. f_equal. lia.
      * assert (0 < 2 ^ (e - c)) by (apply pow2_pos; lia). nia.
      * lia.
    + rewrite <- Z.mul_assoc, <- pow2_split by lia. f_equal. f_equal. lia.
Qed.

Lemma round64_upper (m e : Z) :
  0 < m ->
  round64 m e <= 2 ^ (Z.max (Z.log2 m + 1 + e) (-1074) + 1074).
Proof.
  intro Hm. unfold round64.
  destruct (log2_bounds m Hm) as [L1 L2].
  assert (Hl : 0 <= Z.log2 m) by apply Z.log2_nonneg.
  set (l := Z.log2 m) in *.
  set (c := fexp64 (l + 1 + e)).
  assert (Hc : c = Z.max (l + 1 + e - 53) (-1074)) by reflexivity.
  destruct (Z.ltb_spec e c) as [L | G].
  - set (k := c - e). assert (Hk : k = c - e) by reflexivity.
    (* the rounded mantissa is at most 2^t *)
    set (t := Z.max (l + 1 - k) 0).
    assert (Ht : t = Z.max (l + 1 - k) 0) by reflexivity.
    assert (Hr : rne m k <= 2 ^ t).
    { apply rne_le; [lia | lia |].
      rewrite <- pow2_split by lia.
      assert (2 ^ (l + 1) <= 2 ^ (t + k)) by (apply pow2_le; lia). lia. }
    assert (H2 : 0 < 2 ^ (c + 1074)) by (apply pow2_pos; lia).
    assert (2 ^ t * 2 ^ (c + 1074)
            <= 2 ^ (Z.max (l + 1 + e) (-1074) + 1074)).
    { rewrite <- pow2_split by lia. apply pow2_le. lia. }
    eapply Z.le_trans; [| eassumption].
    apply Z.mul_le_mono_nonneg_r; lia.
  - assert (H2 : 0 < 2 ^ (e + 1074)) by (apply pow2_pos; lia).
    replace (Z.max (l + 1 + e) (-1074) + 1074) with (l + 1 + (e + 1074))
      by lia.
    rewrite (pow2_split (l + 1) (e + 1074)) by lia.
    apply Z.mul_le_mono_nonneg_r; lia.
Qed.

Lemma round64_lower (m e : Z) :
  0 < m -> -1074 <= Z.log2 m + e ->
  2 ^ (Z.log2 m + e + 1074) <= round64 m e.
Proof.
  intros Hm Hle. unfold round64.
  destruct (log2_bounds m Hm) as [L1 L2].
  assert (Hl : 0 <= Z.log2 m) by apply Z.log2_nonneg.
  set (l := Z.log2 m) in *.
  set (c := fexp64 (l + 1 + e)).
  assert (Hc : c = Z.max (l + 1 + e - 53) (-1074)) by reflexivity.
  destruct (Z.ltb_spec e c) as [L | G].
  - set (k := c - e). assert (Hk : k = c - e) by reflexivity.
    assert (Hr : 2 ^ (l - k) <= rne m k).
    { apply rne_ge; [apply Z.lt_le_incl, pow2_pos; lia | lia |].
      rewrite <- pow2_split by lia.
      replace (l - k + k) with l by lia. exact L1. }
    assert (H2 : 0 < 2 ^ (c + 1074)) by (apply pow2_pos; lia).
    replace (l + e + 1074) with (l - k + (c + 1074)) by lia.
    rewrite (pow2_split (l - k) (c + 1074)) by lia.
    apply Z.mul_le_mono_nonneg_r; lia.
  - assert (H2 : 0 < 2 ^ (e + 1074)) by (apply pow2_pos; lia).
    replace (l + e + 1074) with (l + (e + 1074)) by lia.
    rewrite (pow2_split l (e + 1074)) by lia.
    apply Z.mul_le_mono_nonneg_r; lia.
Qed.

Lemma round64_mono (m1 m2 e : Z) :
  0 < m1 -> m1 <= m2 -> round64 m1 e <= round64 m2 e.
Proof.
  intros H1 H12.
  assert (Hl : Z.log2 m1 <= Z.log2 m2) by (apply Z.log2_le_mono; lia).
  destruct (Z.eq_dec (fexp64 (Z.log2 m1 + 1 + e)) (fexp64 (Z.log2 m2 + 1 + e)))
    as [E | NE].
  - unfold round64. rewrite <- E.
    set (c := fexp64 (Z.log2 m1 + 1 + e)).
    assert (Hc : -1074 <= c) by (unfold c, fexp64; lia).
    destruct (Z.ltb_spec e c) as [L | G].
    + assert (H2 : 0 < 2 ^ (c + 1074)) by (apply pow2_pos; lia).
      assert (rne m1 (c - e) <= rne m2 (c - e)) by (apply rne_mono; lia).
      apply Z.mul_le_mono_nonneg_r; lia.
    + assert (H2 : 0 < 2 ^ (e + 1074)) by (apply pow2_pos; lia).
      apply Z.mul_le_mono_nonneg_r; lia.
  - assert (Hlt : Z.log2 m1 < Z.log2 m2).
    { destruct (Z.eq_dec (Z.log2 m1) (Z.log2 m2)) as [E' | ]; [| lia].
      rewrite E' in NE. contradiction. }
    assert (Hlow : -1074 <= Z.log2 m2 + e).
    { unfold fexp64 in NE. lia. }
    eapply Z.le_trans; [apply round64_upper; lia |].
    eapply Z.le_trans; [| apply round64_lower; lia].
    apply pow2_le. unfold fexp64 in NE. lia.
Qed.

Lemma round64_exact (a i : Z) :
  0 < a < 2 ^ 53 -> 0 <= i -> round64 (a * 2 ^ i) (-1074) = a * 2 ^ i.
Proof.
  intros [Ha Hb] Hi. unfold round64.
  rewrite log2_shift by lia.
  assert (Hl : Z.log2 a < 53) by (apply Z.log2_lt_pow2; lia).
  assert (Hl0 : 0 <= Z.log2 a) by apply Z.log2_nonneg.
  set (l := Z.log2 a) in *.
  unfold fexp64.
  destruct (Z.ltb_spec (-1074) (Z.max (l + i + 1 + -1074 - 53) (-1074)))
    as [L | G].
  - replace (Z.max (l + i + 1 + -1074 - 53) (-1074)) with (l + i - 1126)
      by lia.
    set (k := l + i - 1126 - -1074).
    assert (Hk : k = l + i - 52) by (unfold k; lia).
    replace (a * 2 ^ i) with (a * 2 ^ (i - k) * 2 ^ k).
    2:{ rewrite <- Z.mul_assoc, <- pow2_split by lia. f_equal. f_equal. lia. }
    rewrite rne_exact.
    + replace (l + i - 1126 + 1074) with k by lia. reflexivity.
    + assert (0 < 2 ^ (i - k)) by (apply pow2_pos; lia). nia.
    + lia.
  - replace (-1074 + 1074) with 0 by lia. simpl. lia.
Qed.


Lemma Zdigits2_le (M k : Z) : 0 <= M < 2 ^ k -> 0 <= k -> Zdigits2 M <= k.
Proof.
  intros [H0 H1] Hk. destruct M as [| p | p]; [simpl; lia | | lia].
  simpl Zdigits2. destruct (digits_bounds p) as [B1 _].
  destruct (Z.le_gt_cases (Zpos (digits2_pos p)) k) as [L | G]; [exact L |].
  assert (2 ^ k <= 2 ^ (Zpos (digits2_pos p) - 1)) by (apply pow2_le; lia).
  lia.
Qed.

Lemma shr_none (rec : shr_record) (e n : Z) :
  n <= 0 -> shr rec e n = (rec, e).
Proof. intro H. destruct n; [reflexivity | lia | reflexivity]. Qed.

(** binary_round_aux on an exact mantissa whose exponent is not above the
    canonical one *)
Lemma binary_round_aux_spec (m : positive) (e : Z) :
  e <= fexp64 (Zpos (digits2_pos m) + e) ->
  Zpos (digits2_pos m) + e <= 1023 ->
  SFZ (binary_round_aux prec emax false (Zpos m) e loc_Exact)
  = Some (round64 (Zpos m) e).
Proof.
  intros He Hmax.
  unfold round64. rewrite <- digits_log2.
  set (d := Zpos (digits2_pos m)) in *.
  set (c := fexp64 (d + e)) in *.
  assert (Hc : c = Z.max (d + e - 53) (-1074)) by reflexivity.
  destruct (digits_bounds m) as [B1 B2]. fold d in B1, B2.
  assert (Hd : 1 <= d) by (unfold d; lia).
  assert (Hfirst : shr_fexp prec emax (Zpos m) e loc_Exact
                   = shr {| shr_m := Zpos m; shr_r := false; shr_s := false |}
                       e (c - e)) by reflexivity.
  assert (Hsecond : forall M e',
             shr_fexp prec emax M e' loc_Exact
             = shr {| shr_m := M; shr_r := false; shr_s := false |}
                 e' (fexp64 (Zdigits2 M + e') - e')) by reflexivity.
  unfold binary_round_aux. rewrite Hfirst.
  destruct (Z.ltb_spec e c) as [L | G].
  - (* a shift by c - e, then rounding *)
    destruct (c - e) as [| p | p] eqn:En; [lia | | lia].
    cbn [shr]. replace (e + Zpos p) with c by lia.
    rewrite shr_round by lia.
    set (M := rne (Zpos m) (Zpos p)).
    assert (HM0 : 0 <= M).
    { apply (rne_ge (Zpos m) 0 (Zpos p)); lia. }
    assert (HM1 : M <= 2 ^ 53).
    { apply rne_le; [lia | lia |].
      rewrite <- pow2_split by lia.
      assert (2 ^ d <= 2 ^ (53 + Zpos p)) by (apply pow2_le; lia). lia. }
    rewrite Hsecond.
    destruct (Z.eq_dec M (2 ^ 53)) as [E | NE].
    + rewrite E. change (2 ^ 53) with 9007199254740992.
      change (Zdigits2 9007199254740992) with 54.
      replace (fexp64 (54 + c) - c) with 1 by (unfold fexp64; lia).
      cbn [shr iter_pos]. cbn [shr_1 shr_m].
      replace (c + 1 <=? emax - prec) with true
        by (symmetry; apply Z.leb_le; change (emax - prec) with 971; lia).
      cbn [SFZ]. f_equal.
      replace (c + 1 + 1074) with (1 + (c + 1074)) by lia.
      rewrite (pow2_split 1 (c + 1074)) by lia.
      change (2 ^ 1) with 2. lia.
    + assert (Hdig : Zdigits2 M <= 53) by (apply Zdigits2_le; lia).
      rewrite shr_none by (unfold fexp64; lia).
      cbn [shr_m].
      destruct M as [| q | q] eqn:EM; [| | lia].
      * cbn [SFZ]. reflexivity.
      * replace (c <=? emax - prec) with true
          by (symmetry; apply Z.leb_le; change (emax - prec) with 971; lia).
        reflexivity.
  - (* no shift *)
    assert (E : c = e) by lia.
    rewrite shr_none by lia. cbn [shr_m round_nearest_even loc_of_shr_record].
    rewrite Hsecond.
    change (Zdigits2 (Zpos m)) with d. fold c.
    rewrite shr_none by lia.
    cbn [shr_m].
    replace (e <=? emax - prec) with true
      by (symmetry; apply Z.leb_le; change (emax - prec) with 971; lia).
    reflexivity.
Qed.

Lemma iter_xO (m d : positive) :
  Zpos (Pos.iter xO m d) = Zpos m * 2 ^ Zpos d.
Proof.
  induction d as [| d IH] using Pos.peano_ind.
  - simpl. lia.
  - rewrite Pos.iter_succ, Pos2Z.inj_xO, IH, Pos2Z.inj_succ.
    rewrite Z.pow_succ_r by lia. lia.
Qed.

Lemma shl_align_spec (m : positive) (e e' : Z) :
  e' <= e ->
  Zpos (fst (shl_align m e e')) = Zpos m * 2 ^ (e - e')
  /\ snd (shl_align m e e') = e'.
Proof.
  intro H. unfold shl_align.
  destruct (e' - e) as [| p | p] eqn:E; [| lia |].
  - assert (e' = e) by lia. subst. rewrite Z.sub_diag. simpl. split; lia.
  - cbn [fst snd]. rewrite iter_xO. split; [| reflexivity].
    f_equal. f_equal. lia.
Qed.

Lemma shl_align_none (m : positive) (e e' : Z) :
  e <= e' -> shl_align m e e' = (m, e).
Proof.
  intro H. unfold shl_align.
  destruct (e' - e) as [| p | p] eqn:E; [reflexivity | reflexivity | lia].
Qed.

Lemma binary_round_spec (m : positive) (e : Z) :
  Zpos (digits2_pos m) + e <= 1023 ->
  SFZ (binary_round prec emax false m e) = Some (round64 (Zpos m) e).
Proof.
  intro Hmax. unfold binary_round. change (fexp prec emax) with fexp64.
  set (c := fexp64 (Zpos (digits2_pos m) + e)).
  destruct (Z.le_gt_cases e c) as [L | G].
  - rewrite shl_align_none by exact L.
    apply binary_round_aux_spec; [exact L | exact Hmax].
  - destruct (shl_align_spec m e c ltac:(lia)) as [H1 H2].
    destruct (shl_align m e c) as [mz ez]. cbn [fst snd] in H1, H2. subst ez.
    assert (Hd : Zpos (digits2_pos mz) = Zpos (digits2_pos m) + (e - c)).
    { rewrite !digits_log2, H1, log2_shift by lia. lia. }
    rewrite binary_round_aux_spec.
    + rewrite H1. f_equal.
      rewrite <- (round64_scale (Zpos m) e (e - c)) by lia.
      f_equal. lia.
    + rewrite Hd. replace (Zpos (digits2_pos m) + (e - c) + c)
        with (Zpos (digits2_pos m) + e) by lia.
      fold c. lia.
    + rewrite Hd. lia.
Qed.


Lemma round64_zero (e : Z) : round64 0 e = 0.
Proof.
  unfold round64. change (Z.log2 0) with 0.
  destruct (e <? fexp64 (0 + 1 + e)); [| reflexivity].
  unfold rne. rewrite Z.testbit_0_l. reflexivity.
Qed.

Lemma round64_nonneg (m e : Z) : 0 <= m -> 0 <= round64 m e.
Proof.
  intro Hm. unfold round64.
  set (c := fexp64 (Z.log2 m + 1 + e)).
  assert (Hc : -1074 <= c) by (unfold c, fexp64; lia).
  destruct (Z.ltb_spec e c).
  - apply Z.mul_nonneg_nonneg; [| apply Z.lt_le_incl, pow2_pos; lia].
    apply (rne_ge m 0 (c - e)); lia.
  - apply Z.mul_nonneg_nonneg; [lia | apply Z.lt_le_incl, pow2_pos; lia].
Qed.

Lemma round64_mono0 (m1 m2 e : Z) :
  0 <= m1 -> m1 <= m2 -> round64 m1 e <= round64 m2 e.
Proof.
  intros H1 H12. destruct (Z.eq_dec m1 0) as [-> | NE].
  - rewrite round64_zero. apply round64_nonneg. lia.
  - apply round64_mono; lia.
Qed.

(** A finite double is canonical. *)
Lemma finite_canonical (x : float) (s : bool) (m : positive) (e : Z) :
  Prim2SF x = S754_finite s m e ->
  fexp64 (Zpos (digits2_pos m) + e) = e /\ e <= 971.
Proof.
  intro H. assert (Hv := Prim2SF_valid x). rewrite H in Hv.
  unfold valid_binary, bounded, canonical_mantissa in Hv.
  apply andb_prop in Hv as [H1 H2].
  apply Z.eqb_eq in H1. apply Z.leb_le in H2.
  split; [exact H1 | exact H2].
Qed.

Lemma canonical_bounds (m : positive) (e : Z) :
  fexp64 (Zpos (digits2_pos m) + e) = e ->
  -1074 <= e /\ Zpos m < 2 ^ 53
  /\ (Zpos (digits2_pos m) = 53 \/ e = -1074).
Proof.
  intro H. unfold fexp64 in H.
  destruct (digits_bounds m) as [B1 B2].
  assert (Hd : Zpos (digits2_pos m) <= 53) by lia.
  split; [lia |]. split; [| lia].
  assert (2 ^ Zpos (digits2_pos m) <= 2 ^ 53) by (apply pow2_le; lia). lia.
Qed.

Lemma finite_value_exact (m : positive) (e : Z) :
  fexp64 (Zpos (digits2_pos m) + e) = e ->
  round64 (Zpos m * 2 ^ (e + 1074)) (-1074) = Zpos m * 2 ^ (e + 1074).
Proof.
  intro H. destruct (canonical_bounds m e H) as (H1 & H2 & _).
  apply round64_exact; lia.
Qed.

Lemma digits_scaled_bound (m : positive) (j K : Z) :
  0 <= j -> Zpos m * 2 ^ j < 2 ^ K -> Zpos (digits2_pos m) + j <= K.
Proof.
  intros Hj H. destruct (digits_bounds m) as [B1 _].
  set (d := Zpos (digits2_pos m)) in *.
  assert (Hd : 1 <= d) by (unfold d; lia).
  assert (HJ : 0 < 2 ^ j) by (apply pow2_pos; lia).
  destruct (Z.le_gt_cases (d + j) K) as [L | G]; [exact L |].
  assert (HK : 0 <= K).
  { destruct (Z.lt_ge_cases K 0) as [N | N]; [| exact N].
    rewrite (Z.pow_neg_r 2 K) in H by lia.
    assert (0 < Zpos m * 2 ^ j) by (apply Z.mul_pos_pos; lia). lia. }
  assert (H0 : 2 ^ K <= 2 ^ (d - 1 + j)) by (apply pow2_le; lia).
  rewrite pow2_split in H0 by lia.
  assert (2 ^ (d - 1) * 2 ^ j <= Zpos m * 2 ^ j)
    by (apply Z.mul_le_mono_nonneg_r; lia).
  lia.
Qed.

Lemma SFZ_finite (s : bool) (m : positive) (e v : Z) :
  SFZ (S754_finite s m e) = Some v ->
  s = false /\ v = Zpos m * 2 ^ (e + 1074).
Proof.
  destruct s; [discriminate |]. cbn [SFZ]. intro H.
  split; [reflexivity | congruence].
Qed.

Lemma SFZ_zero (s : bool) (v : Z) : SFZ (S754_zero s) = Some v -> v = 0.
Proof. cbn [SFZ]. congruence. Qed.

Lemma add_V (x y : float) (vx vy : Z) :
  V x = Some vx -> V y = Some vy ->
  vx + vy < 2 ^ (1023 + 1074) ->
  V (x + y) = Some (round64 (vx + vy) (-1074)).
Proof.
  unfold V. intros Hx Hy Hb. rewrite FloatAxioms.add_spec.
  destruct (Prim2SF x) as [sx | sx | | sx mx ex] eqn:Ex; try discriminate;
    destruct (Prim2SF y) as [sy | sy | | sy my ey] eqn:Ey; try discriminate.
  - apply SFZ_zero in Hx, Hy. subst vx vy. rewrite round64_zero.
    destruct sx, sy; reflexivity.
  - apply SFZ_zero in Hx. apply SFZ_finite in Hy as [-> Hy]. subst vx vy.
    destruct (finite_canonical y _ _ _ Ey) as [Hc _].
    cbn [SF64add SFadd SFZ]. rewrite Z.add_0_l, finite_value_exact by exact Hc.
    reflexivity.
  - apply SFZ_zero in Hy. apply SFZ_finite in Hx as [-> Hx]. subst vx vy.
    destruct (finite_canonical x _ _ _ Ex) as [Hc _].
    cbn [SF64add SFadd SFZ]. rewrite Z.add_0_r, finite_value_exact by exact Hc.
    reflexivity.
  - apply SFZ_finite in Hx as [-> Hx]. apply SFZ_finite in Hy as [-> Hy].
    subst vx vy.
    destruct (finite_canonical x _ _ _ Ex) as [Hcx _].
    destruct (finite_canonical y _ _ _ Ey) as [Hcy _].
    destruct (canonical_bounds _ _ Hcx) as (Hex & _ & _).
    destruct (canonical_bounds _ _ Hcy) as (Hey & _ & _).
    unfold SF64add, SFadd. cbn [cond_Zopp].
    set (ez := Z.min ex ey).
    destruct (shl_align_spec mx ex ez ltac:(lia)) as [Hmx _].
    destruct (shl_align_spec my ey ez ltac:(lia)) as [Hmy _].
    set (mx' := fst (shl_align mx ex ez)) in *.
    set (my' := fst (shl_align my ey ez)) in *.
    change (Zpos mx' + Zpos my') with (Zpos (mx' + my')).
    cbn [binary_normalize].
    assert (Hsum : Zpos (mx' + my') * 2 ^ (ez + 1074)
                   = Zpos mx * 2 ^ (ex + 1074) + Zpos my * 2 ^ (ey + 1074)).
    { rewrite Pos2Z.inj_add, Hmx, Hmy, Z.mul_add_distr_r.
      rewrite <- !Z.mul_assoc, <- !pow2_split by lia.
      f_equal; f_equal; f_equal; lia. }
    rewrite binary_round_spec.
    + f_equal. rewrite <- Hsum.
      rewrite <- (round64_scale (Zpos (mx' + my')) ez (ez + 1074)) by lia.
      f_equal. lia.
    + rewrite <- Hsum in Hb.
      apply digits_scaled_bound in Hb; lia.
Qed.


Lemma digits_mul_ge (a b : positive) :
  Zpos (digits2_pos a) + Zpos (digits2_pos b) - 1
  <= Zpos (digits2_pos (a * b)).
Proof.
  destruct (digits_bounds a) as [A1 _]. destruct (digits_bounds b) as [B1 _].
  destruct (digits_bounds (a * b)) as [_ C2].
  set (da := Zpos (digits2_pos a)) in *. set (db := Zpos (digits2_pos b)) in *.
  set (dc := Zpos (digits2_pos (a * b))) in *.
  assert (Ha : 1 <= da) by (unfold da; lia).
  assert (Hb : 1 <= db) by (unfold db; lia).
  assert (Hc : 1 <= dc) by (unfold dc; lia).
  destruct (Z.le_gt_cases (da + db - 1) dc) as [L | G]; [exact L |].
  assert (H : 2 ^ dc <= 2 ^ (da - 1 + (db - 1))) by (apply pow2_le; lia).
  rewrite pow2_split in H by lia.
  rewrite Pos2Z.inj_mul in C2.
  assert (2 ^ (da - 1) * 2 ^ (db - 1) <= Zpos a * Zpos b).
  { apply Z.mul_le_mono_nonneg; try lia;
      apply Z.lt_le_incl, pow2_pos; lia. }
  lia.
Qed.

Lemma mul_V (x y : float) (vx vy : Z) :
  V x = Some vx -> V y = Some vy ->
  vx * vy < 2 ^ (1023 + 2148) ->
  V (x * y) = Some (round64 (vx * vy) (-2148)).
Proof.
  unfold V. intros Hx Hy Hb. rewrite FloatAxioms.mul_spec.
  destruct (Prim2SF x) as [sx | sx | | sx mx ex] eqn:Ex; try discriminate;
    destruct (Prim2SF y) as [sy | sy | | sy my ey] eqn:Ey; try discriminate.
  - apply SFZ_zero in Hx, Hy. subst vx vy. rewrite round64_zero. reflexivity.
  - apply SFZ_zero in Hx. subst vx. rewrite Z.mul_0_l, round64_zero.
    reflexivity.
  - apply SFZ_zero in Hy. subst vy. rewrite Z.mul_0_r, round64_zero.
    reflexivity.
  - apply SFZ_finite in Hx as [-> Hx]. apply SFZ_finite in Hy as [-> Hy].
    subst vx vy.
    destruct (finite_canonical x _ _ _ Ex) as [Hcx _].
    destruct (finite_canonical y _ _ _ Ey) as [Hcy _].
    destruct (canonical_bounds _ _ Hcx) as (Hex & _ & Hnx).
    destruct (canonical_bounds _ _ Hcy) as (Hey & _ & Hny).
    unfold SF64mul, SFmul. cbn [xorb].
    assert (Hprod : Zpos (mx * my) * 2 ^ (ex + ey + 2148)
                    = Zpos mx * 2 ^ (ex + 1074)
                      * (Zpos my * 2 ^ (ey + 1074))).
    { rewrite Pos2Z.inj_mul.
      replace (ex + ey + 2148) with (ex + 1074 + (ey + 1074)) by lia.
      rewrite pow2_split by lia. ring. }
    assert (Hdig := digits_mul_ge mx my).
    assert (Hdx : 1 <= Zpos (digits2_pos mx)) by lia.
    assert (Hdy : 1 <= Zpos (digits2_pos my)) by lia.
    rewrite binary_round_aux_spec.
    + f_equal. rewrite <- Hprod.
      rewrite <- (round64_scale (Zpos (mx * my)) (ex + ey) (ex + ey + 2148))
        by lia.
      f_equal. lia.
    + unfold fexp64. lia.
    + rewrite <- Hprod in Hb. apply digits_scaled_bound in Hb; lia.
Qed.

Lemma of_uint63_V (z : Z) :
  0 <= z < 2 ^ 53 -> V (of_uint63 (of_Z z)) = Some (z * 2 ^ 1074).
Proof.
  intros [H0 H1]. unfold V. rewrite of_uint63_spec, of_Z_spec.
  rewrite Z.mod_small.
  2:{ split; [exact H0 |]. eapply Z.lt_trans; [exact H1 |]. reflexivity. }
  destruct z as [| p | p]; [reflexivity | | lia].
  cbn [binary_normalize].
  assert (Hd : Zpos (digits2_pos p) <= 53).
  { destruct (digits_bounds p) as [B1 _].
    destruct (Z.le_gt_cases (Zpos (digits2_pos p)) 53) as [L | G];
      [exact L |].
    assert (2 ^ 53 <= 2 ^ (Zpos (digits2_pos p) - 1))
      by (apply pow2_le; lia). lia. }
  rewrite binary_round_spec by lia. f_equal.
  unfold round64. rewrite <- digits_log2.
  replace (0 <? fexp64 (Zpos (digits2_pos p) + 0)) with false
    by (symmetry; apply Z.ltb_ge; unfold fexp64; lia).
  reflexivity.
Qed.

Lemma V_milli : V 0.001%float = Some milli.
Proof. vm_compute. reflexivity. Qed.

Lemma V_thousand : V 1000%float = Some (1000 * U).
Proof. vm_compute. reflexivity. Qed.

Lemma V_half : V 0.5%float = Some (2 ^ 1073).
Proof. vm_compute. reflexivity. Qed.

Lemma double_of_long_V (z : Z) :
  0 <= z < 2 ^ 53 -> V (double_of_long z) = Some (z * U).
Proof.
  intro H. unfold double_of_long.
  replace (z <? 0) with false by (symmetry; apply Z.ltb_ge; lia).
  apply of_uint63_V. exact H.
Qed.

Lemma ull_of_double_V (x : float) (v : Z) :
  V x = Some v -> v / U < 2 ^ 64 ->
  ull_of_double x = Some (v / U).
Proof.
  unfold V, ull_of_double, U. intros Hv Hb.
  destruct (Prim2SF x) as [s | s | | s m e] eqn:Ex; try discriminate.
  - apply SFZ_zero in Hv. subst v. reflexivity.
  - apply SFZ_finite in Hv as [-> Hv]. subst v.
    destruct (finite_canonical x _ _ _ Ex) as [Hc _].
    destruct (canonical_bounds _ _ Hc) as (He & _ & _).
    assert (HU : 0 < 2 ^ 1074) by (apply pow2_pos; lia).
    assert (Ht : Zpos m * 2 ^ (e + 1074) / 2 ^ 1074
                 = if 0 <=? e then Zpos m * 2 ^ e else Zpos m / 2 ^ (- e)).
    { destruct (Z.leb_spec 0 e) as [L | G].
      - rewrite pow2_split, Z.mul_assoc by lia. apply Z.div_mul. lia.
      - replace (2 ^ 1074) with (2 ^ (- e) * 2 ^ (e + 1074)).
        2:{ rewrite <- pow2_split by lia. f_equal. lia. }
        apply Z.div_mul_cancel_r; apply Z.neq_sym, Z.lt_neq, pow2_pos; lia. }
    rewrite <- Ht.
    replace (Zpos m * 2 ^ (e + 1074) / 2 ^ 1074 <? 2 ^ 64) with true
      by (symmetry; apply Z.ltb_lt; exact Hb).
    reflexivity.
Qed.

Lemma exact_units (n : Z) :
  0 <= n < 2 ^ 53 -> round64 (n * U) (-1074) = n * U.
Proof.
  unfold U. intros [H0 H1]. destruct (Z.eq_dec n 0) as [-> | NE].
  - apply round64_zero.
  - apply round64_exact; lia.
Qed.

Lemma exact_pow_units (k : Z) :
  0 <= k -> round64 (2 ^ k * U) (-1074) = 2 ^ k * U.
Proof.
  unfold U. intro Hk. rewrite <- pow2_split by lia.
  rewrite <- (Z.mul_1_l (2 ^ (k + 1074))).
  apply round64_exact; [| lia]. split; [lia | reflexivity].
Qed.

Lemma exact_product (n : Z) :
  0 <= n < 2 ^ 53 ->
  round64 (n * U * U) (-2148) = n * U.
Proof.
  unfold U. intros [H0 H1]. destruct (Z.eq_dec n 0) as [-> | NE].
  - apply round64_zero.
  - assert (HU : 0 < 2 ^ 1074) by (apply pow2_pos; lia).
    change (-2148) with (-1074 - 1074).
    rewrite round64_scale by nia.
    apply round64_exact; lia.
Qed.

Lemma U_pos : 0 < U.
Proof. apply pow2_pos. lia. Qed.

Lemma milli_bounds : 0 < milli /\ 999999 * milli <= 1000 * U.
Proof. split; vm_compute; [reflexivity | discriminate]. Qed.

Lemma units_bound (x k : Z) :
  x <= 2 ^ k * U -> 0 <= k <= 1022 -> x < 2 ^ (1023 + 1074).
Proof.
  intros Hx [K0 K1]. assert (HU := U_pos).
  rewrite (pow2_split 1023 1074) by lia. fold U.
  eapply Z.le_lt_trans; [exact Hx |].
  apply Z.mul_lt_mono_pos_r; [exact HU |].
  apply Z.pow_lt_mono_r; lia.
Qed.

Lemma half_le_unit : 2 ^ 1073 <= U.
Proof. unfold U. apply pow2_le. lia. Qed.

Section Nonce.

Variable tv : timeval.
Hypothesis Hrange : in_range tv.

Lemma seconds_value :
  V (double_of_long (tv_sec tv) * 1000)%float
  = Some (tv_sec tv * 1000 * U).
Proof.
  destruct Hrange as [[S0 S1] _].
  assert (HU := U_pos).
  assert (S2 : tv_sec tv * 1000 < 2 ^ 53).
  { change (2 ^ 43) with 8796093022208 in S1.
    change (2 ^ 53) with 9007199254740992. lia. }
  rewrite (mul_V _ _ (tv_sec tv * U) (1000 * U)).
  - f_equal.
    replace (tv_sec tv * U * (1000 * U)) with (tv_sec tv * 1000 * U * U)
      by ring.
    apply exact_product. lia.
  - apply double_of_long_V. split; [lia |].
    change (2 ^ 43) with 8796093022208 in S1.
    change (2 ^ 53) with 9007199254740992. lia.
  - exact V_thousand.
  - replace (tv_sec tv * U * (1000 * U)) with (tv_sec tv * 1000 * (U * U))
      by ring.
    unfold U. rewrite <- pow2_split by lia.
    change (2 ^ (1023 + 2148)) with (2 ^ 1023 * 2 ^ (1074 + 1074)).
    assert (0 < 2 ^ (1074 + 1074)) by (apply pow2_pos; lia).
    apply Z.mul_lt_mono_pos_r; [assumption |].
    eapply Z.lt_trans; [exact S2 |]. reflexivity.
Qed.

Lemma micro_bounds : 0 <= micro_value tv <= 1000 * U.
Proof.
  destruct Hrange as [_ [M0 M1]]. destruct milli_bounds as [Hm Hb].
  assert (HU := U_pos). unfold micro_value. split.
  - apply round64_nonneg.
    apply Z.mul_nonneg_nonneg; [apply Z.mul_nonneg_nonneg |]; lia.
  - rewrite <- (exact_product 1000) by (split; [lia | reflexivity]).
    apply round64_mono0.
    + apply Z.mul_nonneg_nonneg; [apply Z.mul_nonneg_nonneg |]; lia.
    + assert (tv_usec tv * milli <= 999999 * milli)
        by (apply Z.mul_le_mono_nonneg_r; lia).
      replace (tv_usec tv * U * milli) with (tv_usec tv * milli * U) by ring.
      apply Z.mul_le_mono_nonneg_r; lia.
Qed.

Lemma micros_value :
  V (double_of_long (tv_usec tv) * 0.001)%float = Some (micro_value tv).
Proof.
  destruct Hrange as [_ [M0 M1]]. destruct milli_bounds as [Hm Hb].
  assert (HU := U_pos).
  rewrite (mul_V _ _ (tv_usec tv * U) milli).
  - reflexivity.
  - apply double_of_long_V. split; [lia |].
    eapply Z.lt_trans; [exact M1 |]. reflexivity.
  - exact V_milli.
  - assert (tv_usec tv * milli <= 1000 * U).
    { eapply Z.le_trans; [| exact Hb].
      apply Z.mul_le_mono_nonneg_r; lia. }
    replace (tv_usec tv * U * milli) with (tv_usec tv * milli * U) by ring.
    eapply Z.le_lt_trans;
      [apply (Z.mul_le_mono_nonneg_r _ (1000 * U) U); lia |].
    replace (1000 * U * U) with (1000 * (U * U)) by ring.
    unfold U. rewrite <- pow2_split by lia.
    change (2 ^ (1023 + 2148)) with (2 ^ 1023 * 2 ^ (1074 + 1074)).
    assert (0 < 2 ^ (1074 + 1074)) by (apply pow2_pos; lia).
    apply Z.mul_lt_mono_pos_r; [assumption | reflexivity].
Qed.

Lemma sum_bounds : 0 <= sum_value tv <= 2 ^ 54 * U.
Proof.
  destruct Hrange as [[S0 S1] _]. destruct micro_bounds as [G0 G1].
  assert (HU := U_pos). unfold sum_value. split.
  - apply round64_nonneg. nia.
  - rewrite <- (exact_pow_units 54) by lia.
    apply round64_mono0; [nia |].
    change (2 ^ 43) with 8796093022208 in S1.
    change (2 ^ 54) with 18014398509481984. nia.
Qed.

Lemma nonce_double_value :
  V (nonce_double tv)
  = Some (round64 (sum_value tv + 2 ^ 1073) (-1074)).
Proof.
  destruct Hrange as [[S0 S1] _]. destruct micro_bounds as [G0 G1].
  destruct sum_bounds as [T0 T1]. assert (HU := U_pos).
  assert (Hh := half_le_unit).
  change (2 ^ 43) with 8796093022208 in S1.
  change (2 ^ 54) with 18014398509481984 in T1.
  unfold nonce_double.
  rewrite (add_V _ _ (sum_value tv) (2 ^ 1073)).
  - reflexivity.
  - rewrite (add_V _ _ (tv_sec tv * 1000 * U) (micro_value tv)).
    + reflexivity.
    + exact seconds_value.
    + exact micros_value.
    + apply (units_bound _ 54); [| lia].
      change (2 ^ 54) with 18014398509481984. nia.
  - exact V_half.
  - apply (units_bound _ 55); [| lia].
    change (2 ^ 55) with 36028797018963968. nia.
Qed.

Lemma nonce_of_value : nonce_of tv = Some (nonce_model tv).
Proof.
  destruct sum_bounds as [T0 T1]. assert (HU := U_pos).
  assert (Hh := half_le_unit).
  unfold nonce_of.
  rewrite (ull_of_double_V _ _ nonce_double_value).
  - reflexivity.
  - assert (Hr : round64 (sum_value tv + 2 ^ 1073) (-1074) <= 2 ^ 55 * U).
    { rewrite <- (exact_pow_units 55) by lia.
      apply round64_mono0.
      - assert (0 < 2 ^ 1073) by (apply pow2_pos; lia). lia.
      - change (2 ^ 54) with 18014398509481984 in T1.
        change (2 ^ 55) with 36028797018963968. nia. }
    apply Z.div_lt_upper_bound; [exact HU |].
    eapply Z.le_lt_trans; [exact Hr |].
    rewrite (Z.mul_comm U). apply Z.mul_lt_mono_pos_r; [exact HU |].
    reflexivity.
Qed.

End Nonce.

Lemma nonce_model_mono (a b : timeval) :
  in_range a -> in_range b -> tv_le a b ->
  nonce_model a <= nonce_model b.
Proof.
  intros Ha Hb Hle. assert (HU := U_pos).
  destruct (micro_bounds a Ha) as [A0 A1].
  destruct (micro_bounds b Hb) as [B0 B1].
  destruct Ha as [[Sa0 Sa1] [Ma0 Ma1]]. destruct Hb as [[Sb0 Sb1] [Mb0 Mb1]].
  destruct (milli_bounds) as [Hm _].
  unfold nonce_model, sum_value.
  apply Z.div_le_mono; [exact HU |].
  assert (Hsum : tv_sec a * 1000 * U + micro_value a
                 <= tv_sec b * 1000 * U + micro_value b).
  { destruct Hle as [Hlt | [Heq Hu]].
    - assert ((tv_sec a + 1) * 1000 * U <= tv_sec b * 1000 * U).
      { apply Z.mul_le_mono_nonneg_r; lia. }
      lia.
    - rewrite Heq.
      assert (micro_value a <= micro_value b).
      { unfold micro_value. apply round64_mono0.
        - apply Z.mul_nonneg_nonneg; [apply Z.mul_nonneg_nonneg |]; lia.
        - apply Z.mul_le_mono_nonneg_r; [lia |].
          apply Z.mul_le_mono_nonneg_r; lia. }
      lia. }
  apply round64_mono0.
  - assert (0 <= round64 (tv_sec a * 1000 * U + micro_value a) (-1074)).
    { apply round64_nonneg. nia. }
    assert (0 < 2 ^ 1073) by (apply pow2_pos; lia). lia.
  - assert (round64 (tv_sec a * 1000 * U + micro_value a) (-1074)
            <= round64 (tv_sec b * 1000 * U + micro_value b) (-1074)).
    { apply round64_mono0; [nia | exact Hsum]. }
    lia.
Qed.

(** *** Nonces of successive calls *)

Section Nonces.

Variable HMAC_SHA384 : string -> string -> string.
Variable params : Parameters.

Lemma authRequest_world :
  forall (request options : string) (w : World),
    in_range (wall_clock w (clock_reads w)) ->
    exists o : ostream,
      snd (authRequest HMAC_SHA384 params request options w)
      = set_log o
          (after_request
             (signed_request HMAC_SHA384 params request
                (nonce_model (wall_clock w (clock_reads w))) options) w).
Proof.
  intros request options w Hr.
  rewrite (authRequest_run HMAC_SHA384 params request options w _
             (nonce_of_value _ Hr)).
  cbv zeta.
  destruct (exchange w (wire w) _) as [root |].
  - destruct (checkResponse_run (Some root)
                (after_request
                   (signed_request HMAC_SHA384 params request
                      (nonce_model (wall_clock w (clock_reads w))) options)
                   w)) as [o ->].
    exists o. reflexivity.
  - exists (logFile w). reflexivity.
Qed.

Lemma run_calls_wire :
  forall (calls : list (string * string)) (w : World),
    (forall i, in_range (wall_clock w i)) ->
    wire (run_calls HMAC_SHA384 params calls w)
    = (wire w
       ++ signed_requests HMAC_SHA384 params calls
            (nonces_from (wall_clock w) (clock_reads w)
               (List.length calls)))%list.
Proof.
  induction calls as [| [request options] rest IH]; intros w Hr.
  - simpl. rewrite app_nil_r. reflexivity.
  - destruct (authRequest_world request options w (Hr _)) as [o Ho].
    cbn [run_calls]. rewrite Ho, IH by exact Hr.
    cbn [List.length nonces_from signed_requests].
    cbn [set_log after_request wire wall_clock clock_reads].
    rewrite <- app_assoc. reflexivity.
Qed.

Lemma nonces_from_nth :
  forall (clock : nat -> timeval) (n k i : nat),
    (i < n)%nat ->
    nth i (nonces_from clock k n) 0 = nonce_model (clock (k + i)%nat).
Proof.
  intros clock. induction n as [| n IH]; intros k i Hi; [lia |].
  destruct i as [| i]; cbn [nonces_from nth].
  - rewrite Nat.add_0_r. reflexivity.
  - rewrite IH by lia. f_equal. f_equal. lia.
Qed.

Lemma nonces_from_lower :
  forall (clock : nat -> timeval) (x : Z) (n k : nat),
    (forall j, (k <= j)%nat -> x <= nonce_model (clock j)) ->
    Forall (fun y => x <= y) (nonces_from clock k n).
Proof.
  intros clock x. induction n as [| n IH]; intros k H; cbn [nonces_from].
  - constructor.
  - constructor; [apply H; lia |]. apply IH. intros j Hj. apply H. lia.
Qed.

Lemma nonces_from_sorted :
  forall (clock : nat -> timeval) (n k : nat),
    (forall i, in_range (clock i)) -> clock_monotone clock ->
    StronglySorted Z.le (nonces_from clock k n).
Proof.
  intros clock. induction n as [| n IH]; intros k Hr Hm; cbn [nonces_from].
  - constructor.
  - constructor; [apply IH; assumption |].
    apply nonces_from_lower. intros j Hj.
    apply nonce_model_mono; [apply Hr | apply Hr | apply Hm; lia].
Qed.

Lemma nonce_model_nonneg (tv : timeval) :
  in_range tv -> 0 <= nonce_model tv.
Proof.
  intro Hr. destruct (sum_bounds tv Hr) as [T0 _].
  unfold nonce_model. apply Z.div_pos; [| apply U_pos].
  apply round64_nonneg.
  assert (0 < 2 ^ 1073) by (apply pow2_pos; lia). lia.
Qed.

Lemma emitted_signed :
  forall (clock : nat -> timeval) (calls : list (string * string)) (k : nat),
    Forall valid_call calls ->
    (forall i, in_range (clock i)) ->
    map payload_nonce
      (signed_requests HMAC_SHA384 params calls
         (nonces_from clock k (List.length calls)))
    = map Some (nonces_from clock k (List.length calls)).
Proof.
  intros clock. induction calls as [| [request options] rest IH];
    intros k Hv Hr; [reflexivity |].
  inversion Hv as [| c l Hc Hl]; subst.
  cbn [List.length nonces_from signed_requests map].
  assert (Hq := payload_nonce_signed HMAC_SHA384 params (request, options)
                  _ Hc (nonce_model_nonneg _ (Hr k))).
  cbn [fst snd] in Hq. rewrite Hq.
  rewrite IH by assumption. reflexivity.
Qed.

(** C2, as the code has it: no nonce is kept from one call to the next; the
    nonce of a call is computed from the reading of the clock that the call
    takes.  When the readings never go backward, the nonces carried by the
    requests of successive calls are non-decreasing; they are the nonces that
    the decoded payloads show when the calls are valid. *)
Theorem nonces_follow_clock :
  forall (calls : list (string * string)) (w : World),
    (forall i, in_range (wall_clock w i)) ->
    clock_monotone (wall_clock w) ->
    let nonces :=
      nonces_from (wall_clock w) (clock_reads w) (List.length calls) in
    wire (run_calls HMAC_SHA384 params calls w)
    = (wire w ++ signed_requests HMAC_SHA384 params calls nonces)%list
    /\ (forall i, (i < List.length calls)%nat ->
                  nonce_of (wall_clock w (clock_reads w + i)%nat)
                  = Some (nth i nonces 0))
    /\ StronglySorted Z.le nonces
    /\ (Forall valid_call calls ->
        emitted_nonces (run_calls HMAC_SHA384 params calls w)
        = (emitted_nonces w ++ map Some nonces)%list).
Proof.
  intros calls w Hr Hm nonces. split; [| split; [| split]].
  - apply run_calls_wire. exact Hr.
  - intros i Hi. unfold nonces. rewrite nonces_from_nth by exact Hi.
    apply nonce_of_value. apply Hr.
  - apply nonces_from_sorted; assumption.
  - intro Hv. unfold emitted_nonces.
    rewrite run_calls_wire by exact Hr.
    rewrite map_app. f_equal. apply emitted_signed; assumption.
Qed.

End Nonces.

(** C2 fails as stated: when the clock is set back by one second between two
    calls, the second request carries a smaller nonce than the first. *)
Lemma nonce_goes_backward :
  emitted_nonces
    (run_calls no_hmac demo_params
       [("/v1/balances", EmptyString); ("/v1/balances", EmptyString)]
       (initial_world clock_back (always (JArray []))))
  = [Some 1700000000000; Some 1699999999000]
  /\ 1699999999000 < 1700000000000.
Proof. split; [vm_compute; reflexivity | lia]. Qed.

Lemma clock_forward_in_range : forall i, in_range (clock_forward i).
Proof.
  intros [| [| i]]; unfold in_range; simpl; repeat split; try lia;
    reflexivity.
Qed.

Lemma clock_forward_monotone : clock_monotone clock_forward.
Proof.
  intros [| [| i]] [| [| j]] Hij; unfold tv_le; simpl; lia.
Qed.

Lemma nonces_follow_clock_witness :
  emitted_nonces
    (run_calls no_hmac demo_params
       [("/v1/balances", EmptyString);
        ("/v1/order/status", lit "'order_id':448411153");
        ("/v1/positions", EmptyString)]
       (initial_world clock_forward (always (JArray []))))
  = [Some 1700000001000; Some 1700000001000; Some 1700000001001]
  /\ StronglySorted Z.le
       (nonces_from clock_forward 0 3).
Proof.
  destruct (nonces_follow_clock no_hmac demo_params
              [("/v1/balances", EmptyString);
               ("/v1/order/status", lit "'order_id':448411153");
               ("/v1/positions", EmptyString)]
              (initial_world clock_forward (always (JArray [])))
              clock_forward_in_range clock_forward_monotone)
    as (_ & _ & Hs & He).
  split; [| exact Hs].
  rewrite He.
  - vm_compute. reflexivity.
  - apply Forall_cons; [split; [reflexivity | left; reflexivity] |].
    apply Forall_cons.
    { split; [reflexivity |].
      right. exists [("order_id", JInteger 448411153)].
      split; [discriminate | vm_compute; reflexivity]. }
    apply Forall_cons; [split; [reflexivity | left; reflexivity] |].
    apply Forall_nil.
Defined.

(** *** Requests, error documents and edges of the book *)

Section Effects.

Variable HMAC_SHA384 : string -> string -> string.
Variable params : Parameters.

Lemma set_log_same (w : World) : set_log (logFile w) w = w.
Proof. destruct w; reflexivity. Qed.

Lemma set_log_twice (o o' : ostream) (w : World) :
  set_log o (set_log o' w) = set_log o w.
Proof. reflexivity. Qed.

Lemma logs_only_ret {A} (a : A) : logs_only (ret a).
Proof. intro w. exists (logFile w). symmetry. apply set_log_same. Qed.

Lemma logs_only_undefined {A} : logs_only (@undefined A).
Proof. intro w. exists (logFile w). symmetry. apply set_log_same. Qed.

Lemma logs_only_throw {A} (e : exn) : logs_only (@throw A e).
Proof. intro w. exists (logFile w). symmetry. apply set_log_same. Qed.

Lemma logs_only_log (s : string) : logs_only (log s).
Proof. intro w. eexists. reflexivity. Qed.

Lemma logs_only_bind {A B} (m : M A) (k : A -> M B) :
  logs_only m -> (forall a, logs_only (k a)) -> logs_only (bind m k).
Proof.
  intros Hm Hk w. unfold bind. destruct (Hm w) as [o Ho].
  destruct (m w) as [[a | e |] w1]; cbn [snd] in Ho; subst w1.
  - destruct (Hk a (set_log o w)) as [o' Ho']. exists o'.
    rewrite Ho'. reflexivity.
  - exists o. reflexivity.
  - exists o. reflexivity.
Qed.

Lemma logs_only_atof (p : option string) : logs_only (atof_cstr p).
Proof.
  destruct p; [apply logs_only_ret | apply logs_only_undefined].
Qed.

Lemma logs_only_stod (s : string) : logs_only (stod s).
Proof.
  unfold stod. destruct (strtod s) as [| v []];
    first [apply logs_only_ret | apply logs_only_throw].
Qed.

Lemma logs_only_checkResponse (root : json_ptr) :
  logs_only (checkResponse root).
Proof.
  intro w. destruct (checkResponse_run root w) as [o Ho].
  exists o. rewrite Ho. reflexivity.
Qed.

Lemma logs_only_getLimitPrice_loop :
  forall (bidask : json_ptr) (volume : float) (k i : nat) (tmpVol p : float),
    logs_only (getLimitPrice_loop params bidask volume k i tmpVol p).
Proof.
  intros bidask volume k. induction k as [| k IH]; intros i tmpVol p.
  - apply logs_only_ret.
  - cbn [getLimitPrice_loop].
    apply logs_only_bind; [apply logs_only_atof | intro p'].
    apply logs_only_bind; [apply logs_only_atof | intro v].
    apply logs_only_bind; [apply logs_only_log | intros _].
    destruct (abs volume * orderBookFactor params <=? tmpVol + v)%float.
    + apply logs_only_ret.
    + apply IH.
Qed.

Lemma logs_only_getAvail_loop :
  forall (root : json_ptr) (currency : string) (i : nat),
    logs_only (getAvail_loop root currency i).
Proof.
  intros root currency i. induction i as [| i IH].
  - apply logs_only_ret.
  - cbn [getAvail_loop].
    destruct (json_unpack_sss (json_array_get root i) "type" "currency"
                "amount") as [err | [[t c] a]].
    + apply logs_only_bind; [apply logs_only_log | intros _; apply IH].
    + destruct (String.eqb t "trading" && String.eqb c currency).
      * apply logs_only_stod.
      * apply IH.
Qed.

(** After a GET, whatever follows and only logs leaves the wire and the
    count of clock readings as the GET left them. *)
Lemma getRequest_then {A} (path : string) (k : json_ptr -> M A) (w : World) :
  (forall root, logs_only (k root)) ->
  exists o : ostream,
    snd (bind (getRequest path) k w)
    = set_log o (after_get (plain_get path) w).
Proof.
  intro Hk. unfold bind, getRequest, perform.
  destruct (exchange w (wire w) _) as [root |].
  - destruct (Hk (Some root)
                (after_get (plain_get path) w)) as [o Ho].
    exists o. exact Ho.
  - exists (logFile w). reflexivity.
Qed.

(** X1: [getQuote] and [getLimitPrice] put exactly one request on the
    wire, a GET of their path without any header: no key, signature or
    payload.  They do not read the clock, [getQuote] leaves the log as it
    was, and this holds however the call ends. *)
Theorem public_calls_are_unsigned :
  forall w : World,
    snd (getQuote params w) = after_get (plain_get "/v1/ticker/btcusd") w
    /\ (forall (volume : float) (isBid : bool),
           let w' := snd (getLimitPrice params volume isBid w) in
           wire w' = (wire w ++ [plain_get "/v1/book/btcusd"])%list
           /\ clock_reads w' = clock_reads w).
Proof.
  intro w. split.
  - unfold getQuote, bind, getRequest, perform.
    destruct (exchange w (wire w) _) as [root |]; [| reflexivity].
    destruct (json_string_value (json_object_get (Some root) "bid"))
      as [sb |].
    + rewrite stod_run. destruct (stod_outcome sb); try reflexivity.
      destruct (json_string_value (json_object_get (Some root) "ask"))
        as [sa |].
      * rewrite stod_run. destruct (stod_outcome sa); reflexivity.
      * reflexivity.
    + unfold ret at 1.
      destruct (json_string_value (json_object_get (Some root) "ask"))
        as [sa |].
      * rewrite stod_run. destruct (stod_outcome sa); reflexivity.
      * reflexivity.
  - intros volume isBid w'. subst w'.
    assert (H : exists o : ostream,
               snd (getLimitPrice params volume isBid w)
               = set_log o (after_get (plain_get "/v1/book/btcusd") w)).
    { unfold getLimitPrice. apply getRequest_then. intro root. cbv zeta.
      apply logs_only_bind; [apply logs_only_log | intros _].
      apply logs_only_getLimitPrice_loop. }
    destruct H as [o Ho]. rewrite Ho. split; reflexivity.
Qed.

Lemma authRequest_then {A} (request options : string)
    (k : json_ptr -> M A) (w : World) (n : Z) :
  nonce_of (wall_clock w (clock_reads w)) = Some n ->
  (forall root, logs_only (k root)) ->
  exists o : ostream,
    snd (bind (authRequest HMAC_SHA384 params request options) k w)
    = set_log o
        (after_request
           (signed_request HMAC_SHA384 params request n options) w).
Proof.
  intros Hn Hk. unfold bind.
  rewrite (authRequest_run HMAC_SHA384 params request options w n Hn).
  cbv zeta.
  destruct (exchange w (wire w) _) as [root |].
  - destruct (checkResponse_run (Some root)
                (after_request
                   (signed_request HMAC_SHA384 params request n options) w))
      as [o Ho].
    rewrite Ho.
    destruct (Hk (Some root)
                (set_log o
                   (after_request
                      (signed_request HMAC_SHA384 params request n options)
                      w))) as [o' Ho'].
    exists o'. rewrite Ho'. reflexivity.
  - exists (logFile w). reflexivity.
Qed.

Lemma sendOrder_world :
  forall (direction : string) (quantity price : float) (w : World) (n : Z),
    nonce_of (wall_clock w (clock_reads w)) = Some n ->
    exists o : ostream,
      snd (sendOrder HMAC_SHA384 params direction quantity price w)
      = set_log o
          (after_request
             (signed_request HMAC_SHA384 params "/v1/order/new" n
                (order_options direction (ostream_double quantity)
                   (ostream_double price))) w).
Proof.
  intros direction quantity price w n Hn.
  unfold sendOrder. unfold bind at 1. unfold log at 1.
  destruct (authRequest_then "/v1/order/new"
              (order_options direction (ostream_double quantity)
                 (ostream_double price))
              (fun root =>
                 log ("<Bitfinex> Done (order ID: "
                      ++ to_string
                           (json_integer_value
                              (json_object_get root "order_id"))
                      ++ ")" ++ newline ++ newline) ;;
                 ret (to_string
                        (json_integer_value
                           (json_object_get root "order_id"))))
              (set_log
                 (os_write
                    (lit "<Bitfinex> Trying to send a '" ++ direction
                     ++ lit "' limit order: " ++ ostream_double quantity
                     ++ "@$" ++ ostream_double price ++ "..." ++ newline)
                    (logFile w)) w) n Hn) as [o Ho].
  - intro root.
    apply logs_only_bind; [apply logs_only_log | intros _].
    apply logs_only_ret.
  - exists o. exact Ho.
Qed.

(** X2: [getAvail], [getActivePos], [isOrderComplete] (for an identifier
    other than "0"), [sendLongOrder] and [sendShortOrder] each read the clock
    once and put exactly one request on the wire, the signed POST of their
    path and options, however the call ends; the long and the short order
    send the same request. *)
Theorem private_calls_send_once :
  forall (w : World) (n : Z),
    nonce_of (wall_clock w (clock_reads w)) = Some n ->
    let sent (request options : string) (w' : World) :=
      wire w'
      = (wire w
         ++ [signed_request HMAC_SHA384 params request n options])%list
      /\ clock_reads w' = S (clock_reads w) in
    (forall currency : string,
        sent "/v1/balances" EmptyString
          (snd (getAvail HMAC_SHA384 params currency w)))
    /\ sent "/v1/positions" EmptyString
         (snd (getActivePos HMAC_SHA384 params w))
    /\ (forall orderId : string,
           orderId <> "0" ->
           sent "/v1/order/status" (status_options orderId)
             (snd (isOrderComplete HMAC_SHA384 params orderId w)))
    /\ (forall (direction : string) (quantity price : float),
           sent "/v1/order/new"
             (order_options direction (ostream_double quantity)
                (ostream_double price))
             (snd (sendLongOrder HMAC_SHA384 params direction quantity
                     price w))
           /\ sent "/v1/order/new"
                (order_options direction (ostream_double quantity)
                   (ostream_double price))
                (snd (sendShortOrder HMAC_SHA384 params direction quantity
                        price w))).
Proof.
  intros w n Hn sent.
  assert (Hsent : forall (request options : string) (w' : World),
             (exists o : ostream,
                 w' = set_log o
                        (after_request
                           (signed_request HMAC_SHA384 params request n
                              options) w)) ->
             sent request options w').
  { intros request options w' [o ->]. split; reflexivity. }
  split; [| split; [| split]].
  - intro currency. apply Hsent. unfold getAvail.
    apply authRequest_then; [exact Hn |].
    intro root. apply logs_only_getAvail_loop.
  - apply Hsent. unfold getActivePos.
    apply authRequest_then; [exact Hn |].
    intro root. destruct (Nat.eqb (json_array_size root) 0).
    + apply logs_only_bind; [apply logs_only_log | intros _].
      apply logs_only_ret.
    + apply logs_only_atof.
  - intros orderId Hid. apply Hsent. unfold isOrderComplete.
    destruct (String.eqb_spec orderId "0") as [E | _]; [contradiction |].
    apply authRequest_then; [exact Hn |].
    intro root. apply logs_only_ret.
  - intros direction quantity price.
    assert (H : sent "/v1/order/new"
                  (order_options direction (ostream_double quantity)
                     (ostream_double price))
                  (snd (sendOrder HMAC_SHA384 params direction quantity
                          price w))).
    { apply Hsent. apply sendOrder_world. exact Hn. }
    split; exact H.
Qed.

End Effects.

Lemma private_calls_send_once_witness :
  wire (snd (getAvail no_hmac demo_params "btc" (balances_world [])))
  = [signed_request no_hmac demo_params "/v1/balances" 1700000000250
       EmptyString]
  /\ clock_reads (snd (getAvail no_hmac demo_params "btc"
                         (balances_world []))) = 1%nat.
Proof.
  apply (proj1 (private_calls_send_once no_hmac demo_params
                  (balances_world []) 1700000000250 eq_refl) "btc").
Defined.

Section ErrorDocuments.

Variable HMAC_SHA384 : string -> string -> string.
Variable params : Parameters.

Lemma authRequest_error :
  forall (request options m : string) (w : World) (n : Z)
         (fields : list (string * json)),
    nonce_of (wall_clock w (clock_reads w)) = Some n ->
    exchange w (wire w)
      (signed_request HMAC_SHA384 params request n options)
    = Reply (JObject fields) ->
    assoc "message" fields = Some (JString m) ->
    authRequest HMAC_SHA384 params request options w
    = (Returns (Some (JObject fields)),
       set_log (error_logged m (logFile w))
         (after_request
            (signed_request HMAC_SHA384 params request n options) w)).
Proof.
  intros request options m w n fields Hn Hreply Hm.
  rewrite (authRequest_run HMAC_SHA384 params request options w n Hn).
  cbv zeta. rewrite Hreply.
  unfold checkResponse. cbn [json_object_get]. rewrite Hm.
  reflexivity.
Qed.

Lemma authRequest_quiet :
  forall (request options : string) (w : World) (n : Z) (root : json),
    nonce_of (wall_clock w (clock_reads w)) = Some n ->
    exchange w (wire w)
      (signed_request HMAC_SHA384 params request n options)
    = Reply root ->
    json_object_get (Some root) "message" = None ->
    authRequest HMAC_SHA384 params request options w
    = (Returns (Some root),
       after_request
         (signed_request HMAC_SHA384 params request n options) w).
Proof.
  intros request options w n root Hn Hreply Hm.
  rewrite (authRequest_run HMAC_SHA384 params request options w n Hn).
  cbv zeta. rewrite Hreply.
  unfold checkResponse. rewrite Hm. reflexivity.
Qed.

(** X3: when the exchange answers with an object whose member "message"
    is a string, [checkResponse] writes that message to the log and the
    document goes on to the caller, which cannot tell it from an answer:
    [getAvail] and [getActivePos] return 0.0 ([getActivePos] after its
    warning), and [isOrderComplete] returns false unless the object has
    "is_live" false. *)
Theorem error_document_defaults :
  forall (m : string) (w : World) (n : Z) (fields : list (string * json)),
    nonce_of (wall_clock w (clock_reads w)) = Some n ->
    (forall q : http_request, exchange w (wire w) q = Reply (JObject fields)) ->
    assoc "message" fields = Some (JString m) ->
    let answered (request options : string) : World :=
      set_log (error_logged m (logFile w))
        (after_request
           (signed_request HMAC_SHA384 params request n options) w) in
    (forall currency : string,
        getAvail HMAC_SHA384 params currency w
        = (Returns 0%float, answered "/v1/balances" EmptyString))
    /\ getActivePos HMAC_SHA384 params w
       = (Returns 0%float,
          set_log
            (os_write
               ("<Bitfinex> WARNING: BTC position not available, return 0.0"
                ++ newline)
               (error_logged m (logFile w)))
            (answered "/v1/positions" EmptyString))
    /\ (forall orderId : string,
           orderId <> "0" ->
           assoc "is_live" fields <> Some JFalse ->
           isOrderComplete HMAC_SHA384 params orderId w
           = (Returns false,
              answered "/v1/order/status" (status_options orderId))).
Proof.
  intros m w n fields Hn Hreply Hm answered.
  split; [| split].
  - intro currency. unfold getAvail, bind.
    rewrite (authRequest_error "/v1/balances" EmptyString m w n fields Hn
               (Hreply _) Hm).
    reflexivity.
  - unfold getActivePos, bind.
    rewrite (authRequest_error "/v1/positions" EmptyString m w n fields Hn
               (Hreply _) Hm).
    reflexivity.
  - intros orderId Hid Hlive. unfold isOrderComplete.
    destruct (String.eqb_spec orderId "0") as [E | _]; [contradiction |].
    cbv zeta. fold (status_options orderId). unfold bind.
    rewrite (authRequest_error "/v1/order/status" (status_options orderId)
               m w n fields Hn (Hreply _) Hm).
    unfold ret. cbn [json_object_get].
    destruct (assoc "is_live" fields) as [[] |]; try reflexivity.
    contradiction Hlive. reflexivity.
Qed.

End ErrorDocuments.

Lemma error_document_defaults_witness :
  fst (getAvail no_hmac demo_params "btc"
         (order_world (JObject [("message", JString "Invalid API key")])))
  = Returns 0%float
  /\ os_text
       (logFile
          (snd (getAvail no_hmac demo_params "btc"
                  (order_world
                     (JObject [("message", JString "Invalid API key")])))))
     = "<Bitfinex> Error with response: Invalid API key" ++ newline.
Proof.
  pose proof
    (proj1 (error_document_defaults no_hmac demo_params "Invalid API key"
              (order_world (JObject [("message", JString "Invalid API key")]))
              1700000000250 [("message", JString "Invalid API key")]
              eq_refl (fun _ => eq_refl) eq_refl) "btc") as H.
  rewrite H. split; reflexivity.
Defined.

Section Positions.

Variable HMAC_SHA384 : string -> string -> string.
Variable params : Parameters.

(** X4: [getActivePos] returns 0.0, with a warning in the log, when the
    response is not an array or is an empty one; otherwise it reads only the
    first position: what [atof] finds in its member "amount" (0.0, without an
    exception, for a text that is not a number), and undefined behaviour when
    that member is missing or not a string. *)
Theorem getActivePos_reads_first :
  forall (w w1 : World) (root : json_ptr),
    authRequest HMAC_SHA384 params "/v1/positions" EmptyString w
    = (Returns root, w1) ->
    (json_array_size root = 0%nat ->
     getActivePos HMAC_SHA384 params w
     = (Returns 0%float,
        set_log
          (os_write
             ("<Bitfinex> WARNING: BTC position not available, return 0.0"
              ++ newline) (logFile w1)) w1))
    /\ (forall (first : json) (rest : list json),
           root = Some (JArray (first :: rest)) ->
           (forall s : string,
               json_string_value (json_object_get (Some first) "amount")
               = Some s ->
               getActivePos HMAC_SHA384 params w = (Returns (atof s), w1)
               /\ (strtod s = NoConversion ->
                   getActivePos HMAC_SHA384 params w = (Returns 0%float, w1)))
           /\ (json_string_value (json_object_get (Some first) "amount")
               = None ->
               getActivePos HMAC_SHA384 params w = (Undefined, w1))).
Proof.
  intros w w1 root Hauth. split.
  - intro Hsize. unfold getActivePos, bind. rewrite Hauth, Hsize.
    reflexivity.
  - intros first rest ->. unfold getActivePos, bind. rewrite Hauth.
    cbn [json_array_size List.length Nat.eqb json_array_get nth_error].
    split.
    + intros s Hs. rewrite Hs. split; [reflexivity |].
      intro Hno. unfold atof_cstr, ret, atof. rewrite Hno. reflexivity.
    + intro Hs. rewrite Hs. reflexivity.
Qed.

End Positions.

Lemma getActivePos_reads_first_witness :
  fst (getActivePos no_hmac demo_params
         (order_world
            (JArray [JObject [("amount", JString "-0.75")];
                     JObject [("amount", JString "3")]])))
  = Returns (-0.75)%float
  /\ fst (getActivePos no_hmac demo_params
            (order_world (JArray [JObject [("amount", JString "none")]])))
     = Returns 0%float
  /\ fst (getActivePos no_hmac demo_params
            (order_world (JArray [JObject [("base", JString "100")]])))
     = Undefined
  /\ fst (getActivePos no_hmac demo_params (order_world (JArray [])))
     = Returns 0%float.
Proof.
  split; [| split; [| split]].
  - pose proof
      (proj1
         (proj1
            (proj2
               (getActivePos_reads_first no_hmac demo_params
                  (order_world
                     (JArray [JObject [("amount", JString "-0.75")];
                              JObject [("amount", JString "3")]]))
                  _ _ eq_refl)
               _ _ eq_refl) "-0.75" eq_refl)) as H.
    rewrite H. vm_compute. reflexivity.
  - pose proof
      (proj2
         (proj1
            (proj2
               (getActivePos_reads_first no_hmac demo_params
                  (order_world
                     (JArray [JObject [("amount", JString "none")]]))
                  _ _ eq_refl)
               _ _ eq_refl) "none" eq_refl) eq_refl) as H.
    rewrite H. reflexivity.
  - pose proof
      (proj2
         (proj2
            (getActivePos_reads_first no_hmac demo_params
               (order_world (JArray [JObject [("base", JString "100")]]))
               _ _ eq_refl)
            _ _ eq_refl) eq_refl) as H.
    rewrite H. reflexivity.
  - pose proof
      (proj1
         (getActivePos_reads_first no_hmac demo_params
            (order_world (JArray [])) _ _ eq_refl) eq_refl) as H.
    rewrite H. reflexivity.
Defined.

Section OrderLifecycle.

Variable HMAC_SHA384 : string -> string -> string.
Variable params : Parameters.

Lemma sendOrder_run :
  forall (direction : string) (quantity price : float) (w : World)
         (n : Z) (root : json),
    nonce_of (wall_clock w (clock_reads w)) = Some n ->
    exchange w (wire w)
      (signed_request HMAC_SHA384 params "/v1/order/new" n
         (order_options direction (ostream_double quantity)
            (ostream_double price))) = Reply root ->
    exists o : ostream,
      sendOrder HMAC_SHA384 params direction quantity price w
      = (Returns (to_string
                    (json_integer_value
                       (json_object_get (Some root) "order_id"))),
         set_log o
           (after_request
              (signed_request HMAC_SHA384 params "/v1/order/new" n
                 (order_options direction (ostream_double quantity)
                    (ostream_double price))) w)).
Proof.
  intros direction quantity price w n root Hn Hreply.
  unfold sendOrder. unfold bind at 1. unfold log at 1. cbv zeta.
  fold (order_options direction (ostream_double quantity)
          (ostream_double price)).
  set (w0 := set_log _ w).
  pose proof (authRequest_run HMAC_SHA384 params "/v1/order/new"
                (order_options direction (ostream_double quantity)
                   (ostream_double price)) w0 n Hn) as Hrun.
  cbv zeta in Hrun.
  change (exchange w0 (wire w0)) with (exchange w (wire w)) in Hrun.
  rewrite Hreply in Hrun.
  destruct (checkResponse_run (Some root)
              (after_request
                 (signed_request HMAC_SHA384 params "/v1/order/new" n
                    (order_options direction (ostream_double quantity)
                       (ostream_double price))) w0)) as [o Ho].
  rewrite Ho in Hrun.
  unfold bind at 1. rewrite Hrun.
  eexists. unfold bind, log, ret. reflexivity.
Qed.

(** X5: when the response to an order has no integer "order_id" (or has
    0), [sendOrder] returns "0", and [isOrderComplete] on that identifier
    answers true without asking the exchange: only the order itself was
    sent. *)
Theorem unidentified_order_reads_complete :
  forall (direction : string) (quantity price : float) (w : World)
         (n : Z) (root : json),
    nonce_of (wall_clock w (clock_reads w)) = Some n ->
    exchange w (wire w)
      (signed_request HMAC_SHA384 params "/v1/order/new" n
         (order_options direction (ostream_double quantity)
            (ostream_double price))) = Reply root ->
    json_integer_value (json_object_get (Some root) "order_id") = 0 ->
    let w1 := snd (sendOrder HMAC_SHA384 params direction quantity price w) in
    (orderId <- sendOrder HMAC_SHA384 params direction quantity price ;;
     isOrderComplete HMAC_SHA384 params orderId) w
    = (Returns true, w1)
    /\ wire w1
       = (wire w
          ++ [signed_request HMAC_SHA384 params "/v1/order/new" n
                (order_options direction (ostream_double quantity)
                   (ostream_double price))])%list.
Proof.
  intros direction quantity price w n root Hn Hreply Hzero w1. subst w1.
  destruct (sendOrder_run direction quantity price w n root Hn Hreply)
    as [o Ho].
  unfold bind. rewrite Ho, Hzero. split; reflexivity.
Qed.

End OrderLifecycle.

Lemma unidentified_order_reads_complete_witness :
  fst ((orderId <- sendOrder no_hmac demo_params "buy" 0.5%float 12345.678%float ;;
        isOrderComplete no_hmac demo_params orderId)
         (order_world (JObject [("order_id", JString "448411153")])))
  = Returns true.
Proof.
  pose proof
    (proj1
       (unidentified_order_reads_complete no_hmac demo_params "buy"
          0.5%float 12345.678%float
          (order_world (JObject [("order_id", JString "448411153")]))
          1700000000250 (JObject [("order_id", JString "448411153")])
          eq_refl eq_refl eq_refl)) as H.
  rewrite H. reflexivity.
Defined.

Section BookEdges.

Variable params : Parameters.

Lemma abs_opp (x : float) : abs (- x) = abs x.
Proof.
  apply Prim2SF_inj. rewrite !FloatAxioms.abs_spec, FloatAxioms.opp_spec.
  destruct (Prim2SF x); reflexivity.
Qed.

Lemma getLimitPrice_loop_opp :
  forall (bidask : json_ptr) (volume : float) (k i : nat) (tmpVol p : float)
         (w : World),
    getLimitPrice_loop params bidask (- volume) k i tmpVol p w
    = getLimitPrice_loop params bidask volume k i tmpVol p w.
Proof.
  intros bidask volume k. induction k as [| k IH]; intros i tmpVol p w.
  - reflexivity.
  - cbn [getLimitPrice_loop]. unfold bind.
    destruct (atof_cstr _ w) as [[p' | e |] w1]; try reflexivity.
    destruct (atof_cstr _ w1) as [[v | e |] w2]; try reflexivity.
    destruct (log _ w2) as [[[] | e |] w3]; try reflexivity.
    rewrite abs_opp.
    destruct (abs volume * orderBookFactor params <=? tmpVol + v)%float.
    + reflexivity.
    + apply IH.
Qed.

(** X6: [getLimitPrice] depends on the volume through its absolute value
    only: a volume and its opposite give the same result, the same request
    and the same log. *)
Theorem getLimitPrice_ignores_sign :
  forall (volume : float) (isBid : bool) (w : World),
    getLimitPrice params (- volume) isBid w
    = getLimitPrice params volume isBid w.
Proof.
  intros volume isBid w. unfold getLimitPrice, bind.
  destruct (getRequest "/v1/book/btcusd" w) as [[root | e |] w1];
    try reflexivity.
  rewrite abs_opp.
  destruct (log _ w1) as [[[] | e |] w2]; try reflexivity.
  apply getLimitPrice_loop_opp.
Qed.

Lemma getLimitPrice_loop_stuck :
  forall (volume : float) (levels good : list json) (bad : json)
         (rest : list json) (lv : list (float * float)) (i : nat)
         (tmpVol p : float) (w : World),
    skipn i levels = (good ++ bad :: rest)%list ->
    book_levels good = Some lv ->
    (forall j, (j < List.length lv)%nat ->
               reaches params volume (cum_from tmpVol lv j) = false) ->
    level_fields bad = None ->
    fst (getLimitPrice_loop params (Some (JArray levels)) volume
           (List.length (good ++ bad :: rest)%list) i tmpVol p w)
    = Undefined.
Proof.
  intros volume levels good bad rest.
  induction good as [| l good IH]; intros lv i tmpVol p w Hskip Hlv Hno Hbad.
  - cbn [app] in *. apply skipn_cons_nth in Hskip as [En _].
    cbn [List.length getLimitPrice_loop]. unfold json_array_get.
    rewrite En. unfold level_fields in Hbad. unfold bind.
    destruct (json_string_value (json_object_get (Some bad) "price"))
      as [sp |]; [| reflexivity].
    destruct (json_string_value (json_object_get (Some bad) "amount"))
      as [sv |]; [discriminate | reflexivity].
  - cbn [app] in Hskip. apply skipn_cons_nth in Hskip as [En Es].
    cbn [book_levels] in Hlv.
    destruct (level_fields l) as [[p' v] |] eqn:El; [| discriminate].
    destruct (book_levels good) as [lv' |] eqn:Er; [| discriminate].
    injection Hlv as <-.
    unfold level_fields in El.
    destruct (json_string_value (json_object_get (Some l) "price"))
      as [sp |] eqn:Ep; [| discriminate].
    destruct (json_string_value (json_object_get (Some l) "amount"))
      as [sv |] eqn:Ev; [| discriminate].
    injection El as <- <-.
    cbn [app List.length getLimitPrice_loop]. unfold json_array_get.
    rewrite En. unfold bind. rewrite Ep, Ev.
    cbn [atof_cstr ret log fst snd].
    pose proof (Hno 0%nat ltac:(cbn [List.length]; lia)) as H0.
    unfold reaches, cum_from in H0. cbn [firstn fold_left snd] in H0.
    rewrite H0.
    apply (IH lv'); [exact Es | reflexivity | | exact Hbad].
    intros j Hj. apply (Hno (S j)). cbn [List.length]. lia.
Qed.

(** X7: when the walk of [getLimitPrice] comes to a level whose "price" or
    "amount" is missing or is not a string, before the accumulated volume
    reached the threshold, [atof] is given a null pointer: the call has
    undefined behaviour. *)
Theorem getLimitPrice_missing_field :
  forall (volume : float) (isBid : bool) (w w1 : World) (root : json_ptr)
         (good : list json) (bad : json) (rest : list json)
         (lv : list (float * float)),
    getRequest "/v1/book/btcusd" w = (Returns root, w1) ->
    json_object_get root (book_side isBid)
    = Some (JArray (good ++ bad :: rest)%list) ->
    book_levels good = Some lv ->
    (forall j, (j < List.length lv)%nat ->
               reaches params volume (cum_volume lv j) = false) ->
    level_fields bad = None ->
    fst (getLimitPrice params volume isBid w) = Undefined.
Proof.
  intros volume isBid w w1 root good bad rest lv Hreq Hside Hlv Hno Hbad.
  unfold getLimitPrice, bind. rewrite Hreq.
  fold (book_side isBid). rewrite Hside.
  cbn [log json_array_size].
  apply (getLimitPrice_loop_stuck volume (good ++ bad :: rest)%list good bad
           rest lv); [reflexivity | exact Hlv | exact Hno | exact Hbad].
Qed.

End BookEdges.

Lemma getLimitPrice_missing_field_witness :
  fst (getLimitPrice demo_params 2.5%float true
         (initial_world noon
            (always
               (JObject
                  [("bids",
                    JArray [level "100" "1.0";
                            JObject [("price", JString "99")];
                            level "98" "5.0"])]))))
  = Undefined.
Proof.
  apply (getLimitPrice_missing_field demo_params 2.5%float true
           (initial_world noon
              (always
                 (JObject
                    [("bids",
                      JArray [level "100" "1.0";
                              JObject [("price", JString "99")];
                              level "98" "5.0"])])))
           _ _ [level "100" "1.0"] (JObject [("price", JString "99")])
           [level "98" "5.0"] [(100%float, 1%float)]
           eq_refl eq_refl).
  - vm_compute. reflexivity.
  - intros j Hj. destruct j as [| j]; [vm_compute; reflexivity |].
    cbn [List.length] in Hj. lia.
  - reflexivity.
Defined.

Section BookValues.

Variable params : Parameters.
Variable volume : float.

Lemma add_nan_l (x y : float) : is_nan x -> is_nan (x + y)%float.
Proof.
  unfold is_nan. intro H. rewrite FloatAxioms.add_spec, H. reflexivity.
Qed.

Lemma add_nan_r (x y : float) : is_nan y -> is_nan (x + y)%float.
Proof.
  unfold is_nan. intro H. rewrite FloatAxioms.add_spec, H.
  destruct (Prim2SF x); reflexivity.
Qed.

Lemma leb_nan_l (x y : float) : is_nan x -> (x <=? y)%float = false.
Proof.
  unfold is_nan. intro H. rewrite FloatAxioms.leb_spec, H. reflexivity.
Qed.

Lemma leb_nan_r (x y : float) : is_nan y -> (x <=? y)%float = false.
Proof.
  unfold is_nan. intro H. rewrite FloatAxioms.leb_spec, H.
  destruct (Prim2SF x); reflexivity.
Qed.

Lemma fold_nan (l : list (float * float)) (acc : float) :
  is_nan acc ->
  is_nan (fold_left (fun a x => (a + snd x)%float) l acc).
Proof.
  revert acc. induction l as [| x l IH]; intros acc H; [exact H |].
  cbn [fold_left]. apply IH. apply add_nan_l. exact H.
Qed.

Lemma cum_from_nan :
  forall (lv : list (float * float)) (i j : nat) (acc p v : float),
    nth_error lv i = Some (p, v) -> is_nan v -> (i <= j)%nat ->
    is_nan (cum_from acc lv j).
Proof.
  induction lv as [| [p' v'] lv IH]; intros i j acc p v Hi Hv Hij.
  - destruct i; discriminate Hi.
  - unfold cum_from. cbn [firstn fold_left snd].
    destruct i as [| i].
    + injection Hi as -> ->. apply fold_nan. apply add_nan_r. exact Hv.
    + destruct j as [| j]; [lia |].
      apply (IH i j _ p v Hi Hv). lia.
Qed.

(** X8: when the threshold [|volume| * orderBookFactor] is NaN, or the
    amount of a level that the walk comes to is NaN, no comparison succeeds
    any more and [getLimitPrice] returns the price of the last level of the
    book. *)
Theorem getLimitPrice_nan :
  forall (isBid : bool) (w w1 : World) (root : json_ptr)
         (levels : list json) (lv : list (float * float)),
    getRequest "/v1/book/btcusd" w = (Returns root, w1) ->
    json_object_get root (book_side isBid) = Some (JArray levels) ->
    book_levels levels = Some lv ->
    is_nan (abs volume * orderBookFactor params)%float
    \/ (exists (i : nat) (p v : float),
           nth_error lv i = Some (p, v) /\ is_nan v
           /\ forall j, (j < i)%nat ->
                        reaches params volume (cum_volume lv j) = false) ->
    fst (getLimitPrice params volume isBid w)
    = Returns (last (map fst lv) 0%float).
Proof.
  intros isBid w w1 root levels lv Hreq Hside Hlv Hnan.
  rewrite (getLimitPrice_walk params volume isBid w w1 root levels lv
             Hreq Hside Hlv).
  f_equal. apply walk_exhausted. intros j Hj.
  destruct Hnan as [Hthr | (i & p & v & Hi & Hv & Hbefore)].
  - unfold reaches. apply leb_nan_l. exact Hthr.
  - destruct (Nat.lt_ge_cases j i) as [Hlt | Hge].
    + apply Hbefore. exact Hlt.
    + unfold reaches. apply leb_nan_r.
      apply (cum_from_nan lv i j _ p v Hi Hv Hge).
Qed.

Lemma walk_quoted :
  forall (lv : list (float * float)) (acc p0 : float),
    lv <> [] -> In (walk params volume lv acc p0) (map fst lv).
Proof.
  induction lv as [| [p v] lv IH]; intros acc p0 Hne; [congruence |].
  cbn [walk map fst].
  destruct (reaches params volume (acc + v)%float); [left; reflexivity |].
  destruct lv as [| x lv]; [left; reflexivity |].
  right. apply IH. discriminate.
Qed.

(** X9: on a book side with at least one level, all with a price and
    an amount, [getLimitPrice] returns and its result is the price of one of
    the levels. *)
Theorem getLimitPrice_quoted :
  forall (isBid : bool) (w w1 : World) (root : json_ptr)
         (levels : list json) (lv : list (float * float)),
    getRequest "/v1/book/btcusd" w = (Returns root, w1) ->
    json_object_get root (book_side isBid) = Some (JArray levels) ->
    book_levels levels = Some lv ->
    lv <> [] ->
    exists p : float,
      fst (getLimitPrice params volume isBid w) = Returns p
      /\ In p (map fst lv).
Proof.
  intros isBid w w1 root levels lv Hreq Hside Hlv Hne.
  exists (walk params volume lv 0%float 0%float). split.
  - apply (getLimitPrice_walk params volume isBid w w1 root levels lv
             Hreq Hside Hlv).
  - apply walk_quoted. exact Hne.
Qed.

End BookValues.

Lemma getLimitPrice_nan_witness :
  fst (getLimitPrice demo_params 0.5%float true
         (initial_world noon
            (always
               (JObject
                  [("bids",
                    JArray [level "100" "nan"; level "99" "2.0";
                            level "98" "5.0"])]))))
  = Returns 98%float.
Proof.
  apply (getLimitPrice_nan demo_params 0.5%float true
           (initial_world noon
              (always
                 (JObject
                    [("bids",
                      JArray [level "100" "nan"; level "99" "2.0";
                              level "98" "5.0"])])))
           _ _ [level "100" "nan"; level "99" "2.0"; level "98" "5.0"]
           [(100%float, nan); (99%float, 2%float); (98%float, 5%float)]
           eq_refl eq_refl).
  - vm_compute. reflexivity.
  - right. exists 0%nat, 100%float, nan.
    split; [reflexivity | split; [reflexivity |]].
    intros j Hj. lia.
Defined.

Lemma getLimitPrice_quoted_witness :
  exists p : float,
    fst (getLimitPrice demo_params 2.5%float false book_world) = Returns p
    /\ In p [100%float; 99%float; 98%float].
Proof.
  apply (getLimitPrice_quoted demo_params 2.5%float false book_world
           _ _ demo_levels
           [(100%float, 1%float); (99%float, 2%float); (98%float, 5%float)]
           eq_refl eq_refl).
  - vm_compute. reflexivity.
  - discriminate.
Defined.

Section RangeErrors.

Variable HMAC_SHA384 : string -> string -> string.
Variable params : Parameters.

(** X10: when [strtod] reports a range error on the bid, on the ask or on
    the amount of the matched balance (a value too large for a double, or too
    small to be represented), the [out_of_range] of [std::stod] leaves
    [getQuote] and [getAvail]. *)
Theorem conversion_range_errors :
  (forall (w w1 : World) (root : json_ptr) (s : string) (v : float),
      getRequest "/v1/ticker/btcusd" w = (Returns root, w1) ->
      json_string_value (json_object_get root "bid") = Some s ->
      strtod s = Converted v true ->
      fst (getQuote params w) = Throws (out_of_range "stod"))
  /\ (forall (w w1 : World) (root : json_ptr) (s : string) (b v : float),
         getRequest "/v1/ticker/btcusd" w = (Returns root, w1) ->
         side_value (json_object_get root "bid") = Returns b ->
         json_string_value (json_object_get root "ask") = Some s ->
         strtod s = Converted v true ->
         fst (getQuote params w) = Throws (out_of_range "stod"))
  /\ (forall (currency amount : string) (w w1 : World)
             (before after : list json) (e : json) (v : float),
         authRequest HMAC_SHA384 params "/v1/balances" EmptyString w
         = (Returns (Some (JArray (before ++ e :: after)%list)), w1) ->
         entry_fields e = inr ("trading", currency, amount) ->
         (forall x, In x after -> entry_matches currency x = false) ->
         strtod amount = Converted v true ->
         fst (getAvail HMAC_SHA384 params currency w)
         = Throws (out_of_range "stod")).
Proof.
  split; [| split].
  - intros w w1 root s v Hreq Hs Hv.
    rewrite (getQuote_run params w w1 root Hreq). cbn [fst].
    unfold side_value at 1. rewrite Hs. unfold stod_outcome. rewrite Hv.
    reflexivity.
  - intros w w1 root s b v Hreq Hb Hs Hv.
    rewrite (getQuote_run params w w1 root Hreq). cbn [fst].
    rewrite Hb. unfold side_value. rewrite Hs. unfold stod_outcome.
    rewrite Hv. reflexivity.
  - intros currency amount w w1 before after e v Hauth He Hafter Hv.
    rewrite (getAvail_scan HMAC_SHA384 params currency w w1 _ Hauth).
    rewrite (avail_scan_last_match currency amount before after e He Hafter).
    unfold stod_outcome. rewrite Hv. reflexivity.
Qed.

End RangeErrors.

Lemma conversion_range_errors_witness :
  fst (getQuote demo_params
         (ticker_world (ticker (JString "1e999") (JString "101.5"))))
  = Throws (out_of_range "stod")
  /\ fst (getQuote demo_params
            (ticker_world (ticker (JString "100.25") (JString "1e-320"))))
     = Throws (out_of_range "stod")
  /\ fst (getAvail no_hmac demo_params "btc"
            (balances_world [balance "trading" "btc" "1e999"]))
     = Throws (out_of_range "stod").
Proof.
  split; [| split].
  - apply (proj1 (conversion_range_errors no_hmac demo_params)
             (ticker_world (ticker (JString "1e999") (JString "101.5")))
             _ _ "1e999" infinity eq_refl eq_refl).
    vm_compute. reflexivity.
  - apply (proj1 (proj2 (conversion_range_errors no_hmac demo_params))
             (ticker_world (ticker (JString "100.25") (JString "1e-320")))
             _ _ "1e-320" 100.25%float
             (SF2Prim (S754_finite false 2024 (-1074))) eq_refl).
    + vm_compute. reflexivity.
    + reflexivity.
    + vm_compute. reflexivity.
  - apply (proj2 (proj2 (conversion_range_errors no_hmac demo_params))
             "btc" "1e999"
             (balances_world [balance "trading" "btc" "1e999"]) _
             [] [] (balance "trading" "btc" "1e999") infinity eq_refl
             eq_refl).
    + intros x [].
    + vm_compute. reflexivity.
Defined.

Lemma milli_excess :
  U <= 1000 * milli /\ 1000000 * (1000 * milli - U) <= U.
Proof. split; vm_compute; discriminate. Qed.

Ltac hide_units :=
  let u := fresh "u" in
  let mi := fresh "mi" in
  let Eu := fresh in
  let Em := fresh in
  remember U as u eqn:Eu; remember milli as mi eqn:Em; clear Eu Em.

Section Milliseconds.

Variable tv : timeval.
Hypothesis Hsec : 0 <= tv_sec tv < 2 ^ 42.
Hypothesis Husec : 0 <= tv_usec tv < 1000000.

Lemma micro_value_bounds :
  tv_usec tv / 1000 * U <= micro_value tv
  <= (tv_usec tv / 1000 + 1) * U.
Proof.
  pose proof U_pos as HU. destruct milli_excess as [Hlo Hhi].
  pose proof (Z.div_mod (tv_usec tv) 1000 ltac:(lia)) as Hdm.
  pose proof (Z.mod_pos_bound (tv_usec tv) 1000 ltac:(lia)) as Hmod.
  set (k := tv_usec tv / 1000) in *.
  assert (Hk : 0 <= k < 1000) by (subst k; split;
    [apply Z.div_pos; lia | apply Z.div_lt_upper_bound; lia]).
  assert (Hlow : k * U <= tv_usec tv * milli).
  { hide_units.
    assert (H1 : 1000 * k * u <= tv_usec tv * u)
      by (apply Z.mul_le_mono_nonneg_r; lia).
    assert (H2 : tv_usec tv * u <= tv_usec tv * (1000 * mi))
      by (apply Z.mul_le_mono_nonneg_l; lia).
    lia. }
  assert (Hupp : tv_usec tv * milli <= (k + 1) * U).
  { hide_units.
    assert (H1 : tv_usec tv * (1000 * mi - u) <= 1000000 * (1000 * mi - u))
      by (apply Z.mul_le_mono_nonneg_r; lia).
    assert (H3 : (tv_usec tv + 1) * u <= 1000 * (k + 1) * u)
      by (apply Z.mul_le_mono_nonneg_r; lia).
    lia. }
  unfold micro_value.
  replace (tv_usec tv * U * milli) with (tv_usec tv * milli * U) by ring.
  split.
  - rewrite <- (exact_product k) at 1
      by (change (2 ^ 53) with 9007199254740992; lia).
    apply round64_mono0.
    + apply Z.mul_nonneg_nonneg; [apply Z.mul_nonneg_nonneg |]; lia.
    + apply Z.mul_le_mono_nonneg_r; [lia | exact Hlow].
  - rewrite <- (exact_product (k + 1))
      by (change (2 ^ 53) with 9007199254740992; lia).
    apply round64_mono0.
    + apply Z.mul_nonneg_nonneg; [| lia].
      apply Z.le_trans with (m := k * U); [| exact Hlow].
      apply Z.mul_nonneg_nonneg; lia.
    + apply Z.mul_le_mono_nonneg_r; [lia | exact Hupp].
Qed.

Lemma sum_value_bounds :
  (tv_sec tv * 1000 + tv_usec tv / 1000) * U <= sum_value tv
  <= (tv_sec tv * 1000 + tv_usec tv / 1000 + 1) * U.
Proof.
  pose proof U_pos as HU. pose proof micro_value_bounds as [Hlo Hhi].
  set (k := tv_usec tv / 1000) in *.
  assert (Hk : 0 <= k < 1000) by (subst k; split;
    [apply Z.div_pos; lia | apply Z.div_lt_upper_bound; lia]).
  change (2 ^ 42) with 4398046511104 in Hsec.
  unfold sum_value. split.
  - rewrite <- (exact_units (tv_sec tv * 1000 + k)) at 1
      by (change (2 ^ 53) with 9007199254740992; lia).
    apply round64_mono0; hide_units; nia.
  - rewrite <- (exact_units (tv_sec tv * 1000 + k + 1))
      by (change (2 ^ 53) with 9007199254740992; lia).
    apply round64_mono0; hide_units; nia.
Qed.

Lemma nonce_model_bounds :
  tv_sec tv * 1000 + tv_usec tv / 1000 <= nonce_model tv
  <= tv_sec tv * 1000 + tv_usec tv / 1000 + 1.
Proof.
  pose proof U_pos as HU. pose proof sum_value_bounds as [Hlo Hhi].
  set (k := tv_usec tv / 1000) in *.
  assert (Hk : 0 <= k < 1000) by (subst k; split;
    [apply Z.div_pos; lia | apply Z.div_lt_upper_bound; lia]).
  change (2 ^ 42) with 4398046511104 in Hsec.
  set (A := tv_sec tv * 1000 + k) in *.
  assert (HUU : U = 2 * 2 ^ 1073) by reflexivity.
  assert (Hhalf : 0 < 2 ^ 1073) by (apply pow2_pos; lia).
  unfold nonce_model. split.
  - apply Z.div_le_lower_bound; [exact HU |].
    rewrite Z.mul_comm.
    rewrite <- (exact_units A)
      by (change (2 ^ 53) with 9007199254740992; lia).
    apply round64_mono0; nia.
  - assert (Hup : round64 (sum_value tv + 2 ^ 1073) (-1074)
                  <= (2 * (A + 1) + 1) * 2 ^ 1073).
    { rewrite <- (round64_exact (2 * (A + 1) + 1) 1073)
        by (change (2 ^ 53) with 9007199254740992; lia).
      apply round64_mono0; nia. }
    apply Z.lt_succ_r. apply Z.div_lt_upper_bound; [exact HU |]. nia.
Qed.

End Milliseconds.

(** X11: for a reading of the clock after the epoch ([tv_sec] below
    [2^42]), the nonce is defined and is the time in milliseconds, up to the
    rounding of the last millisecond: it lies between
    [tv_sec * 1000 + tv_usec / 1000] and that number plus one. *)
Theorem nonce_is_milliseconds :
  forall tv : timeval,
    0 <= tv_sec tv < 2 ^ 42 ->
    0 <= tv_usec tv < 1000000 ->
    exists n : Z,
      nonce_of tv = Some n
      /\ tv_sec tv * 1000 + tv_usec tv / 1000 <= n
         <= tv_sec tv * 1000 + tv_usec tv / 1000 + 1.
Proof.
  intros tv Hsec Husec. exists (nonce_model tv). split.
  - apply nonce_of_value. split; [| exact Husec].
    change (2 ^ 42) with 4398046511104 in Hsec.
    change (2 ^ 43) with 8796093022208. lia.
  - apply nonce_model_bounds; assumption.
Qed.

Lemma nonce_is_milliseconds_witness :
  exists n : Z,
    nonce_of {| tv_sec := 1700000000; tv_usec := 250499 |} = Some n
    /\ 1700000000 * 1000 + 250499 / 1000 <= n
       <= 1700000000 * 1000 + 250499 / 1000 + 1.
Proof.
  apply (nonce_is_milliseconds {| tv_sec := 1700000000; tv_usec := 250499 |});
    cbn [tv_sec tv_usec]; lia.
Defined.

Section OrderPayload.

Import JsonText.

Variable HMAC_SHA384 : string -> string -> string.
Variable params : Parameters.

Lemma plain_app (a b : string) : plain (a ++ b) = plain a && plain b.
Proof.
  induction a as [| c a IH]; [reflexivity |].
  cbn [append plain]. rewrite IH. rewrite !andb_assoc. reflexivity.
Qed.

Lemma plain_digit_at (D k : Z) (s : string) :
  plain (String (digit_at D k) s) = plain s.
Proof.
  unfold digit_at.
  pose proof (Z.mod_pos_bound (D / 10 ^ k) 10 ltac:(lia)) as H.
  set (r := (D / 10 ^ k) mod 10) in *.
  assert (E : r = 0 \/ r = 1 \/ r = 2 \/ r = 3 \/ r = 4 \/ r = 5 \/ r = 6
              \/ r = 7 \/ r = 8 \/ r = 9) by lia.
  destruct E as [-> | [-> | [-> | [-> | [-> | [-> | [-> | [-> | [-> | ->]]]]]]]]];
    reflexivity.
Qed.

Lemma plain_digits6 (D : Z) : plain (digits6 D) = true.
Proof. unfold digits6. rewrite !plain_digit_at. reflexivity. Qed.

Lemma plain_tail (c : ascii) (s : string) :
  plain (String c s) = true -> plain s = true.
Proof. cbn [plain]. intro H. apply andb_prop in H. apply H. Qed.

Lemma plain_substring (n m : nat) (s : string) :
  plain s = true -> plain (substring n m s) = true.
Proof.
  revert n m. induction s as [| c s IH]; intros n m H.
  - destruct n, m; reflexivity.
  - pose proof (plain_tail c s H) as Hs.
    destruct n as [| n].
    + destruct m as [| m]; [reflexivity |].
      cbn [substring]. cbn [plain] in *. rewrite (IH 0%nat m Hs).
      apply andb_prop in H. destruct H as [H _]. rewrite H. reflexivity.
    + cbn [substring]. apply IH. exact Hs.
Qed.

Lemma plain_zeros (n : nat) : plain (zeros n) = true.
Proof. induction n as [| n IH]; [reflexivity |]. cbn [zeros plain]. rewrite IH. reflexivity. Qed.

Lemma plain_strip_zeros (s : string) :
  plain s = true -> plain (strip_zeros s) = true.
Proof.
  induction s as [| c s IH]; intro H; [reflexivity |].
  pose proof (plain_tail c s H) as Hs. specialize (IH Hs).
  cbn [strip_zeros].
  cbn [plain] in H. apply andb_prop in H. destruct H as [Hc _].
  destruct (strip_zeros s) as [| c' r'].
  - destruct (Ascii.eqb c "0"); [reflexivity |].
    cbn [plain]. rewrite Hc. reflexivity.
  - cbn [plain] in *. rewrite Hc, IH. reflexivity.
Qed.

Lemma plain_with_fraction (ip fp : string) :
  plain ip = true -> plain fp = true -> plain (with_fraction ip fp) = true.
Proof.
  intros Hi Hf. unfold with_fraction.
  pose proof (plain_strip_zeros fp Hf) as Hs.
  destruct (strip_zeros fp) as [| c r]; [exact Hi |].
  rewrite !plain_app, Hi, Hs. reflexivity.
Qed.

Lemma plain_fixed (D X : Z) : plain (fixed_repr D X) = true.
Proof.
  unfold fixed_repr. destruct (0 <=? X).
  - apply plain_with_fraction; apply plain_substring; apply plain_digits6.
  - apply plain_with_fraction; [reflexivity |].
    rewrite plain_app, plain_zeros, plain_digits6. reflexivity.
Qed.

Lemma plain_sci (D X : Z) : plain (sci_repr D X) = true.
Proof.
  unfold sci_repr. rewrite !plain_app.
  rewrite plain_with_fraction
    by (apply plain_substring; apply plain_digits6).
  assert (He : plain (exp_digits (Z.abs X)) = true).
  { unfold exp_digits. destruct (Z.abs X <? 100);
      rewrite !plain_digit_at; reflexivity. }
  rewrite He. destruct (X <? 0); reflexivity.
Qed.

Lemma plain_ostream_double (d : float) : plain (ostream_double d) = true.
Proof.
  unfold ostream_double. destruct (Prim2SF d) as [s | s | | s m e].
  - destruct s; reflexivity.
  - destruct s; reflexivity.
  - reflexivity.
  - destruct (sci6 m e) as [D X].
    rewrite plain_app.
    assert (Hr : plain (if (-4 <=? X) && (X <? 6) then fixed_repr D X
                        else sci_repr D X) = true).
    { destruct ((-4 <=? X) && (X <? 6)); [apply plain_fixed | apply plain_sci]. }
    rewrite Hr. destruct s; reflexivity.
Qed.

Lemma order_options_text (direction amount price : string) :
  "{" ++ order_options direction amount price ++ "}"
  = String "{" (String dquote ("symbol" ++ String dquote (String ":"
      (String dquote ("btcusd" ++ String dquote (String "," (String " "
      (String dquote ("amount" ++ String dquote (String ":"
      (String dquote (amount ++ String dquote (String "," (String " "
      (String dquote ("price" ++ String dquote (String ":"
      (String dquote (price ++ String dquote (String "," (String " "
      (String dquote ("exchange" ++ String dquote (String ":"
      (String dquote ("bitfinex" ++ String dquote (String "," (String " "
      (String dquote ("side" ++ String dquote (String ":"
      (String dquote (direction ++ String dquote (String "," (String " "
      (String dquote ("type" ++ String dquote (String ":"
      (String dquote ("limit" ++ String dquote ("}"))))))))))))))))))))))))))))))))))))))))).
Proof.
  unfold order_options.
  repeat first [ rewrite append_assoc
               | progress cbn [append lit Ascii.eqb Bool.eqb] ];
    reflexivity.
Qed.

Ltac next_member :=
  change (skip_ws (String "," (String " " ?r)))
    with (String "," (String " " r));
  change (head_is "," (String "," ?r)) with (Some r); cbv iota;
  change (skip_ws (String " " (String dquote ?r))) with (String dquote r).

Lemma order_options_loads (direction amount price : string) :
  plain direction = true -> plain amount = true -> plain price = true ->
  json_loads ("{" ++ order_options direction amount price ++ "}")
  = Some (JObject (order_members direction amount price)).
Proof.
  intros Hd Ha Hp. rewrite order_options_text. unfold json_loads.
  set (X := String dquote ("symbol" ++ _)).
  change (skip_ws (String "{" X)) with (String "{" X).
  rewrite parse_value_S.
  change (Ascii.eqb "{" dquote) with false.
  change (Ascii.eqb "{" "{") with true. cbv iota.
  change (skip_ws X) with X.
  change (head_is "}" X) with (@None string). cbv iota.
  assert (Hparse : parse_members 7 X
                   = Some (order_members direction amount price,
                           EmptyString)).
  { unfold X.
    rewrite (parse_members_string 5 "symbol" "btcusd" _ eq_refl eq_refl).
    next_member.
    rewrite (parse_members_string 4 "amount" amount _ eq_refl Ha).
    next_member.
    rewrite (parse_members_string 3 "price" price _ eq_refl Hp).
    next_member.
    rewrite (parse_members_string 2 "exchange" "bitfinex" _ eq_refl eq_refl).
    next_member.
    rewrite (parse_members_string 1 "side" direction _ eq_refl Hd).
    next_member.
    rewrite (parse_members_string 0 "type" "limit" _ eq_refl eq_refl).
    reflexivity. }
  assert (Hfuel : (7 <= String.length (String "{" X))%nat).
  { unfold X. cbn [String.length append]. lia. }
  rewrite (parse_members_fuel 7 _ X _ Hfuel Hparse).
  reflexivity.
Qed.

(** X12: for every quantity and price, infinities and NaN included, and
    every direction free of quotes, backslashes and control characters, the
    payload that [sendOrder] sends is a JSON object: "request", "nonce", and
    the six members of the order, with the amount and the price as the
    strings the stream renders. *)
Theorem order_payload_is_json :
  forall (direction : string) (quantity price : float) (w : World) (n : Z),
    nonce_of (wall_clock w (clock_reads w)) = Some n ->
    plain direction = true ->
    exists (q : http_request) (text : string),
      wire (snd (sendOrder HMAC_SHA384 params direction quantity price w))
      = (wire w ++ [q])%list
      /\ decoded_payload q = Some text
      /\ json_loads text
         = Some (JObject
                   (("request", JString "/v1/order/new")
                    :: ("nonce", JString (to_string n))
                    :: order_members direction (ostream_double quantity)
                         (ostream_double price))).
Proof.
  intros direction quantity price w n Hn Hd.
  destruct (sendOrder_world HMAC_SHA384 params direction quantity price w n
              Hn) as [o Ho].
  exists (signed_request HMAC_SHA384 params "/v1/order/new" n
            (order_options direction (ostream_double quantity)
               (ostream_double price))).
  exists (payload_text "/v1/order/new" n
            (order_options direction (ostream_double quantity)
               (ostream_double price))).
  split; [rewrite Ho; reflexivity |].
  split; [apply decoded_payload_signed |].
  apply (payload_loads_fields "/v1/order/new" _ n
           (order_members direction (ostream_double quantity)
              (ostream_double price))).
  - reflexivity.
  - discriminate.
  - apply order_options_loads;
      [exact Hd | apply plain_ostream_double | apply plain_ostream_double].
Qed.

End OrderPayload.

Lemma order_payload_is_json_witness :
  exists (q : http_request) (text : string),
    wire (snd (sendOrder no_hmac demo_params "sell" nan 12345.678%float
                 (order_world (JObject []))))
    = [q]
    /\ decoded_payload q = Some text
    /\ JsonText.json_loads text
       = Some (JObject
                 [("request", JString "/v1/order/new");
                  ("nonce", JString "1700000000250");
                  ("symbol", JString "btcusd"); ("amount", JString "nan");
                  ("price", JString "12345.7");
                  ("exchange", JString "bitfinex");
                  ("side", JString "sell"); ("type", JString "limit")]).
Proof.
  apply (order_payload_is_json no_hmac demo_params "sell" nan
           12345.678%float (order_world (JObject [])) 1700000000250
           eq_refl eq_refl).
Defined.

Section StatusPayload.

Import JsonText.

Variable HMAC_SHA384 : string -> string -> string.
Variable params : Parameters.

Lemma nzhead_no_zero (d d' : Decimal.uint) :
  Decimal.nzhead d <> Decimal.D0 d'.
Proof. induction d; cbn [Decimal.nzhead]; try discriminate. exact IHd. Qed.

Lemma to_uint_no_leading_zero (p : positive) (d' : Decimal.uint) :
  Pos.to_uint p <> Decimal.D0 d'.
Proof.
  intro E.
  pose proof (DecimalPos.Unsigned.to_of (Pos.to_uint p)) as H.
  rewrite DecimalPos.Unsigned.of_to in H. cbn [N.to_uint] in H.
  rewrite E in H. unfold Decimal.unorm in H. cbn [Decimal.nzhead] in H.
  destruct (Decimal.nzhead d') as [| u | | | | | | | | |] eqn:En;
    try discriminate H.
  - injection H as ->. exact (DecimalPos.Unsigned.to_uint_nonzero p E).
  - exact (nzhead_no_zero d' u En).
Qed.

(** The digits of [d] followed by a closing brace. *)
Lemma read_digits_uint_brace :
  forall (d : Decimal.uint) (tail : string) (acc n : Z),
    exists k : Z,
      read_digits 10 digit_of
        (NilEmpty.string_of_uint d ++ String "}" tail) acc n
      = (horner d acc, k, String "}" tail)
      /\ n <= k /\ (d <> Decimal.Nil -> n < k).
Proof.
  induction d; intros tail acc n;
    cbn [NilEmpty.string_of_uint horner append];
    try (exists n; repeat split; [lia | congruence]);
    cbn [read_digits];
    match goal with
    | |- context [digit_of ?c] =>
        let v := eval vm_compute in (digit_of c) in
        change (digit_of c) with v; cbv iota
    end;
    match goal with
    | |- context [read_digits 10 digit_of _ ?a ?m] =>
        destruct (IHd tail a m) as (k & E & Hk & _)
    end;
    exists k; (split; [exact E | split; [lia | intros _; lia]]).
Qed.

Lemma read_number_integer (s1 tail : string) (m k : Z) :
  head_is "-" s1 = None ->
  read_digits 10 digit_of s1 0 0 = (m, k, String "}" tail) ->
  0 < k ->
  head_is "0" s1 = None \/ k = 1 ->
  read_number s1 = Some (JInteger m, String "}" tail)
  /\ read_number (String "-" s1) = Some (JInteger (- m), String "}" tail).
Proof.
  intros Hminus Hread Hk Hzero.
  assert (Hk0 : (k =? 0) = false) by (apply Z.eqb_neq; lia).
  assert (Hlead : match head_is "0" s1 with
                  | Some _ => 1 <? k
                  | None => false
                  end = false).
  { destruct Hzero as [-> | ->]; [reflexivity |].
    destruct (head_is "0" s1); reflexivity. }
  split.
  - unfold read_number. rewrite Hminus, Hread, Hlead, Hk0. reflexivity.
  - unfold read_number.
    change (head_is "-" (String "-" s1)) with (Some s1).
    cbv iota beta. rewrite Hread, Hlead, Hk0. reflexivity.
Qed.

Lemma read_number_uint (d : Decimal.uint) (tail : string) :
  d <> Decimal.Nil ->
  (forall d', d = Decimal.D0 d' -> d' = Decimal.Nil) ->
  read_number (NilEmpty.string_of_uint d ++ String "}" tail)
  = Some (JInteger (horner d 0), String "}" tail)
  /\ read_number (String "-" (NilEmpty.string_of_uint d ++ String "}" tail))
     = Some (JInteger (- horner d 0), String "}" tail).
Proof.
  intros Hnil Hzero.
  destruct (read_digits_uint_brace d tail 0 0) as (k & E & _ & Hk).
  specialize (Hk Hnil).
  apply (read_number_integer _ tail (horner d 0) k); [| exact E | exact Hk |].
  - destruct d; [congruence | ..]; reflexivity.
  - destruct d; try (left; reflexivity).
    right. rewrite (Hzero d eq_refl) in E.
    cbn in E. injection E as E. lia.
Qed.

Lemma read_number_to_string (z : Z) (tail : string) :
  read_number (to_string z ++ String "}" tail)
  = Some (JInteger z, String "}" tail).
Proof.
  destruct z as [| p | p].
  - reflexivity.
  - unfold to_string. cbn [Z.to_int NilZero.string_of_int].
    pose proof (DecimalPos.Unsigned.to_uint_nonnil p) as Hnil.
    assert (Hs : NilZero.string_of_uint (Pos.to_uint p)
                 = NilEmpty.string_of_uint (Pos.to_uint p)).
    { unfold NilZero.string_of_uint. destruct (Pos.to_uint p); congruence. }
    rewrite Hs.
    destruct (read_number_uint (Pos.to_uint p) tail Hnil) as [H _].
    { intros d' E. exfalso. exact (to_uint_no_leading_zero p d' E). }
    rewrite H, horner_of_uint, DecimalPos.Unsigned.of_to. reflexivity.
  - unfold to_string. cbn [Z.to_int NilZero.string_of_int].
    pose proof (DecimalPos.Unsigned.to_uint_nonnil p) as Hnil.
    assert (Hs : NilZero.string_of_uint (Pos.to_uint p)
                 = NilEmpty.string_of_uint (Pos.to_uint p)).
    { unfold NilZero.string_of_uint. destruct (Pos.to_uint p); congruence. }
    rewrite Hs. cbn [append].
    destruct (read_number_uint (Pos.to_uint p) tail Hnil) as [_ H].
    { intros d' E. exfalso. exact (to_uint_no_leading_zero p d' E). }
    rewrite H, horner_of_uint, DecimalPos.Unsigned.of_to. reflexivity.
Qed.

Lemma to_string_head (z : Z) :
  exists (c : ascii) (r : string),
    to_string z = String c r
    /\ (c = "-"%char \/ exists v, digit_of c = Some v).
Proof.
  destruct z as [| p | p].
  - exists "0"%char, EmptyString. split; [reflexivity |].
    right. exists 0. reflexivity.
  - unfold to_string. cbn [Z.to_int NilZero.string_of_int].
    pose proof (DecimalPos.Unsigned.to_uint_nonnil p) as Hnil.
    unfold NilZero.string_of_uint.
    destruct (Pos.to_uint p); [congruence | ..];
      cbn [NilEmpty.string_of_uint]; eexists; eexists;
      (split; [reflexivity | right; eexists; reflexivity]).
  - unfold to_string. cbn [Z.to_int NilZero.string_of_int].
    eexists; eexists. split; [reflexivity | left; reflexivity].
Qed.

Lemma parse_value_number (f : nat) (c : ascii) (r : string) :
  c = "-"%char \/ (exists v, digit_of c = Some v) ->
  parse_value (S f) (String c r) = read_number (String c r).
Proof.
  intro H. rewrite parse_value_S.
  assert (E : Ascii.eqb c dquote = false /\ Ascii.eqb c "{" = false
              /\ Ascii.eqb c "[" = false /\ Ascii.eqb c "t" = false
              /\ Ascii.eqb c "f" = false /\ Ascii.eqb c "n" = false).
  { destruct H as [-> | [v Hv]]; [repeat split; reflexivity |].
    destruct c as [[] [] [] [] [] [] [] []];
      try (vm_compute in Hv; discriminate Hv);
      repeat split; reflexivity. }
  destruct E as (E1 & E2 & E3 & E4 & E5 & E6).
  rewrite E1, E2, E3, E4, E5, E6. reflexivity.
Qed.

Lemma status_options_loads (id : Z) :
  json_loads ("{" ++ status_options (to_string id) ++ "}")
  = Some (JObject [("order_id", JInteger id)]).
Proof.
  assert (Htext : "{" ++ status_options (to_string id) ++ "}"
                  = String "{" (String dquote ("order_id" ++ String dquote
                      (String ":" (to_string id ++ "}"))))).
  { unfold status_options.
    repeat first [ rewrite append_assoc
                 | progress cbn [append lit Ascii.eqb Bool.eqb] ];
      reflexivity. }
  rewrite Htext. unfold json_loads.
  set (X := String dquote ("order_id" ++ _)).
  change (skip_ws (String "{" X)) with (String "{" X).
  rewrite parse_value_S.
  change (Ascii.eqb "{" dquote) with false.
  change (Ascii.eqb "{" "{") with true. cbv iota.
  change (skip_ws X) with X.
  change (head_is "}" X) with (@None string). cbv iota.
  assert (Hparse : parse_members 2 X
                   = Some ([("order_id", JInteger id)], EmptyString)).
  { unfold X. rewrite parse_members_S.
    change (head_is dquote (String dquote ?r)) with (Some r). cbv iota.
    rewrite (read_string_plain "order_id" _ eq_refl).
    change (skip_ws (String ":" ?r)) with (String ":" r).
    change (head_is ":" (String ":" ?r)) with (Some r). cbv iota.
    destruct (to_string_head id) as (c & r & Es & Hc).
    pose proof (read_number_to_string id EmptyString) as Hnum.
    rewrite Es in *. cbn [append] in *.
    assert (Hws : skip_ws (String c (r ++ "}")) = String c (r ++ "}")).
    { destruct Hc as [-> | [v Hv]]; [reflexivity |].
      destruct c as [[] [] [] [] [] [] [] []];
        try (vm_compute in Hv; discriminate Hv); reflexivity. }
    rewrite Hws, (parse_value_number 0 c _ Hc), Hnum.
    reflexivity. }
  assert (Hfuel : (2 <= String.length (String "{" X))%nat).
  { unfold X. cbn [String.length append]. lia. }
  rewrite (parse_members_fuel 2 _ X _ Hfuel Hparse).
  reflexivity.
Qed.

Lemma to_string_nonzero (id : Z) : id <> 0 -> to_string id <> "0".
Proof.
  intros Hid E. destruct id as [| p | p]; [congruence | |].
  - pose proof (decimal_value_to_string (Zpos p) ltac:(lia)) as H.
    rewrite E in H. discriminate H.
  - discriminate E.
Qed.

(** X13: when the response to an order carries the integer [id], other
    than 0, [sendOrder] returns [id] in decimal, and [isOrderComplete] on
    that text sends a second request whose payload is a JSON object with the
    members "request", "nonce" and "order_id", the last being the JSON
    integer [id]. *)
Theorem order_id_round_trip :
  forall (direction : string) (quantity price : float) (w : World)
         (n n' id : Z) (root : json),
    nonce_of (wall_clock w (clock_reads w)) = Some n ->
    nonce_of (wall_clock w (S (clock_reads w))) = Some n' ->
    exchange w (wire w)
      (signed_request HMAC_SHA384 params "/v1/order/new" n
         (order_options direction (ostream_double quantity)
            (ostream_double price))) = Reply root ->
    json_object_get (Some root) "order_id" = Some (JInteger id) ->
    id <> 0 ->
    exists (q0 q : http_request) (text : string),
      fst (sendOrder HMAC_SHA384 params direction quantity price w)
      = Returns (to_string id)
      /\ wire (snd ((orderId <- sendOrder HMAC_SHA384 params direction
                                  quantity price ;;
                     isOrderComplete HMAC_SHA384 params orderId) w))
         = (wire w ++ [q0; q])%list
      /\ decoded_payload q = Some text
      /\ json_loads text
         = Some (JObject [("request", JString "/v1/order/status");
                          ("nonce", JString (to_string n'));
                          ("order_id", JInteger id)]).
Proof.
  intros direction quantity price w n n' id root Hn Hn' Hreply Hid Hnz.
  destruct (sendOrder_run HMAC_SHA384 params direction quantity price w n
              root Hn Hreply) as [o Ho].
  rewrite Hid in Ho. cbn [json_integer_value] in Ho.
  set (q0 := signed_request HMAC_SHA384 params "/v1/order/new" n
               (order_options direction (ostream_double quantity)
                  (ostream_double price))) in *.
  set (w1 := set_log o (after_request q0 w)) in *.
  exists q0.
  exists (signed_request HMAC_SHA384 params "/v1/order/status" n'
            (status_options (to_string id))).
  exists (payload_text "/v1/order/status" n'
            (status_options (to_string id))).
  split; [rewrite Ho; reflexivity |].
  split; [| split].
  - unfold bind at 1. rewrite Ho.
    unfold isOrderComplete.
    destruct (String.eqb_spec (to_string id) "0") as [E | _];
      [exact (False_ind _ (to_string_nonzero id Hnz E)) |].
    destruct (authRequest_then HMAC_SHA384 params "/v1/order/status"
                (status_options (to_string id))
                (fun root => ret (json_is_false
                                    (json_object_get root "is_live")))
                w1 n' Hn') as [o' Ho'].
    + intro r. apply logs_only_ret.
    + cbv zeta. fold (status_options (to_string id)).
      rewrite Ho'. subst w1. cbn [wire set_log after_request].
      rewrite <- app_assoc. reflexivity.
  - apply decoded_payload_signed.
  - apply (payload_loads_fields "/v1/order/status" _ n'
             [("order_id", JInteger id)]).
    + reflexivity.
    + discriminate.
    + apply status_options_loads.
Qed.

End StatusPayload.

Lemma order_id_round_trip_witness :
  exists (q0 q : http_request) (text : string),
    fst (sendOrder no_hmac demo_params "buy" 0.5%float 12345.678%float
           (order_world (JObject [("order_id", JInteger 448411153)])))
    = Returns "448411153"
    /\ wire (snd ((orderId <- sendOrder no_hmac demo_params "buy" 0.5%float
                                12345.678%float ;;
                   isOrderComplete no_hmac demo_params orderId)
                    (order_world
                       (JObject [("order_id", JInteger 448411153)]))))
       = [q0; q]
    /\ decoded_payload q = Some text
    /\ JsonText.json_loads text
       = Some (JObject [("request", JString "/v1/order/status");
                        ("nonce", JString "1700000000250");
                        ("order_id", JInteger 448411153)]).
Proof.
  apply (order_id_round_trip no_hmac demo_params "buy" 0.5%float
           12345.678%float
           (order_world (JObject [("order_id", JInteger 448411153)]))
           1700000000250 1700000000250 448411153
           (JObject [("order_id", JInteger 448411153)])
           eq_refl eq_refl eq_refl eq_refl).
  discriminate.
Defined.

End Props.
